(** * Construction-document web client: model of the checked handlers

    A shallow embedding of the client-side logic of the construction
    chatbot front end (TypeScript/React): the multi-tab SVG viewer's
    viewport arithmetic, the projects dashboard with its dialogs, the
    Procore OAuth callback page, the RFI modal and RFI page, the
    version-control page, the project page, the Procore page and the
    load of the chat page.

    Conventions of the model.
    - A JavaScript [number] is an IEEE-754 double.  Where a statement
      depends on the arithmetic itself (the scale and the position that
      the zoom handlers compute), the number is a primitive [float], with
      the rounding, the NaN and the infinities of JavaScript: modules
      [JSNumber] and [Viewer64].  Where only the structure of the state
      is at stake (which sheet is written, which expression is stored,
      whether the fitted drawing lies within the stage), a coordinate is
      read as the rational it stands for ([Q]): module [Viewer].
      Identifiers held in a [number] are [Z].
    - React state is a record; a handler is a function from the state
      (and the event, and the outcome of each awaited call) to the next
      state.  The calls [setX(...)] of a handler are applied in program
      order.
    - An awaited [fetch] is given by its outcome: it throws, or it
      resolves to a response with its [ok] flag and the outcome of
      reading its body.
    - A [Record<number, T>] object is a finite map [gmap Z T]; an object
      whose enumeration order matters is an association list.
    - Strings that are only compared or shown are [string] (read as
      UTF-8 where a character is looked at); strings that are split and
      trimmed are sequences of UTF-16 code units. *)

From Stdlib Require Import ZArith QArith Qminmax Qabs Qpower Lqa Lia List.
From Stdlib Require Import String Ascii DecimalString Permutation Sorted Floats.
From stdpp Require Import gmap.
From Equations Require Import Equations.
Import ListNotations.

Local Open Scope Q_scope.

(** ** The multi-tab SVG viewer (components/multi-tab-svg-viewer.tsx) *)

Module Viewer.

Record Sheet := mkSheet {
  sheet_id : Z;
  sheet_code : string;
  sheet_title : string;
  svgContent : option string
}.

Record ViewState := mkViewState {
  scale : Q;
  translateX : Q;
  translateY : Q
}.

(** [Partial<ViewState>]: every field may be missing. *)
Record PartialViewState := mkPartial {
  p_scale : option Q;
  p_translateX : option Q;
  p_translateY : option Q
}.

Record Size := mkSize {
  width : Q;
  height : Q
}.

(** The component state that the viewport handlers read or write.  An
    [HTMLImageElement] is opaque here: only its presence is tested. *)
Record State := mkState {
  sheets : list Sheet;
  activeTab : Z;
  viewStates : gmap Z ViewState;
  svgImages : gmap Z unit;
  stageSize : Size;
  svgDimensions : gmap Z Size
}.

Definition defaultViewState : ViewState := mkViewState 1 0 0.

(** [x > y] and [x === y] on numbers. *)
Definition Qgtb (x y : Q) : bool := negb (Qle_bool x y).
Definition Qeqb (x y : Q) : bool := Qeq_bool x y.

(** [Math.min(activeTab, sheets.length - 1)] *)
Definition safeActiveTab (st : State) : Z :=
  Z.min (activeTab st) (Z.of_nat (List.length (sheets st)) - 1).

(** [sheets[safeActiveTab]]; an index below zero reads [undefined]. *)
Definition currentSheet (st : State) : option Sheet :=
  let i := safeActiveTab st in
  if (i <? 0)%Z then None else nth_error (sheets st) (Z.to_nat i).

Definition currentViewState (st : State) : ViewState :=
  match currentSheet st with
  | Some sh => default defaultViewState (viewStates st !! sheet_id sh)
  | None => defaultViewState
  end.

(** [{ ...existingViewState, ...updates }] *)
Definition spread (v : ViewState) (u : PartialViewState) : ViewState :=
  mkViewState (default (scale v) (p_scale u))
              (default (translateX v) (p_translateX u))
              (default (translateY v) (p_translateY u)).

Definition setViewStates (st : State) (vs : gmap Z ViewState) : State :=
  mkState (sheets st) (activeTab st) vs (svgImages st) (stageSize st)
          (svgDimensions st).

Definition updateViewState (st : State) (updates : PartialViewState) : State :=
  match currentSheet st with
  | None => st
  | Some sh =>
      let existingViewState := currentViewState st in
      setViewStates st
        (<[sheet_id sh := spread existingViewState updates]> (viewStates st))
  end.

(** [fitToContainer]: fit the drawing to the stage with 10% padding. *)
Definition fitToContainer (st : State) : State :=
  match currentSheet st with
  | None => st
  | Some sh =>
      match svgImages st !! sheet_id sh with
      | None => st
      | Some _ =>
          if Qeqb (width (stageSize st)) 0 || Qeqb (height (stageSize st)) 0
          then st
          else
            match svgDimensions st !! sheet_id sh with
            | None => st
            | Some svgDim =>
                let scaleX := width (stageSize st) / width svgDim in
                let scaleY := height (stageSize st) / height svgDim in
                let scale := Qmin scaleX scaleY * 0.9 in
                updateViewState st
                  (mkPartial
                     (Some scale)
                     (Some ((width (stageSize st) - width svgDim * scale) / 2))
                     (Some ((height (stageSize st) - height svgDim * scale) / 2)))
            end
      end
  end.

(** [handleZoom(delta, centerX?, centerY?)]: the toolbar buttons call it
    with [delta = 1] (zoom in) and [delta = -1] (zoom out).  Here, as in
    [handleWheel] below, the numbers are read as rationals: the
    definition says which fields are written and from which
    expressions; what the doubles of the source compute is
    [Viewer64.handleZoom] and [Viewer64.handleWheel]. *)
Definition handleZoom (st : State) (delta : Q) (centerX centerY : option Q)
  : State :=
  match currentSheet st with
  | None => st
  | Some _ =>
      let cur := currentViewState st in
      let mouseX := default (width (stageSize st) / 2) centerX in
      let mouseY := default (height (stageSize st) / 2) centerY in
      let scaleFactor := if Qgtb delta 0 then 1.25 else 0.8 in
      let newScale := Qmax 0.05 (Qmin 10 (scale cur * scaleFactor)) in
      let scaleChange := newScale / scale cur in
      let newTranslateX := mouseX - (mouseX - translateX cur) * scaleChange in
      let newTranslateY := mouseY - (mouseY - translateY cur) * scaleChange in
      updateViewState st
        (mkPartial (Some newScale) (Some newTranslateX) (Some newTranslateY))
  end.

(** What [handleWheel] reads from the Konva event: the wheel delta, and
    from the stage its scale, its position and the pointer position
    ([null] when the pointer is not over the stage). *)
Record WheelEvent := mkWheel {
  deltaY : Q;
  stage_scaleX : Q;
  stage_x : Q;
  stage_y : Q;
  pointer : option (Q * Q)
}.

Definition handleWheel (st : State) (e : WheelEvent) : State :=
  let oldScale := stage_scaleX e in
  match pointer e with
  | None => st
  | Some (px, py) =>
      let mousePointTo_x := (px - stage_x e) / oldScale in
      let mousePointTo_y := (py - stage_y e) / oldScale in
      let scaleBy := 1.1 in
      let newScale :=
        if Qgtb (deltaY e) 0 then oldScale / scaleBy else oldScale * scaleBy in
      let clampedScale := Qmax 0.1 (Qmin 5 newScale) in
      let newStagePos_x := px - mousePointTo_x * clampedScale in
      let newStagePos_y := py - mousePointTo_y * clampedScale in
      updateViewState st
        (mkPartial (Some clampedScale) (Some newStagePos_x) (Some newStagePos_y))
  end.

(** A viewer with one loaded sheet of 3024 x 2160 on an 800 x 600 stage,
    and a wheel event over it. *)
Definition sample_sheet : Sheet := mkSheet 7 "A-101" "Level 1 Plan" None.

Definition sample_state : State :=
  mkState [sample_sheet] 0 ∅ {[ 7%Z := () ]} (mkSize 800 600)
          {[ 7%Z := mkSize 3024 2160 ]}.

Definition sample_wheel : WheelEvent :=
  mkWheel (-100) 2 40 (-30) (Some (400, 300)).

(** [resetView] *)
Definition resetView (st : State) : State :=
  updateViewState st (mkPartial (Some 1) (Some 0) (Some 0)).

(** [handleStageDragEnd]: the stage reports its position after a drag. *)
Definition handleStageDragEnd (st : State) (x y : Q) : State :=
  updateViewState st (mkPartial None (Some x) (Some y)).

(** The effect that initialises the view states: every sheet without
    one gets the default. *)
Definition initViewStates (st : State) : State :=
  setViewStates st
    (fold_left
       (fun newStates sheet =>
          match newStates !! sheet_id sheet with
          | Some _ => newStates
          | None => <[sheet_id sheet := defaultViewState]> newStates
          end)
       (sheets st) (viewStates st)).

Definition setActiveTab (st : State) (i : Z) : State :=
  mkState (sheets st) i (viewStates st) (svgImages st) (stageSize st)
          (svgDimensions st).

(** The effect that pulls [activeTab] back when it is out of bounds. *)
Definition clampActiveTab (st : State) : State :=
  let n := Z.of_nat (List.length (sheets st)) in
  if (n <=? activeTab st)%Z && (0 <? n)%Z then setActiveTab st (n - 1)%Z
  else st.

(** The effect that fits a newly shown sheet once: it leaves a view
    state that differs from the default alone. *)
Definition autoFit (st : State) : State :=
  match currentSheet st with
  | None => st
  | Some sh =>
      match svgImages st !! sheet_id sh with
      | None => st
      | Some _ =>
          if Qgtb (width (stageSize st)) 100 && Qgtb (height (stageSize st)) 100
          then
            let hasCustomViewState :=
              match viewStates st !! sheet_id sh with
              | Some v => negb (Qeqb (scale v) 1) ||
                          negb (Qeqb (translateX v) 0) ||
                          negb (Qeqb (translateY v) 0)
              | None => false
              end in
            if hasCustomViewState then st
            else
              match svgDimensions st !! sheet_id sh with
              | None => st
              | Some svgDim =>
                  let scaleX := width (stageSize st) / width svgDim in
                  let scaleY := height (stageSize st) / height svgDim in
                  let scale := Qmin scaleX scaleY * 0.9 in
                  setViewStates st
                    (<[sheet_id sh :=
                         mkViewState scale
                           ((width (stageSize st) - width svgDim * scale) / 2)
                           ((height (stageSize st) - height svgDim * scale) / 2)]>
                       (viewStates st))
              end
          else st
      end
  end.

(** The viewport handlers, and what each one does to the state. *)
Inductive Handler :=
| Wheel (e : WheelEvent)
| Zoom (delta : Q) (centerX centerY : option Q)
| Fit
| Reset
| DragEnd (x y : Q).

Definition run (h : Handler) (st : State) : State :=
  match h with
  | Wheel e => handleWheel st e
  | Zoom delta cx cy => handleZoom st delta cx cy
  | Fit => fitToContainer st
  | Reset => resetView st
  | DragEnd x y => handleStageDragEnd st x y
  end.

(** The update that [fitToContainer] makes once its guards pass. *)
Definition fitUpdate (stage svgDim : Size) : PartialViewState :=
  let scale := Qmin (width stage / width svgDim) (height stage / height svgDim) * 0.9 in
  mkPartial (Some scale)
            (Some ((width stage - width svgDim * scale) / 2))
            (Some ((height stage - height svgDim * scale) / 2)).

Definition sample_state2 : State :=
  mkState [sample_sheet; mkSheet 9 "S-201" "Framing" None] 0
          {[ 7%Z := mkViewState 2 40 (-30); 9%Z := mkViewState 3 5 6 ]}
          {[ 7%Z := () ]} (mkSize 800 600)
          {[ 7%Z := mkSize 3024 2160 ]}.

End Viewer.

(** ** JavaScript numbers as IEEE-754 doubles

    A [number] is a binary64 float, and [+], [-], [*], [/] and the
    comparisons are the IEEE-754 operations, rounding to nearest, ties
    to even: the primitive floats and their operations. *)

Module JSNumber.

(** [Number.isNaN(x)]: NaN is the one value that differs from itself. *)
Definition isNaN (x : float) : bool := negb (x =? x)%float.

Definition isNegZero (x : float) : bool :=
  match classify x with NZero => true | _ => false end.

Definition isPosZero (x : float) : bool :=
  match classify x with PZero => true | _ => false end.

(** [Math.min(a, b)] and [Math.max(a, b)]: NaN when an argument is NaN;
    [-0] counts as smaller than [+0]. *)
Definition Math_min (a b : float) : float :=
  if isNaN a || isNaN b then nan
  else if (a <? b)%float then a
  else if (b <? a)%float then b
  else if isNegZero a then a else b.

Definition Math_max (a b : float) : float :=
  if isNaN a || isNaN b then nan
  else if (b <? a)%float then a
  else if (a <? b)%float then b
  else if isPosZero a then a else b.

(** [Number.isFinite(x)] *)
Definition isFinite (x : float) : bool :=
  match Prim2SF x with
  | S754_zero _ | S754_finite _ _ _ => true
  | _ => false
  end.

(** The rational that a finite double stands for (and 0 for the
    others). *)
Definition value (x : float) : Q :=
  match Prim2SF x with
  | S754_finite s m e =>
      (if s then - inject_Z (Zpos m) else inject_Z (Zpos m)) * Qpower 2 e
  | _ => 0
  end.

End JSNumber.

(** ** The zoom handlers of the viewer, in doubles *)

Module Viewer64.
Import JSNumber.
#[local] Set Warnings "-inexact-float".
Local Open Scope float_scope.

Record ViewState := mkViewState {
  scale : float;
  translateX : float;
  translateY : float
}.

Record Size := mkSize {
  width : float;
  height : float
}.

Record WheelEvent := mkWheel {
  deltaY : float;
  stage_scaleX : float;
  stage_x : float;
  stage_y : float;
  pointer : option (float * float)
}.

(** [handleWheel]: the update it passes to [updateViewState], or
    nothing when the pointer is not over the stage. *)
Definition handleWheel (e : WheelEvent) : option ViewState :=
  let oldScale := stage_scaleX e in
  match pointer e with
  | None => None
  | Some (px, py) =>
      let mousePointTo_x := (px - stage_x e) / oldScale in
      let mousePointTo_y := (py - stage_y e) / oldScale in
      let scaleBy := 1.1 in
      let newScale :=
        if 0 <? deltaY e then oldScale / scaleBy else oldScale * scaleBy in
      let clampedScale := Math_max 0.1 (Math_min 5 newScale) in
      let newStagePos_x := px - mousePointTo_x * clampedScale in
      let newStagePos_y := py - mousePointTo_y * clampedScale in
      Some (mkViewState clampedScale newStagePos_x newStagePos_y)
  end.

(** [handleZoom(delta, centerX?, centerY?)] on a current sheet: the
    update it passes to [updateViewState]. *)
Definition handleZoom (currentViewState : ViewState) (stageSize : Size)
    (delta : float) (centerX centerY : option float) : ViewState :=
  let mouseX := match centerX with Some x => x | None => width stageSize / 2 end in
  let mouseY := match centerY with Some y => y | None => height stageSize / 2 end in
  let scaleFactor := if 0 <? delta then 1.25 else 0.8 in
  let newScale :=
    Math_max 0.05 (Math_min 10 (scale currentViewState * scaleFactor)) in
  let scaleChange := newScale / scale currentViewState in
  let newTranslateX :=
    mouseX - (mouseX - translateX currentViewState) * scaleChange in
  let newTranslateY :=
    mouseY - (mouseY - translateY currentViewState) * scaleChange in
  mkViewState newScale newTranslateX newTranslateY.

Local Close Scope float_scope.

(** The unit roundoff of binary64. *)
Definition u : Q := 1 # 9007199254740992.

(** [r] is a number within the relative error [u] of the exact result
    [x]: what IEEE-754 rounding to nearest gives for an operation whose
    exact result [x] is in the normal range. *)
Definition rounds (r : float) (x : Q) : Prop :=
  isFinite r = true /\ Qabs (value r - x) <= u * Qabs x.

(** The four operations by which [handleWheel] computes the new stage
    position on one axis from the pointer position [p], the stage
    position [t], the old scale [s] and the clamped scale [s'], each
    taken to be correctly rounded. *)
Definition roundedAxis (p t s s' : float) : Prop :=
  rounds (p - t)%float (value p - value t) /\
  rounds ((p - t) / s)%float (value (p - t)%float / value s) /\
  rounds ((p - t) / s * s')%float (value ((p - t) / s)%float * value s') /\
  rounds (p - (p - t) / s * s')%float
         (value p - value ((p - t) / s * s')%float).

(** The drawing coordinate under the stage coordinate [p], for a stage
    at [t] with scale [s]. *)
Definition under (p t s : float) : Q := (value p - value t) / value s.

Definition sample_wheel : WheelEvent :=
  mkWheel (-100)%float 0.5%float (-30)%float 12%float (Some (0.1%float, 300%float)).

End Viewer64.


Local Close Scope Q_scope.
Local Open Scope string_scope.

(** ** The projects dashboard and its upload dialog *)

Module ProjectsDashboard.

(** The fields of a DOM [File] that the dialog reads. *)
Record File := mkFile {
  file_name : string;
  file_type : string;
  file_size : N
}.

Record Project := mkProject {
  project_id : Z;
  project_name : string;
  project_date : string;
  project_documents : Z
}.

(** The upload-dialog part of the component state. *)
Record State := mkState {
  uploadDialogOpen : bool;
  projectToUpload : option Project;
  selectedFile : option File;
  uploading : bool;
  uploadSuccess : bool;
  uploadError : option string
}.

Definition setSelectedFile (f : option File) (st : State) : State :=
  mkState (uploadDialogOpen st) (projectToUpload st) f (uploading st)
          (uploadSuccess st) (uploadError st).

Definition setUploadSuccess (b : bool) (st : State) : State :=
  mkState (uploadDialogOpen st) (projectToUpload st) (selectedFile st)
          (uploading st) b (uploadError st).

Definition setUploadError (e : option string) (st : State) : State :=
  mkState (uploadDialogOpen st) (projectToUpload st) (selectedFile st)
          (uploading st) (uploadSuccess st) e.

(** The message shown for a file that is refused. *)
Definition rejection : string := "Please select a PDF file only".

(** The body shared, word for word, by [handleFileSelect] and
    [handleDrop] once the first file of the event is at hand. *)
Definition acceptFile (file : option File) (st : State) : State :=
  match file with
  | None => st
  | Some f =>
      if String.eqb (file_type f) "application/pdf" then
        setUploadError None (setUploadSuccess false (setSelectedFile (Some f) st))
      else
        setSelectedFile None
          (setUploadError (Some rejection) st)
  end.

(** [event.target.files?.[0]]: the input's file list may be [null]. *)
Definition handleFileSelect (files : option (list File)) (st : State) : State :=
  acceptFile (match files with Some l => head l | None => None end) st.

(** [event.dataTransfer.files[0]] *)
Definition handleDrop (files : list File) (st : State) : State :=
  acceptFile (head files) st.

Definition sample_state : State := mkState true None None false false None.
Definition sample_pdf : File := mkFile "set.pdf" "application/pdf" 1024.
Definition sample_svg : File := mkFile "sheet.svg" "image/svg+xml" 2048.

(** *** The whole dashboard *)

(** The component state but for [newProjectName] and [dialogOpen], which
    only [createNewProject] and the new-project dialog read and write;
    the six fields of the upload dialog are the [State] above.  A
    handler runs to its end before the next one starts: what happens
    when another handler runs while one awaits its response is outside
    the model. *)
Record Dashboard := mkDashboard {
  projects : list Project;
  deleteDialogOpen : bool;
  projectToDelete : option Project;
  upload : State;
  isLoading : bool;
  error : option string
}.


Definition setUpload (u : State) (d : Dashboard) : Dashboard :=
  mkDashboard (projects d) (deleteDialogOpen d) (projectToDelete d) u
              (isLoading d) (error d).

Definition setProjects (ps : list Project) (d : Dashboard) : Dashboard :=
  mkDashboard ps (deleteDialogOpen d) (projectToDelete d) (upload d)
              (isLoading d) (error d).

(** A project as the API lists it: [documents] may be missing. *)
Record RawProject := mkRawProject {
  raw_id : Z;
  raw_name : string;
  raw_date : string;
  raw_documents : option Z
}.

(** The outcome of the GET: [fetch] throws, the response is not ok, the
    body is not an array of objects, or it is the array given. *)
Inductive FetchOutcome :=
| FetchThrows
| FetchNotOk
| FetchBodyFails
| FetchData (data : list RawProject).

(** [fetchProjects] *)
Definition fetchProjects (outcome : FetchOutcome) (d : Dashboard) : Dashboard :=
  match outcome with
  | FetchData data =>
      let transformedData :=
        map (fun project =>
               mkProject (raw_id project) (raw_name project) (raw_date project)
                         (match raw_documents project with
                          | Some n => n
                          | None => 0%Z
                          end))
            data in
      mkDashboard transformedData (deleteDialogOpen d) (projectToDelete d)
                  (upload d) false None
  | _ =>
      mkDashboard (projects d) (deleteDialogOpen d) (projectToDelete d)
                  (upload d) false
                  (Some "Failed to load projects. Please try again later.")
  end.

(** [handleDeleteProject] *)
Definition handleDeleteProject (project : Project) (d : Dashboard) : Dashboard :=
  mkDashboard (projects d) true (Some project) (upload d) (isLoading d)
              (error d).

Definition setDeleteDialogOpen (b : bool) (d : Dashboard) : Dashboard :=
  mkDashboard (projects d) b (projectToDelete d) (upload d) (isLoading d)
              (error d).

(** The outcome of a request of which only [response.ok] is read. *)
Inductive OkOutcome := Throws (message : option string) | NotOk | Ok.

(** [confirmDeleteProject]: the state after it, and the id in the URL of
    the DELETE request, if one is sent. *)
Definition confirmDeleteProject (outcome : OkOutcome) (d : Dashboard)
  : Dashboard * option Z :=
  match projectToDelete d with
  | None => (d, None)
  | Some target =>
      match outcome with
      | Ok =>
          (mkDashboard
             (List.filter (fun p => negb (project_id p =? project_id target)%Z)
                          (projects d))
             false None (upload d) (isLoading d) (error d),
           Some (project_id target))
      | _ => (d, Some (project_id target))
      end
  end.

(** [handleUploadDocument] *)
Definition handleUploadDocument (project : Project) (d : Dashboard) : Dashboard :=
  setUpload (mkState true (Some project) None (uploading (upload d)) false None)
            d.

Definition setUploadDialogOpen (b : bool) (d : Dashboard) : Dashboard :=
  setUpload (mkState b (projectToUpload (upload d)) (selectedFile (upload d))
                     (uploading (upload d)) (uploadSuccess (upload d))
                     (uploadError (upload d)))
            d.

(** The form posted to [/api/documents]; the project id goes as its
    decimal numeral. *)
Record UploadRequest := mkUploadRequest {
  form_file : File;
  form_projectId : Z;
  form_type : string
}.

(** [uploadFile]: the state after it, and the form posted, if any.  A
    thrown value that is an [Error] carries its message. *)
Definition uploadFile (outcome : OkOutcome) (d : Dashboard)
  : Dashboard * option UploadRequest :=
  match selectedFile (upload d), projectToUpload (upload d) with
  | Some file, Some target =>
      let request := mkUploadRequest file (project_id target) "document" in
      let failed (message : string) :=
        setUpload (mkState (uploadDialogOpen (upload d)) (Some target)
                           (Some file) false (uploadSuccess (upload d))
                           (Some message))
                  d in
      match outcome with
      | Ok =>
          (mkDashboard
             (map (fun p =>
                     if (project_id p =? project_id target)%Z
                     then mkProject (project_id p) (project_name p)
                                    (project_date p) (project_documents p + 1)
                     else p)
                  (projects d))
             (deleteDialogOpen d) (projectToDelete d)
             (mkState (uploadDialogOpen (upload d)) (Some target) None false
                      true None)
             (isLoading d) (error d),
           Some request)
      | NotOk => (failed "Failed to upload file", Some request)
      | Throws (Some message) => (failed message, Some request)
      | Throws None => (failed "Upload failed", Some request)
      end
  | _, _ => (d, None)
  end.

(** The callback of the timer that a successful upload starts. *)
Definition closeAfterDelay (d : Dashboard) : Dashboard :=
  setUpload (mkState false (projectToUpload (upload d))
                     (selectedFile (upload d)) (uploading (upload d)) false
                     (uploadError (upload d)))
            d.

(** What can happen to the dashboard.  The timer callback is allowed at
    any time, not only two seconds after a successful upload. *)
Inductive Event :=
| Loaded (outcome : FetchOutcome)
| DeleteClicked (project : Project)
| DeleteConfirmed (outcome : OkOutcome)
| DeleteDialogChanged (open : bool)
| UploadClicked (project : Project)
| UploadDialogChanged (open : bool)
| FileSelected (files : option (list File))
| FileDropped (files : list File)
| UploadConfirmed (outcome : OkOutcome)
| DelayElapsed.

(** One event: the next state and the form posted by it, if any. *)
Definition step (e : Event) (d : Dashboard) : Dashboard * option UploadRequest :=
  match e with
  | Loaded outcome => (fetchProjects outcome d, None)
  | DeleteClicked project => (handleDeleteProject project d, None)
  | DeleteConfirmed outcome => (fst (confirmDeleteProject outcome d), None)
  | DeleteDialogChanged b => (setDeleteDialogOpen b d, None)
  | UploadClicked project => (handleUploadDocument project d, None)
  | UploadDialogChanged b => (setUploadDialogOpen b d, None)
  | FileSelected files => (setUpload (handleFileSelect files (upload d)) d, None)
  | FileDropped files => (setUpload (handleDrop files (upload d)) d, None)
  | UploadConfirmed outcome => uploadFile outcome d
  | DelayElapsed => (closeAfterDelay d, None)
  end.

(** A sequence of events: the final state and the forms posted, in
    order. *)
Fixpoint steps (es : list Event) (d : Dashboard)
  : Dashboard * list UploadRequest :=
  match es with
  | [] => (d, [])
  | e :: es' =>
      let '(d1, r) := step e d in
      let '(d2, rs) := steps es' d1 in
      (d2, match r with Some x => x :: rs | None => rs end)
  end.

Definition isPdf (f : File) : bool := String.eqb (file_type f) "application/pdf".

Definition pdfOrNone (f : option File) : bool :=
  match f with Some x => isPdf x | None => true end.

(** The documents counted over all projects. *)
Definition totalDocuments (ps : list Project) : Z :=
  fold_right (fun p acc => (project_documents p + acc)%Z) 0%Z ps.

Definition documentsOf (id : Z) (ps : list Project) : list Z :=
  map project_documents
      (List.filter (fun p => (project_id p =? id)%Z) ps).

Definition sample_projects : list Project :=
  [mkProject 1 "Tower" "May 1, 2025" 2; mkProject 2 "Bridge" "June 9, 2025" 0].

Definition sample_dashboard : Dashboard :=
  mkDashboard sample_projects false None
              (mkState false None None false false None) false None.

Definition sample_tower : Project := mkProject 1 "Tower" "May 1, 2025" 2.

(** The dashboard once the upload dialog is open on the first project
    with a PDF dropped in it, and the delete dialog open on the same
    project. *)
Definition sample_ready : Dashboard :=
  fst (steps [UploadClicked sample_tower; FileDropped [sample_pdf];
              DeleteClicked sample_tower]
             sample_dashboard).

Definition sample_session : list Event :=
  [UploadClicked sample_tower; FileSelected (Some [sample_svg]);
   UploadConfirmed Ok; FileDropped [sample_pdf; sample_svg];
   UploadConfirmed NotOk; UploadConfirmed Ok; DelayElapsed;
   UploadConfirmed Ok].

End ProjectsDashboard.

(** ** The Procore OAuth callback page *)

Module ProcoreCallback.

Inductive Status := loading | success | error.

Record State := mkState {
  status : Status;
  message : string
}.

(** [URLSearchParams]: the pairs of the query in order; [get] reads the
    first value of a name, [null] when the name is absent. *)
Definition SearchParams := list (string * string).

Fixpoint get (name : string) (ps : SearchParams) : option string :=
  match ps with
  | [] => None
  | (k, v) :: ps' => if String.eqb k name then Some v else get name ps'
  end.

(** Truthiness of a [string | null]: [null] and [''] are falsy. *)
Definition truthy (v : option string) : bool :=
  match v with
  | Some s => negb (String.eqb s "")
  | None => false
  end.

(** A thrown value: an [Error] with its message, or anything else. *)
Inductive Thrown :=
| ThrownError (msg : string)
| ThrownOther.

(** The outcome of [response.json()]: it rejects, or resolves to [null],
    or to a value whose [detail] property (rendered as a string) may be
    missing.  Reading [.detail] of [null] throws a [TypeError], whose
    message the engine chooses. *)
Inductive Body :=
| BodyThrows (e : Thrown)
| BodyNull (typeErrorMessage : string)
| BodyValue (detail : option string).

Record Response := mkResponse {
  ok : bool;
  json : Body
}.

Inductive FetchResult :=
| FetchThrows (e : Thrown)
| FetchResolves (r : Response).

Definition throws (f : FetchResult) : bool :=
  match f with FetchThrows _ => true | FetchResolves _ => false end.

Definition body_throws (b : Body) : bool :=
  match b with BodyThrows _ => true | _ => false end.

(** The [catch] block of [handleCallback]. *)
Definition onCatch (e : Thrown) : State :=
  mkState error
    ("Error: " ++ match e with
                  | ThrownError msg => msg
                  | ThrownOther => "Unknown error"
                  end).

(** [handleCallback], started on the initial state
    [status = 'loading'].  [first] is the outcome of the request without
    query parameters, whose response the handler never reads; [second]
    is the outcome of the request that carries [code] and [state]. *)
Definition handleCallback (searchParams : SearchParams)
    (first second : FetchResult) : State :=
  let code := get "code" searchParams in
  let error_param := get "error" searchParams in
  if truthy error_param then
    mkState error ("OAuth error: " ++ default "" error_param)
  else if negb (truthy code) then
    mkState error "No authorization code received"
  else
    match first with
    | FetchThrows e => onCatch e
    | FetchResolves _ =>
        match second with
        | FetchThrows e => onCatch e
        | FetchResolves callbackResponse =>
            if ok callbackResponse then
              match json callbackResponse with
              | BodyThrows e => onCatch e
              | BodyNull _ | BodyValue _ =>
                  mkState success
                    "Successfully authenticated with Procore! You can now export RFIs."
              end
            else
              match json callbackResponse with
              | BodyThrows e => onCatch e
              | BodyNull m => onCatch (ThrownError m)
              | BodyValue detail =>
                  mkState error
                    ("Authentication failed: " ++
                     (if truthy detail then default "" detail
                      else "Unknown error"))
              end
        end
    end.

End ProcoreCallback.

(** ** The RFI modal (components/RFIModal.tsx) *)

Module RFIModal.

Record Check := mkCheck {
  check_id : Z;
  check_page : Z;
  boundingBox : string;
  check_description : option string
}.

Record RFI := mkRFI {
  rfi_id : Z;
  rfi_title : string;
  rfi_description : string;
  rfi_type : option string;
  imagePath : string;
  createdAt : string;
  checks : list Check
}.

Record Props := mkProps {
  isOpen : bool;
  projectId : string
}.

Record State := mkState {
  rfis : list RFI;
  loading : bool;
  error : option string;
  isOverlayMode : bool;
  activeTab : string
}.

Definition setRfis (v : list RFI) (st : State) : State :=
  mkState v (loading st) (error st) (isOverlayMode st) (activeTab st).
Definition setLoading (v : bool) (st : State) : State :=
  mkState (rfis st) v (error st) (isOverlayMode st) (activeTab st).
Definition setError (v : option string) (st : State) : State :=
  mkState (rfis st) (loading st) v (isOverlayMode st) (activeTab st).
Definition setIsOverlayMode (v : bool) (st : State) : State :=
  mkState (rfis st) (loading st) (error st) v (activeTab st).
Definition setActiveTab (v : string) (st : State) : State :=
  mkState (rfis st) (loading st) (error st) (isOverlayMode st) v.

Definition initialState : State := mkState [] false None false "all".

(** Hardcoded IDs to be removed in overlay mode. *)
Definition hiddenRfiIds : list Z :=
  [1140; 1141; 1143; 1144; 1124; 1125; 1122; 1123; 1120; 1119; 1121; 1100;
   1059; 1014; 1015]%Z.

(** The outcome of [response.json()]: it rejects, or resolves to [null]
    (on which [data.rfis] throws), or to a value whose [rfis] property
    may be missing. *)
Inductive Body :=
| BodyThrows
| BodyNull
| BodyValue (data_rfis : option (list RFI)).

Record Response := mkResponse {
  ok : bool;
  json : Body
}.

Inductive FetchResult :=
| FetchThrows
| FetchResolves (r : Response).

(** A request, by its URL. *)
Definition Request := string.

Definition rfisUrl (p : Props) : Request := "/api/rfis?projectId=" ++ projectId p.

(** [fetchRFIs]: the next state and the requests issued, given the
    outcome of the one [fetch] it awaits. *)
Definition fetchRFIs (p : Props) (res : FetchResult) (st : State)
  : State * list Request :=
  let st1 := setError None (setLoading true st) in
  let onCatch := setError (Some "Failed to load RFIs") st1 in
  let st2 :=
    match res with
    | FetchThrows => onCatch
    | FetchResolves response =>
        if negb (ok response) then onCatch
        else match json response with
             | BodyThrows | BodyNull => onCatch
             | BodyValue data_rfis => setRfis (default [] data_rfis) st1
             end
    end in
  (setLoading false st2, [rfisUrl p]).

(** The fetch failed: a non-ok response or a thrown exception. *)
Definition failed (res : FetchResult) : bool :=
  match res with
  | FetchThrows => true
  | FetchResolves response =>
      negb (ok response) ||
      match json response with
      | BodyThrows | BodyNull => true
      | BodyValue _ => false
      end
  end.

Definition inb (x : Z) (l : list Z) : bool := existsb (Z.eqb x) l.

(** [getFilteredRfis] *)
Definition getFilteredRfis (st : State) : list RFI :=
  let filtered :=
    if isOverlayMode st
    then List.filter (fun rfi => negb (inb (rfi_id rfi) hiddenRfiIds)) (rfis st)
    else rfis st in
  if negb (String.eqb (activeTab st) "all")
  then List.filter
         (fun rfi => match rfi_type rfi with
                     | Some t => String.eqb t (activeTab st)
                     | None => false
                     end) filtered
  else filtered.

(** The events the component reacts to: the clicks on its buttons and
    tab triggers, and a render with new props, after which the effect on
    [[isOpen, projectId]] runs when one of the two changed. *)
Inductive Event :=
| ClickTryAgain
| ClickOverlay
| ClickClose
| SelectTab (value : string)
| NewProps (p : Props).

(** A component instance: the props of the last render and the state. *)
Record Instance := mkInstance {
  props : Props;
  state : State
}.

Definition props_eqb (p q : Props) : bool :=
  Bool.eqb (isOpen p) (isOpen q) && String.eqb (projectId p) (projectId q).

(** One event, with the outcome of the fetch it may start. *)
Definition step (ev : Event) (res : FetchResult) (c : Instance)
  : Instance * list Request :=
  match ev with
  | ClickTryAgain =>
      let '(st, reqs) := fetchRFIs (props c) res (state c) in
      (mkInstance (props c) st, reqs)
  | ClickOverlay =>
      (mkInstance (props c)
         (setIsOverlayMode (negb (isOverlayMode (state c))) (state c)), [])
  | ClickClose => (c, [])
  | SelectTab v => (mkInstance (props c) (setActiveTab v (state c)), [])
  | NewProps p =>
      if props_eqb p (props c) then (mkInstance p (state c), [])
      else if isOpen p && negb (String.eqb (projectId p) "") then
        let '(st, reqs) := fetchRFIs p res (state c) in
        (mkInstance p st, reqs)
      else (mkInstance p (state c), [])
  end.


(** The content area of the modal, as far as its branches and buttons
    go: the spinner, the error block with its one button, or the tabs
    over [getFilteredRfis]. *)
Inductive Content :=
| Spinner
| ErrorBlock (msg : string) (buttons : list (string * Event))
| TabsView (shown : list RFI).

Definition content (st : State) : Content :=
  if loading st then Spinner
  else match error st with
       | Some msg => ErrorBlock msg [("Try Again", ClickTryAgain)]
       | None => TabsView (getFilteredRfis st)
       end.

Definition sample_rfi : RFI :=
  mkRFI 1140 "Column" "Column C4 is misaligned" (Some "unmatched_column")
        "rfi/1140.png" "2025-06-15T10:30:00Z" [].

Definition sample_instance : Instance :=
  mkInstance (mkProps true "12")
             (mkState [sample_rfi] false None false "all").


(** A session of the modal after its first render: the events with the
    outcome that the fetch of each would have, the instance at the end
    and the outcomes of the requests that were sent. *)
Fixpoint run (es : list (Event * FetchResult)) (c : Instance)
  : Instance * list FetchResult :=
  match es with
  | [] => (c, [])
  | (ev, res) :: es' =>
      let '(c1, reqs) := step ev res c in
      let '(c2, rs) := run es' c1 in
      (c2, match reqs with [] => rs | _ => res :: rs end)
  end.

(** The RFIs that a response carries to [setRfis]. *)
Definition carried (res : FetchResult) : list RFI :=
  match res with
  | FetchThrows => []
  | FetchResolves response =>
      if ok response then
        match json response with
        | BodyValue (Some l) => l
        | _ => []
        end
      else []
  end.

End RFIModal.

(** ** Bounding boxes of checks (components/CheckDisplay.tsx) *)

Module CheckDisplay.

(** A JSON value, as [JSON.parse] returns it. *)
#[warnings="-register-all"]
Inductive JSON :=
| JNull
| JBool (b : bool)
| JNumber (q : Q)
| JString (s : string)
| JArray (items : list JSON)
| JObject (members : list (string * JSON)).

(** [JSON.parse] is the engine's: it returns a value or throws a
    [SyntaxError], given here by its message. *)
Definition Parser := string -> JSON + string.

(** What a call does: it returns a value or it throws. *)
Inductive Completion (A : Type) :=
| Return (a : A)
| Throw (msg : string).
Arguments Return {A} a.
Arguments Throw {A} msg.

Definition defaultBox : JSON :=
  JObject [("x", JNumber 0); ("y", JNumber 0);
           ("width", JNumber 100); ("height", JNumber 100)].

(** [parseBoundingBox]: the [catch] block logs and returns the default
    box. *)
Definition parseBoundingBox (JSON_parse : Parser) (bbox : string)
  : Completion JSON :=
  match JSON_parse bbox with
  | inl v => Return v
  | inr _ => Return defaultBox
  end.

End CheckDisplay.

(** ** JavaScript strings, as sequences of UTF-16 code units *)

Module JSString.
Local Open Scope list_scope.

Definition jsstring := list N.

(** A literal of ASCII characters. *)
Definition lit (s : string) : jsstring :=
  map N_of_ascii (list_ascii_of_string s).

Definition LF : N := 10%N.

(** [s.startsWith(p)] *)
Fixpoint startsWith (p s : jsstring) : bool :=
  match p, s with
  | [], _ => true
  | _ :: _, [] => false
  | a :: p', b :: s' => N.eqb a b && startsWith p' s'
  end.

(** [s.includes(p)] *)
Fixpoint includes (p s : jsstring) : bool :=
  startsWith p s ||
  match s with
  | [] => false
  | _ :: s' => includes p s'
  end.

(** The leftmost occurrence of [sep] in [s]: what precedes it and what
    follows it. *)
Fixpoint breakAt (sep s : jsstring) : option (jsstring * jsstring) :=
  if startsWith sep s then Some ([], skipn (List.length sep) s)
  else match s with
       | [] => None
       | c :: s' =>
           match breakAt sep s' with
           | Some (u, v) => Some (c :: u, v)
           | None => None
           end
       end.

Lemma breakAt_shorter c0 sep' s u v :
  breakAt (c0 :: sep') s = Some (u, v) -> (List.length v < List.length s)%nat.
Proof.
  revert u v. induction s as [| c s IH]; intros u v; simpl.
  - discriminate.
  - destruct (N.eqb c0 c && startsWith sep' s)%bool.
    + intros [= <- <-]. rewrite length_skipn. lia.
    + destruct (breakAt (c0 :: sep') s) as [[u' v'] |] eqn:E; [| discriminate].
      intros [= <- <-]. specialize (IH _ _ eq_refl). lia.
Qed.

Definition inspect {A} (a : A) : {b : A | a = b} := exist _ a eq_refl.

(** [s.split(sep)] for a non-empty separator [c0 :: sep']: cut at the
    leftmost occurrence and go on after it. *)
Equations? split_nonempty (c0 : N) (sep' : jsstring) (s : jsstring)
  : list jsstring by wf (List.length s) lt :=
  split_nonempty c0 sep' s with inspect (breakAt (c0 :: sep') s) := {
    | exist _ None _ => [s];
    | exist _ (Some (u, v)) E => u :: split_nonempty c0 sep' v }.
Proof. eapply breakAt_shorter; exact E. Qed.

(** [s.split(sep)]; the empty separator splits between code units. *)
Definition split (sep s : jsstring) : list jsstring :=
  match sep with
  | [] => map (fun c => [c]) s
  | c0 :: sep' => split_nonempty c0 sep' s
  end.

(** [parts.join(sep)] *)
Fixpoint join (sep : jsstring) (parts : list jsstring) : jsstring :=
  match parts with
  | [] => []
  | [x] => x
  | x :: rest => x ++ sep ++ join sep rest
  end.

(** White space and line terminators of ECMAScript, which [trim]
    strips: TAB, LF, VT, FF, CR, SP, NBSP, U+1680, U+2000 to U+200A,
    U+2028, U+2029, U+202F, U+205F, U+3000 and U+FEFF. *)
Definition isWhiteSpace (c : N) : bool :=
  ((9 <=? c) && (c <=? 13) || (c =? 32) || (c =? 160) || (c =? 5760) ||
   (8192 <=? c) && (c <=? 8202) || (c =? 8232) || (c =? 8233) ||
   (c =? 8239) || (c =? 8287) || (c =? 12288) || (c =? 65279))%N.

Fixpoint trimStart (s : jsstring) : jsstring :=
  match s with
  | [] => []
  | c :: s' => if isWhiteSpace c then trimStart s' else s
  end.

Definition trimEnd (s : jsstring) : jsstring := rev (trimStart (rev s)).

(** [s.trim()] *)
Definition trim (s : jsstring) : jsstring := trimEnd (trimStart s).

End JSString.

(** ** The RFI page (projects/[id]/rfis/page.tsx) *)

Module RFIPage.
Import JSString.
Local Open Scope list_scope.

Record Check := mkCheck {
  check_id : Z;
  check_page : Z;
  boundingBox : string;
  check_description : option string;
  check_rfiId : Z
}.

Record RFI := mkRFI {
  rfi_id : Z;
  description : jsstring;
  rfi_type : option string;
  imagePath : string;
  createdAt : string;
  checks : list Check
}.

Record OriginalImage := mkOriginalImage {
  image_id : Z;
  version : string;
  versionCode : string;
  image_imagePath : string;
  image_description : string;
  image_createdAt : string
}.

Inductive ClashStatus := Active | Resolved | UnderReview.
Inductive Priority := High | Medium | Low.
Inductive ClashType := Dimensional | Structural | MEP | Architectural | Other.

Record VersionClash := mkVersionClash {
  clash_id : Z;
  sheetCode : string;
  clash_title : string;
  clash_description : string;
  overlayImagePath : string;
  originalImages : list OriginalImage;
  clash_createdAt : string;
  clash_status : ClashStatus;
  priority : Priority;
  affectedVersions : list string;
  clashType : ClashType
}.


(** The state of the page that the handlers below read or write. *)
Record State := mkState {
  rfis : list RFI;
  loading : bool;
  error : option string;
  activeTab : string;
  editingRfiId : option Z;
  editedRfiDescription : jsstring;
  isSavingRfi : bool
}.

Definition setRfis (v : list RFI) (st : State) : State :=
  mkState v (loading st) (error st) (activeTab st) (editingRfiId st)
          (editedRfiDescription st) (isSavingRfi st).
Definition setEditingRfiId (v : option Z) (st : State) : State :=
  mkState (rfis st) (loading st) (error st) (activeTab st) v
          (editedRfiDescription st) (isSavingRfi st).
Definition setEditedRfiDescription (v : jsstring) (st : State) : State :=
  mkState (rfis st) (loading st) (error st) (activeTab st) (editingRfiId st)
          v (isSavingRfi st).
Definition setIsSavingRfi (v : bool) (st : State) : State :=
  mkState (rfis st) (loading st) (error st) (activeTab st) (editingRfiId st)
          (editedRfiDescription st) v.

Definition initialState : State := mkState [] true None "all" None [] false.

(** ['\n\n'] and ['\n'] *)
Definition blankLine : jsstring := [LF; LF].
Definition newline : jsstring := [LF].

(** [cleanRfiDescription]: the description without its title prefix. *)
Definition cleanRfiDescription (description : jsstring) : jsstring :=
  match description with
  | [] => []
  | _ =>
      let parts := split blankLine description in
      if (1 <? List.length parts)%nat then
        trim (join blankLine (tl parts))
      else
        let lines := split newline description in
        if (1 <? List.length lines)%nat then
          let firstLine := trim (hd [] lines) in
          if includes (lit "Page") firstLine || includes (lit "#") firstLine ||
             includes (lit "Level") firstLine || includes (lit " - ") firstLine
          then trim (join newline (tl lines))
          else trim description
        else trim description
  end.

(** [handleEditRfiDescription] *)
Definition handleEditRfiDescription (rfi : RFI) (st : State) : State :=
  setEditedRfiDescription (cleanRfiDescription (description rfi))
    (setEditingRfiId (Some (rfi_id rfi)) st).

(** [rfis.find(rfi => rfi.id === rfiId)] *)
Definition findRfi (rfiId : Z) (l : list RFI) : option RFI :=
  List.find (fun rfi => Z.eqb (rfi_id rfi) rfiId) l.

Definition withDescription (d : jsstring) (rfi : RFI) : RFI :=
  mkRFI (rfi_id rfi) d (rfi_type rfi) (imagePath rfi) (createdAt rfi)
        (checks rfi).

(** [originalRfi.description.split('\n\n')[0]] *)
Definition titlePart (description : jsstring) : jsstring :=
  hd [] (split blankLine description).

(** What the save handler does besides setting state. *)
Inductive Effect :=
| Patch (rfiId : Z) (body_description : jsstring)
| Alert (text : string).

Inductive FetchResult :=
| FetchThrows
| FetchResolves (ok : bool).

(** [handleSaveRfiDescription(rfiId)], given the outcome of its PATCH
    request. *)
Definition handleSaveRfiDescription (rfiId : Z) (res : FetchResult)
    (st : State) : State * list Effect :=
  if isSavingRfi st then (st, [])
  else
    let st1 := setIsSavingRfi true st in
    match findRfi rfiId (rfis st1) with
    | None => (setIsSavingRfi false st1, [])
    | Some originalRfi =>
        let titlePart := titlePart (description originalRfi) in
        let fullDescription :=
          titlePart ++ blankLine ++ editedRfiDescription st1 in
        match res with
        | FetchThrows =>
            (setIsSavingRfi false st1,
             [Patch rfiId fullDescription;
              Alert "Error updating RFI description. Please try again."])
        | FetchResolves true =>
            let st2 :=
              setRfis
                (map (fun rfi => if Z.eqb (rfi_id rfi) rfiId
                                 then withDescription fullDescription rfi
                                 else rfi) (rfis st1)) st1 in
            (setIsSavingRfi false (setEditingRfiId None st2),
             [Patch rfiId fullDescription])
        | FetchResolves false =>
            (setIsSavingRfi false st1,
             [Patch rfiId fullDescription;
              Alert "Failed to update RFI description. Please try again."])
        end
    end.

(** [list.sort((a, b) => a.id - b.id)]: a stable sort by id. *)
Fixpoint insertById (x : RFI) (l : list RFI) : list RFI :=
  match l with
  | [] => [x]
  | y :: l' =>
      if (rfi_id x <=? rfi_id y)%Z then x :: l else y :: insertById x l'
  end.

Definition sortById (l : list RFI) : list RFI := fold_right insertById [] l.

Definition hasType (t : string) (rfi : RFI) : bool :=
  match rfi_type rfi with
  | Some t' => String.eqb t' t
  | None => false
  end.

(** [getFilteredRfis]: the RFIs of the active tab, sorted by id. *)
Definition getFilteredRfis (st : State) : list RFI :=
  let filtered :=
    if String.eqb (activeTab st) "all" then rfis st
    else if String.eqb (activeTab st) "columns" then
      List.filter (fun rfi => hasType "unmatched_column" rfi ||
                              hasType "unmatched_overlay_column_architectural" rfi ||
                              hasType "unmatched_overlay_column_structural" rfi)
                  (rfis st)
    else List.filter (hasType (activeTab st)) (rfis st) in
  sortById filtered.

Definition sample_rfi : RFI :=
  mkRFI 42 (lit "RFI #42 - Level 2" ++ blankLine ++ lit "Column C4 is offset.")
        (Some "unmatched_column") "/rfi/42.png" "2025-06-15T10:30:00Z" [].

Definition sample_state : State :=
  mkState [sample_rfi] false None "all" (Some 42%Z)
          (lit "  Column C4 is offset by 2 in. ") false.

Definition setActiveTab (v : string) (st : State) : State :=
  mkState (rfis st) (loading st) (error st) v (editingRfiId st)
          (editedRfiDescription st) (isSavingRfi st).

Definition isColumnType (rfi : RFI) : bool :=
  hasType "unmatched_column" rfi ||
  hasType "unmatched_overlay_column_architectural" rfi ||
  hasType "unmatched_overlay_column_structural" rfi.

(** [getRfiCount(type)]: the number shown on a tab trigger. *)
Definition getRfiCount (type : string) (st : State) : nat :=
  if String.eqb type "all" then List.length (rfis st)
  else if String.eqb type "columns" then
    List.length (List.filter isColumnType (rfis st))
  else List.length (List.filter (hasType type) (rfis st)).

(** [handleCancelRfiEdit] *)
Definition handleCancelRfiEdit (st : State) : State :=
  setEditedRfiDescription [] (setEditingRfiId None st).

(** The RFIs with a given id, in list order. *)
Definition withId (k : Z) (l : list RFI) : list RFI :=
  List.filter (fun rfi => Z.eqb (rfi_id rfi) k) l.

(** The order of the list of a tab. *)
Definition byId (a b : RFI) : Prop := (rfi_id a <= rfi_id b)%Z.

Definition sample_state3 : State :=
  mkState [mkRFI 7 (lit "Page 3" ++ [LF] ++ lit "Wall moved") None "" "" [];
           sample_rfi]
          false None "all" (Some 7%Z) (lit "Wall moved 2 in") false.

(** *** Loading the RFIs and choosing a tab *)

Definition setLoading (v : bool) (st : State) : State :=
  mkState (rfis st) v (error st) (activeTab st) (editingRfiId st)
          (editedRfiDescription st) (isSavingRfi st).
Definition setError (v : option string) (st : State) : State :=
  mkState (rfis st) (loading st) v (activeTab st) (editingRfiId st)
          (editedRfiDescription st) (isSavingRfi st).

(** The outcome of the GET of the RFIs: [fetch] throws, the response is
    not ok, the body cannot be read (or is [null]), or the body is read
    and its [rfis] property is the list given ([None] when missing). *)
Inductive RfisOutcome :=
| RfisThrows
| RfisNotOk
| RfisBodyFails
| RfisData (data_rfis : option (list RFI)).

(** The outcome of the GET of the sheet of a page; [code] is
    [sheetData.sheet?.code]. *)
Inductive SheetOutcome :=
| SheetThrows
| SheetNotOk
| SheetBodyFails
| SheetData (code : option string).

(** The page: the state above and the map [sheetCodes], of which only
    [get] is used. *)
Record Page := mkPage {
  state : State;
  sheetCodes : list (Z * string)
}.


(** The [Set] of the pages of all checks, in insertion order. *)
Definition pageNumbers (fetchedRfis : list RFI) : list Z :=
  fold_left (fun seen page =>
               if existsb (Z.eqb page) seen then seen else seen ++ [page])
            (flat_map (fun rfi => map check_page (checks rfi)) fetchedRfis)
            [].

(** [fetchRFIs], given the outcome of its request and of the request
    sent for each page. *)
Definition fetchRFIs (outcome : RfisOutcome) (sheetOf : Z -> SheetOutcome)
    (pg : Page) : Page :=
  let st1 := setError None (setLoading true (state pg)) in
  match outcome with
  | RfisData data_rfis =>
      let fetchedRfis := default [] data_rfis in
      let newSheetCodes :=
        flat_map (fun page =>
                    match sheetOf page with
                    | SheetData (Some code) =>
                        if String.eqb code "" then [] else [(page, code)]
                    | _ => []
                    end)
                 (pageNumbers fetchedRfis) in
      mkPage (setLoading false (setRfis fetchedRfis st1)) newSheetCodes
  | _ =>
      mkPage (setLoading false (setError (Some "Failed to load RFIs") st1))
             (sheetCodes pg)
  end.

(** The four [TabsTrigger]s of the page, with their values. *)
Inductive Trigger := AllRfis | Columns | Walls | Slabs.

Definition value (t : Trigger) : string :=
  match t with
  | AllRfis => "all"
  | Columns => "columns"
  | Walls => "unmatched_wall"
  | Slabs => "slab"
  end.

(** What can happen to the page: the effect on the project id and the
    Try Again button call [fetchRFIs]; the tab list calls
    [onValueChange] with the value of the trigger chosen; the card of an
    RFI has the buttons and the text area of the editor. *)
Inductive Event :=
| Fetch (outcome : RfisOutcome) (sheetOf : Z -> SheetOutcome)
| Select (t : Trigger)
| Edit (rfi : RFI)
| Typed (text : jsstring)
| Save (rfiId : Z) (res : FetchResult)
| Cancel.

Definition withState (f : State -> State) (pg : Page) : Page :=
  mkPage (f (state pg)) (sheetCodes pg).

Definition step (e : Event) (pg : Page) : Page :=
  match e with
  | Fetch outcome sheetOf => fetchRFIs outcome sheetOf pg
  | Select t => withState (setActiveTab (value t)) pg
  | Edit rfi => withState (handleEditRfiDescription rfi) pg
  | Typed text => withState (setEditedRfiDescription text) pg
  | Save rfiId res =>
      withState (fun st => fst (handleSaveRfiDescription rfiId res st)) pg
  | Cancel => withState handleCancelRfiEdit pg
  end.

Definition run (es : list Event) (pg : Page) : Page :=
  fold_left (fun pg e => step e pg) es pg.

(** The lists of RFIs that the responses of a session carried. *)
Definition fetched (es : list Event) : list RFI :=
  flat_map (fun e => match e with
                     | Fetch (RfisData (Some l)) _ => l
                     | _ => []
                     end) es.

(** What the [Tabs] element shows below the tab list: of its
    [TabsContent] children, the one whose value is the active tab. *)
Inductive Content :=
| Spinner
| ErrorPanel (message : string)
| NoRfis
| RfiCards (l : list RFI)
| ClashCards (l : list VersionClash)
| NoContent.





End RFIPage.

(** ** The version-control page (projects/[id]/version-control/page.tsx) *)

Module VersionControl.
Local Open Scope list_scope.

Inductive SheetStatus := NotStarted | InProgress | Completed.

Record Sheet := mkSheet {
  sheet_id : Z;
  code : string;
  title : string;
  type : string;
  page : Z;
  status : SheetStatus;
  documentId : Z;
  svgPath : option string
}.

Record Document := mkDocument {
  doc_id : Z;
  doc_type : option string;
  path : string;
  doc_title : option string;
  projectId : Z
}.

(** An entry of [SheetComparison.documents].  [sheet] is what
    [sheets.find(...)] returned, [None] standing for [undefined]. *)
Record ComparisonEntry := mkEntry {
  entry_documentId : Z;
  documentTitle : string;
  entry_sheet : option Sheet
}.

Record SheetComparison := mkComparison {
  sheetCode : string;
  documents : list ComparisonEntry
}.

(** The object [sheetsByCode], used as a map from sheet code to the
    sheets of that code: its own properties, in the order of their
    creation.  A key that is no own property is read through the
    prototype: see [push]. *)
Definition SheetsByCode := list (string * list Sheet).

Fixpoint lookup (k : string) (o : SheetsByCode) : option (list Sheet) :=
  match o with
  | [] => None
  | (k', l) :: o' => if String.eqb k' k then Some l else lookup k o'
  end.

(** The property names that an object literal inherits from
    [Object.prototype]: read through [o[k]], each gives a function or
    (for [__proto__]) the prototype object, which is truthy and has no
    [push]. *)
Definition inheritedNames : list string :=
  ["constructor"; "__defineGetter__"; "__defineSetter__"; "hasOwnProperty";
   "__lookupGetter__"; "__lookupSetter__"; "isPrototypeOf";
   "propertyIsEnumerable"; "toString"; "valueOf"; "__proto__";
   "toLocaleString"].

Definition inherited (k : string) : bool :=
  existsb (String.eqb k) inheritedNames.

(** [if (!o[k]) o[k] = []; o[k].push(sheet)] when [o[k]] is an own
    property or [undefined]. *)
Fixpoint pushOwn (k : string) (sheet : Sheet) (o : SheetsByCode) : SheetsByCode :=
  match o with
  | [] => [(k, [sheet])]
  | (k', l) :: o' =>
      if String.eqb k' k then (k', l ++ [sheet]) :: o'
      else (k', l) :: pushOwn k sheet o'
  end.

(** [if (!o[k]) o[k] = []; o[k].push(sheet)] on the object: when [k] is
    no own property but an inherited name, [o[k]] is the inherited
    value, nothing is assigned and the call of its [push] throws a
    [TypeError] ([None]). *)
Definition push (k : string) (sheet : Sheet) (o : SheetsByCode)
  : option SheetsByCode :=
  match lookup k o with
  | Some _ => Some (pushOwn k sheet o)
  | None => if inherited k then None else Some (pushOwn k sheet o)
  end.

(** [allSheets.forEach(...)]: the object built, or [None] when the
    callback threw. *)
Definition groupByCode (allSheets : list Sheet) : option SheetsByCode :=
  fold_left (fun acc sheet =>
               match acc with
               | Some o => push (code sheet) sheet o
               | None => None
               end)
            allSheets (Some []).

(** Property keys that are array indices (canonical decimal numerals up
    to 2^32 - 2) are enumerated first, in ascending order. *)
Definition isDigit (c : ascii) : bool :=
  let n := N_of_ascii c in ((48 <=? n) && (n <=? 57))%N.

Fixpoint digitsValue (s : string) (acc : N) : option N :=
  match s with
  | EmptyString => Some acc
  | String c s' =>
      if isDigit c then digitsValue s' (10 * acc + (N_of_ascii c - 48))%N
      else None
  end.

Definition arrayIndex (k : string) : option N :=
  match k with
  | EmptyString => None
  | String c rest =>
      if Ascii.eqb c "0"%char && negb (String.eqb rest "") then None
      else match digitsValue k 0%N with
           | Some n => if (n <=? 4294967294)%N then Some n else None
           | None => None
           end
  end.

Fixpoint insertByIndex {A} (x : N * A) (l : list (N * A)) : list (N * A) :=
  match l with
  | [] => [x]
  | y :: l' => if (fst x <=? fst y)%N then x :: l else y :: insertByIndex x l'
  end.

Definition sortByIndex {A} (l : list (N * A)) : list (N * A) :=
  fold_right insertByIndex [] l.

Fixpoint indexed (o : SheetsByCode) : list (N * (string * list Sheet)) :=
  match o with
  | [] => []
  | kv :: o' =>
      match arrayIndex (fst kv) with
      | Some n => (n, kv) :: indexed o'
      | None => indexed o'
      end
  end.

Definition isNamed (kv : string * list Sheet) : bool :=
  match arrayIndex (fst kv) with Some _ => false | None => true end.

(** [Object.entries(o)] *)
Definition entries (o : SheetsByCode) : list (string * list Sheet) :=
  map snd (sortByIndex (indexed o)) ++ List.filter isNamed o.

Definition inb (x : Z) (l : list Z) : bool := existsb (Z.eqb x) l.

(** [[...new Set(ids)]]: the distinct values, in the order of their
    first occurrence. *)
Definition uniqueValues (ids : list Z) : list Z :=
  fold_left (fun seen x => if inb x seen then seen else seen ++ [x]) ids [].

(** The decimal numeral of an integer, as a template literal prints it. *)
Definition decimal (z : Z) : string :=
  DecimalString.NilZero.string_of_int (Z.to_int z).

(** [document?.title || `Document ${docId}`] *)
Definition titleOf (document : option Document) (docId : Z) : string :=
  match document with
  | Some d =>
      match doc_title d with
      | Some t => if String.eqb t "" then "Document " ++ decimal docId else t
      | None => "Document " ++ decimal docId
      end
  | None => "Document " ++ decimal docId
  end.

(** [analyzeSheetComparisons]: the list it passes to
    [setSheetComparisons], or [None] when it throws before. *)
Definition analyzeSheetComparisons (allSheets : list Sheet)
    (allDocuments : list Document) : option (list SheetComparison) :=
  match groupByCode allSheets with
  | None => None
  | Some sheetsByCode => Some (
  flat_map
    (fun '(sheetCode, sheets) =>
       if (1 <? List.length sheets)%nat then
         let uniqueDocuments := uniqueValues (map documentId sheets) in
         if (1 <? List.length uniqueDocuments)%nat then
           [ mkComparison sheetCode
               (map (fun docId =>
                       let sheet :=
                         List.find (fun s => Z.eqb (documentId s) docId) sheets in
                       let document :=
                         List.find (fun d => Z.eqb (doc_id d) docId) allDocuments in
                       mkEntry docId (titleOf document docId) sheet)
                    uniqueDocuments) ]
         else []
       else [])
    (entries sheetsByCode))
  end.

(** The object that the grouping builds when no sheet code is an
    inherited name. *)
Definition ownGroups (allSheets : list Sheet) : SheetsByCode :=
  fold_left (fun o sheet => pushOwn (code sheet) sheet o) allSheets [].

Definition inheritedCode (s : Sheet) : bool := inherited (code s).

(** Helpers for stating the result: the sheets of code [k] in their
    input order, the group an object built from [sheets] holds under
    [k], the test a group passes to yield a comparison, and the entries
    built for a group. *)
Definition group_of (k : string) (sheets : list Sheet) : list Sheet :=
  List.filter (fun s => String.eqb (code s) k) sheets.

Definition grouped (sheets : list Sheet) (k : string) : option (list Sheet) :=
  match group_of k sheets with
  | [] => None
  | l => Some l
  end.

Definition qualifies (sheets : list Sheet) : bool :=
  (1 <? List.length sheets)%nat &&
  (1 <? List.length (uniqueValues (map documentId sheets)))%nat.

Definition entriesOf (allDocuments : list Document) (sheets : list Sheet)
  : list ComparisonEntry :=
  map (fun docId =>
         mkEntry docId
           (titleOf (List.find (fun d => Z.eqb (doc_id d) docId) allDocuments)
                    docId)
           (List.find (fun s => Z.eqb (documentId s) docId) sheets))
      (uniqueValues (map documentId sheets)).

Definition sheet (i : Z) (c : string) (doc : Z) : Sheet :=
  mkSheet i c "Plan" "floor plan" i NotStarted doc None.

Definition sample_sheets : list Sheet :=
  [sheet 1 "A-101" 10; sheet 2 "S-1.1" 10; sheet 3 "A-101" 11;
   sheet 4 "A-102" 11; sheet 5 "A-101" 10; sheet 6 "7" 11; sheet 7 "7" 12;
   sheet 8 "S-1.1" 10].

Definition sample_documents : list Document :=
  [mkDocument 10 None "/docs/cd.pdf" (Some "90% CD") 1;
   mkDocument 11 None "/docs/dd.pdf" None 1].

(** Two documents that both hold a sheet whose code is the word
    [constructor], beside sheet [A-101]. *)
Definition constructor_sheets : list Sheet :=
  [sheet 1 "A-101" 10; sheet 2 "constructor" 10; sheet 3 "A-101" 11;
   sheet 4 "constructor" 11].

(** *** Processing the differences *)

(** The body of a POST to [/api/sheet-diff]. *)
Record DiffRequest := mkDiffRequest {
  req_projectId : string;
  req_sheetCode : string;
  sheet1Id : Z;
  sheet2Id : Z;
  document1Id : Z;
  document2Id : Z
}.

(** The outcome of one diff request: [fetch] throws; it resolves to a
    response that is not ok; it resolves to an ok response whose body
    cannot be read (or is [null]); or to an ok response with the body
    given, any of whose properties may be missing. *)
Inductive DiffOutcome :=
| DiffThrows
| DiffNotOk
| DiffBodyFails
| DiffData (adds deletes moves : option Z) (diffImagePath : option string).

Record DiffResult := mkDiffResult {
  res_sheetCode : string;
  res_document1 : Z * string;
  res_document2 : Z * string;
  res_adds : Z;
  res_deletes : Z;
  res_moves : Z;
  res_diffImagePath : option string;
  processed : bool
}.

Record Project := mkProject {
  project_id : Z;
  project_name : string;
  project_date : string
}.

Record State := mkState {
  project : option Project;
  documents_ : list Document;
  sheets : list Sheet;
  sheetComparisons : list SheetComparison;
  diffResults : list DiffResult;
  isLoading : bool;
  error : option string;
  processingDiffs : bool
}.

Definition initialState : State := mkState None [] [] [] [] true None false.

(** [x || 0] on a number that may be missing. *)
Definition orZero (x : option Z) : Z :=
  match x with Some v => v | None => 0%Z end.

(** The pairs [(l[i], l[j])] with [i < j], in the order of the two
    nested loops. *)
Fixpoint pairs {A} (l : list A) : list (A * A) :=
  match l with
  | [] => []
  | x :: rest => map (pair x) rest ++ pairs rest
  end.

(** The iterations of the three nested loops, in order. *)
Definition jobs (comparisons : list SheetComparison)
  : list (string * ComparisonEntry * ComparisonEntry) :=
  flat_map (fun comparison =>
              map (fun '(doc1, doc2) => (sheetCode comparison, doc1, doc2))
                  (pairs (documents comparison)))
           comparisons.

(** The loop body over the remaining iterations: the results pushed, or
    [None] when an iteration threw, and the requests sent.  Reading
    [doc.sheet.id] of a missing sheet throws before the request is
    sent. *)
Fixpoint runJobs (projectId : string) (respond : DiffRequest -> DiffOutcome)
    (todo : list (string * ComparisonEntry * ComparisonEntry))
  : option (list DiffResult) * list DiffRequest :=
  match todo with
  | [] => (Some [], [])
  | (code, doc1, doc2) :: rest =>
      match entry_sheet doc1, entry_sheet doc2 with
      | Some s1, Some s2 =>
          let request :=
            mkDiffRequest projectId code (sheet_id s1) (sheet_id s2)
                          (entry_documentId doc1) (entry_documentId doc2) in
          let d1 := (entry_documentId doc1, documentTitle doc1) in
          let d2 := (entry_documentId doc2, documentTitle doc2) in
          let continue (result : DiffResult) :=
            let '(results, requests) := runJobs projectId respond rest in
            (option_map (cons result) results, request :: requests) in
          match respond request with
          | DiffThrows | DiffBodyFails => (None, [request])
          | DiffNotOk =>
              continue (mkDiffResult code d1 d2 0 0 0 None false)
          | DiffData adds deletes moves path =>
              continue (mkDiffResult code d1 d2 (orZero adds) (orZero deletes)
                                     (orZero moves) path true)
          end
      | _, _ => (None, [])
      end
  end.

(** [processDifferences] *)
Definition processDifferences (projectId : string)
    (respond : DiffRequest -> DiffOutcome) (st : State)
  : State * list DiffRequest :=
  match sheetComparisons st with
  | [] => (st, [])
  | _ =>
      let '(results, requests) :=
        runJobs projectId respond (jobs (sheetComparisons st)) in
      (mkState (project st) (documents_ st) (sheets st) (sheetComparisons st)
               (match results with Some r => r | None => diffResults st end)
               (isLoading st)
               (match results with
                | Some _ => error st
                | None => Some "Failed to process sheet differences"
                end)
               false,
       requests)
  end.

(** *** Loading the page *)

(** The outcome of a GET whose body holds a list under one property:
    [fetch] throws, the response is not ok, the body cannot be read (or
    is [null]), or the list is given ([None] when the property is
    missing). *)
Inductive ListOutcome (A : Type) :=
| ListThrows
| ListNotOk
| ListBodyFails
| ListData (items : option (list A)).
Arguments ListThrows {A}.
Arguments ListNotOk {A}.
Arguments ListBodyFails {A}.
Arguments ListData {A} items.

Inductive ProjectOutcome :=
| ProjectThrows
| ProjectNotOk
| ProjectBodyFails
| ProjectData (p : option Project).

Definition onLoadError (st : State) : State :=
  mkState (project st) (documents_ st) (sheets st) (sheetComparisons st)
          (diffResults st) false
          (Some "Failed to load version control data") (processingDiffs st).


(** An outcome that lets the loop go on, and one that throws. *)
Definition calm (o : DiffOutcome) : bool :=
  match o with
  | DiffNotOk | DiffData _ _ _ _ => true
  | DiffThrows | DiffBodyFails => false
  end.

Definition hasSheets (job : string * ComparisonEntry * ComparisonEntry) : bool :=
  let '(_, doc1, doc2) := job in
  match entry_sheet doc1, entry_sheet doc2 with
  | Some _, Some _ => true
  | _, _ => false
  end.

(** The code and the two document ids of an iteration, a request and a
    result. *)
Definition jobKey (job : string * ComparisonEntry * ComparisonEntry)
  : string * Z * Z :=
  let '(code, doc1, doc2) := job in
  (code, entry_documentId doc1, entry_documentId doc2).

Definition requestKey (r : DiffRequest) : string * Z * Z :=
  (req_sheetCode r, document1Id r, document2Id r).

Definition resultKey (r : DiffResult) : string * Z * Z :=
  (res_sheetCode r, fst (res_document1 r), fst (res_document2 r)).

Definition sample_state : State :=
  mkState None sample_documents sample_sheets
          (default [] (analyzeSheetComparisons sample_sheets sample_documents))
          [] false None false.

(** The request an iteration sends, if reading its sheets does not
    throw. *)
Definition requestOf (projectId : string)
    (job : string * ComparisonEntry * ComparisonEntry) : option DiffRequest :=
  let '(code, doc1, doc2) := job in
  match entry_sheet doc1, entry_sheet doc2 with
  | Some s1, Some s2 =>
      Some (mkDiffRequest projectId code (sheet_id s1) (sheet_id s2)
                          (entry_documentId doc1) (entry_documentId doc2))
  | _, _ => None
  end.


(** A server that answers every request but the one for documents 10
    and 11, on which the connection fails. *)
Definition sample_respond (r : DiffRequest) : DiffOutcome :=
  if ((document1Id r =? 10) && (document2Id r =? 11))%Z then DiffThrows
  else DiffData (Some 3%Z) None (Some 1%Z) (Some "/diffs/out.png").

Definition sample_respond_ok (r : DiffRequest) : DiffOutcome :=
  if (document1Id r =? 10)%Z then DiffNotOk
  else DiffData (Some 3%Z) None (Some 1%Z) (Some "/diffs/out.png").




End VersionControl.

(** ** The new-project dialog of the dashboard *)

Module ProjectCreation.
Import ProjectsDashboard JSString.
Local Open Scope list_scope.

(** The outcome of the POST: [fetch] throws, the response is not ok, the
    body cannot be read (or is [null]), or it is the project given. *)
Inductive CreateOutcome :=
| CreateThrows
| CreateNotOk
| CreateBodyFails
| CreateData (newProject : RawProject).

(** [createNewProject], with the text of the name field, and
    [toLocaleDateString] standing for
    [new Date(date).toLocaleDateString('en-US', {...})].  It returns the
    dashboard and whether the request was sent; on success it also
    empties the name field and closes the dialog, which are not part of
    [Dashboard]. *)
Definition createNewProject (toLocaleDateString : string -> string)
    (newProjectName : jsstring) (outcome : CreateOutcome) (d : Dashboard)
  : Dashboard * bool :=
  match trim newProjectName with
  | [] => (d, false)
  | _ =>
      match outcome with
      | CreateData newProject =>
          (setProjects
             (projects d ++
              [mkProject (raw_id newProject) (raw_name newProject)
                         (toLocaleDateString (raw_date newProject)) 0])
             d,
           true)
      | _ => (d, true)
      end
  end.

(** What can happen to the dashboard: an event of the cards and dialogs
    modelled in [ProjectsDashboard], or the Create button. *)
Inductive Action :=
| Card (e : Event)
| Create (newProjectName : jsstring) (outcome : CreateOutcome).

Definition act (toLocaleDateString : string -> string) (a : Action)
    (d : Dashboard) : Dashboard :=
  match a with
  | Card e => fst (step e d)
  | Create name outcome =>
      fst (createNewProject toLocaleDateString name outcome d)
  end.

Definition session (toLocaleDateString : string -> string)
    (actions : list Action) (d : Dashboard) : Dashboard :=
  fold_left (fun d a => act toLocaleDateString a d) actions d.

(** The id and name of every project that a response of the session
    listed or returned; the create request is sent for a name that is
    not blank. *)
Definition fetched (actions : list Action) : list (Z * string) :=
  flat_map (fun a =>
              match a with
              | Card (Loaded (FetchData data)) =>
                  map (fun p => (raw_id p, raw_name p)) data
              | Create name (CreateData p) =>
                  match trim name with
                  | [] => []
                  | _ => [(raw_id p, raw_name p)]
                  end
              | _ => []
              end)
           actions.

End ProjectCreation.

(** ** The project page *)

Module ProjectPage.
Import VersionControl.
Local Open Scope list_scope.

(** The page's [Sheet], [Document] and [Project] are those of the
    version-control page (its [Sheet] has no [svgPath]). *)
Record State := mkState {
  project : option Project;
  documents_ : list Document;
  selectedDocumentId : option Z;
  sheets : list Sheet;
  isLoading : bool;
  error : option string
}.

Definition initialState : State := mkState None [] None [] true None.

Definition onLoadError (st : State) : State :=
  mkState (project st) (documents_ st) (selectedDocumentId st) (sheets st)
          false (Some "Failed to load project data").

(** [fetchProjectData]: what is set before a request fails stays set. *)
Definition fetchProjectData (r1 : ProjectOutcome) (r2 : ListOutcome Document)
    (r3 : ListOutcome Sheet) (st : State) : State :=
  let st0 := mkState (project st) (documents_ st) (selectedDocumentId st)
                     (sheets st) true (error st) in
  match r1 with
  | ProjectData projectData =>
      let st1 := mkState projectData (documents_ st0) (selectedDocumentId st0)
                         (sheets st0) true (error st0) in
      match r2 with
      | ListData documentsData =>
          let fetchedDocuments := default [] documentsData in
          let st2 :=
            mkState (project st1) fetchedDocuments
                    (match fetchedDocuments with
                     | first :: _ => Some (doc_id first)
                     | [] => selectedDocumentId st1
                     end)
                    (sheets st1) true (error st1) in
          match r3 with
          | ListData sheetsData =>
              mkState (project st2) (documents_ st2) (selectedDocumentId st2)
                      (default [] sheetsData) false None
          | _ => onLoadError st2
          end
      | _ => onLoadError st1
      end
  | _ => onLoadError st0
  end.

(** [onValueChange] of the document tabs:
    [setSelectedDocumentId(Number(value))], the value of a trigger being
    the decimal numeral of a document id. *)
Definition selectDocument (id : Z) (st : State) : State :=
  mkState (project st) (documents_ st) (Some id) (sheets st) (isLoading st)
          (error st).





Inductive Event :=
| Load (r1 : ProjectOutcome) (r2 : ListOutcome Document)
       (r3 : ListOutcome Sheet)
| SelectDocument (id : Z).

Definition step (e : Event) (st : State) : State :=
  match e with
  | Load r1 r2 r3 => fetchProjectData r1 r2 r3 st
  | SelectDocument id => selectDocument id st
  end.

Definition run (es : list Event) (st : State) : State :=
  fold_left (fun st e => step e st) es st.



(** The documents and the sheets that the responses of a session
    carried; a load sends a request when those before it succeeded. *)
Definition fetchedDocuments (es : list Event) : list Document :=
  flat_map (fun e => match e with
                     | Load (ProjectData _) (ListData (Some l)) _ => l
                     | _ => []
                     end) es.


End ProjectPage.

(** ** The Procore page *)

Module ProcorePage.
Local Open Scope list_scope.

Record ProcoreDocument := mkProcoreDocument {
  file_id : string;
  name : string;
  size : option Z;
  updated_at : option string;
  download_url : option string
}.

Record State := mkState {
  procoreDocuments : list ProcoreDocument;
  procoreSpecifications : list ProcoreDocument;
  documentsLoading : bool;
  specificationsLoading : bool;
  isAuthenticated : bool;
  isLoading : bool
}.

Definition initialState : State := mkState [] [] false false false true.

(** The outcome of [response.json()] on the body of a file list: it
    rejects (or resolves to [null], on which [data.files] throws), or
    resolves to a value whose [files] may be missing. *)
Inductive Body :=
| BodyFails
| BodyValue (files : option (list ProcoreDocument)).

(** The outcome of a GET: [fetch] throws, or resolves to a response
    with a status; [response.ok] is a status from 200 to 299. *)
Inductive Outcome :=
| Throws
| Resolves (status : Z) (json : Body).

Definition ok (status : Z) : bool := ((200 <=? status) && (status <=? 299))%Z.

(** The list that a fetch stores, and whether it finds the session
    unauthorised. *)
Definition listOf (outcome : Outcome) : list ProcoreDocument :=
  match outcome with
  | Throws => []
  | Resolves status json =>
      if ok status then
        match json with
        | BodyValue files => default [] files
        | BodyFails => []
        end
      else []
  end.

Definition unauthorised (outcome : Outcome) : bool :=
  match outcome with
  | Throws => false
  | Resolves status _ => negb (ok status) && (status =? 401)%Z
  end.

(** [response.ok], or [false] when [fetch] threw. *)
Definition responseOk (outcome : Outcome) : bool :=
  match outcome with
  | Throws => false
  | Resolves status _ => ok status
  end.

(** [checkAuthentication]: the state and the value returned. *)
Definition checkAuthentication (outcome : Outcome) (st : State) : State * bool :=
  (mkState (procoreDocuments st) (procoreSpecifications st)
           (documentsLoading st) (specificationsLoading st)
           (responseOk outcome) (isLoading st),
   responseOk outcome).

(** [fetchProcoreDocuments] *)
Definition fetchProcoreDocuments (outcome : Outcome) (st : State) : State :=
  mkState (listOf outcome) (procoreSpecifications st) false
          (specificationsLoading st)
          (if unauthorised outcome then false else isAuthenticated st)
          (isLoading st).

(** [fetchProcoreSpecifications] *)
Definition fetchProcoreSpecifications (outcome : Outcome) (st : State) : State :=
  mkState (procoreDocuments st) (listOf outcome) (documentsLoading st) false
          (if unauthorised outcome then false else isAuthenticated st)
          (isLoading st).

Definition setIsLoading (v : bool) (st : State) : State :=
  mkState (procoreDocuments st) (procoreSpecifications st)
          (documentsLoading st) (specificationsLoading st)
          (isAuthenticated st) v.

(** [loadData], the effect on mount. *)
Definition loadData (check documents specifications : Outcome) (st : State)
  : State :=
  let '(st1, authenticated) := checkAuthentication check (setIsLoading true st) in
  let st2 :=
    if authenticated then
      fetchProcoreSpecifications specifications
        (fetchProcoreDocuments documents st1)
    else st1 in
  setIsLoading false st2.

(** The effect on mount and the two refresh buttons. *)
Inductive Event :=
| Load (check documents specifications : Outcome)
| RefreshDocuments (outcome : Outcome)
| RefreshSpecifications (outcome : Outcome).

Definition step (e : Event) (st : State) : State :=
  match e with
  | Load check documents specifications =>
      loadData check documents specifications st
  | RefreshDocuments outcome => fetchProcoreDocuments outcome st
  | RefreshSpecifications outcome => fetchProcoreSpecifications outcome st
  end.

Definition run (es : list Event) (st : State) : State :=
  fold_left (fun st e => step e st) es st.

(** The files that the responses to the document requests, and to the
    specification requests, of a session carried.  The load sends the
    two requests only when the check found the session authenticated. *)
Definition fetchedDocuments (es : list Event) : list ProcoreDocument :=
  flat_map (fun e =>
              match e with
              | Load check documents _ =>
                  if responseOk check then listOf documents else []
              | RefreshDocuments outcome => listOf outcome
              | RefreshSpecifications _ => []
              end) es.


End ProcorePage.

(** ** The chat page: loading *)

Module ChatPage.
Import VersionControl.
Local Open Scope string_scope.
Local Open Scope list_scope.

Inductive Sender := User | Bot.

(** A [Message]; the timestamp is the time value of its [Date]. *)
Record Message := mkMessage {
  id : string;
  content : string;
  sender : Sender;
  timestamp : Z
}.

(** The state that the load writes.  [Project] and [Sheet] are those of
    the version-control page; the [svgContent] of a sheet is not read
    here. *)
Record State := mkState {
  project : option Project;
  sheets : list Sheet;
  messages : list Message;
  isLoading : bool;
  sessionId : option string
}.

Definition initialState : State := mkState None [] [] true None.

(** The outcome of the POST that creates a session: [fetch] or
    [response.json()] rejects (or the body is [null]), or the body is
    read, with its [success] taken for a boolean and its [sessionId],
    which may be missing. *)
Inductive SessionOutcome :=
| SessionThrows
| SessionData (success : bool) (data_sessionId : option string).

(** [createSession]: the state and the value returned, [None] standing
    for [null] and for [undefined]. *)
Definition createSession (outcome : SessionOutcome) (st : State)
  : State * option string :=
  match outcome with
  | SessionData true data_sessionId =>
      (mkState (project st) (sheets st) (messages st) (isLoading st)
               data_sessionId,
       data_sessionId)
  | _ => (st, None)
  end.

(** The double quote of the welcome text. *)
Definition quote : string := String (ascii_of_nat 34) EmptyString.

Definition welcomeMessage (name : string) (now : Z) : Message :=
  mkMessage "welcome"
    ("Welcome to the " ++ name ++
     " AI Assistant! I can help you navigate and work with construction drawing sheets. Try asking me to "
     ++ quote ++ "open sheet A2.31" ++ quote ++ " or " ++ quote ++
     "show me slab drawings for hotel" ++ quote ++ ".")
    Bot now.

Definition errorMessage (now : Z) : Message :=
  mkMessage "error"
    "Sorry, I encountered an error loading the project data. Please try again later."
    Bot now.

Definition setMessages (v : list Message) (st : State) : State :=
  mkState (project st) (sheets st) v (isLoading st) (sessionId st).
Definition setIsLoading (v : bool) (st : State) : State :=
  mkState (project st) (sheets st) (messages st) v (sessionId st).

(** [fetchProjectData], the effect on the project id; [now] is the time
    that [new Date()] reads. *)
Definition fetchProjectData (now : Z) (r1 : ProjectOutcome)
    (r2 : ListOutcome Sheet) (r3 : SessionOutcome) (st : State) : State :=
  let st0 := setIsLoading true st in
  let onCatch (s : State) := setIsLoading false (setMessages [errorMessage now] s) in
  match r1 with
  | ProjectData projectData =>
      let st1 := mkState projectData (sheets st0) (messages st0) true
                         (sessionId st0) in
      match r2 with
      | ListData sheetsData =>
          let st2 := mkState (project st1) (default [] sheetsData)
                             (messages st1) true (sessionId st1) in
          let '(st3, newSessionId) := createSession r3 st2 in
          match newSessionId with
          | None => onCatch st3
          | Some session =>
              if String.eqb session "" then onCatch st3
              else match projectData with
                   | None => onCatch st3
                   | Some p =>
                       setIsLoading false
                         (setMessages [welcomeMessage (project_name p) now]
                                      st3)
                   end
          end
      | _ => onCatch st1
      end
  | _ => onCatch st0
  end.

(** Every text that the responses of the load carry. *)
Definition carried (r1 : ProjectOutcome) (r2 : ListOutcome Sheet)
    (r3 : SessionOutcome) : list string :=
  match r1 with
  | ProjectData (Some p) => [project_name p; project_date p]
  | _ => []
  end ++
  match r2 with
  | ListData (Some l) => flat_map (fun s => [code s; title s; type s]) l
  | _ => []
  end ++
  match r3 with
  | SessionData _ (Some session) => [session]
  | _ => []
  end.


End ChatPage.

(** * Properties *)

Local Open Scope Q_scope.

(** ** Viewport arithmetic of the SVG viewer *)

Section ViewerFacts.
Import Viewer.

Lemma currentSheet_setViewStates st vs :
  currentSheet (setViewStates st vs) = currentSheet st.
Proof. reflexivity. Qed.


Lemma Qeqb_pos_false x : 0 < x -> Qeqb x 0 = false.
Proof.
  intros Hx. unfold Qeqb. destruct (Qeq_bool x 0) eqn:E; [|reflexivity].
  apply Qeq_bool_iff in E. lra.
Qed.




End ViewerFacts.

Section JSNumberFacts.
Import JSNumber.

Lemma SFcompare_refl x : x <> S754_nan -> SFcompare x x = Some Eq.
Proof.
  destruct x as [s | s | | s m e]; cbn; try congruence; intros _.
  - destruct s; reflexivity.
  - rewrite Z.compare_refl, Pos.compare_cont_refl. destruct s; reflexivity.
Qed.

Lemma isNaN_true x : isNaN x = true <-> Prim2SF x = S754_nan.
Proof.
  unfold isNaN. rewrite FloatAxioms.eqb_spec. unfold SFeqb. split.
  - intros H. destruct (Prim2SF x) eqn:E; try reflexivity;
      rewrite SFcompare_refl in H by discriminate; discriminate H.
  - intros ->. reflexivity.
Qed.

Lemma isNaN_false x : isNaN x = false <-> Prim2SF x <> S754_nan.
Proof.
  rewrite <- isNaN_true. destruct (isNaN x); split; congruence.
Qed.

Lemma isNaN_nan x : isNaN x = true -> x = nan.
Proof.
  intros H. apply isNaN_true in H.
  rewrite <- (SF2Prim_Prim2SF x), H. reflexivity.
Qed.

Lemma SFcompare_antisym x y :
  SFcompare y x = option_map CompOpp (SFcompare x y).
Proof.
  destruct x as [s1 | s1 | | s1 m1 e1], y as [s2 | s2 | | s2 m2 e2]; cbn;
    try reflexivity; try (destruct s1; reflexivity);
    try (destruct s2; reflexivity); try (destruct s1, s2; reflexivity).
  rewrite (Z.compare_antisym e1 e2).
  assert (H : Pos.compare_cont Eq m2 m1 = CompOpp (Pos.compare_cont Eq m1 m2))
    by (rewrite Pos.compare_cont_antisym; reflexivity).
  rewrite H. clear H.
  destruct s1, s2; cbn; try reflexivity;
    destruct (e1 ?= e2)%Z; cbn; try reflexivity;
    destruct (Pos.compare_cont Eq m1 m2); reflexivity.
Qed.

Lemma SFcompare_some x y :
  x <> S754_nan -> y <> S754_nan -> exists c, SFcompare x y = Some c.
Proof.
  destruct x, y; cbn; try congruence; eauto.
Qed.

Lemma ltb_leb x y : (x <? y)%float = true -> (x <=? y)%float = true.
Proof.
  rewrite FloatAxioms.ltb_spec, FloatAxioms.leb_spec. unfold SFltb, SFleb.
  destruct (SFcompare _ _) as [[| |] |]; congruence.
Qed.

Lemma not_ltb_leb x y :
  isNaN x = false -> isNaN y = false ->
  (x <? y)%float = false -> (y <=? x)%float = true.
Proof.
  rewrite !isNaN_false, FloatAxioms.ltb_spec, FloatAxioms.leb_spec. unfold SFltb, SFleb.
  intros Hx Hy. rewrite (SFcompare_antisym (Prim2SF x) (Prim2SF y)).
  destruct (SFcompare_some _ _ Hx Hy) as [c ->]. destruct c; cbn; congruence.
Qed.

Lemma leb_refl x : isNaN x = false -> (x <=? x)%float = true.
Proof.
  rewrite isNaN_false, FloatAxioms.leb_spec. unfold SFleb. intros H.
  rewrite SFcompare_refl by exact H. reflexivity.
Qed.

Lemma Math_min_cases a b :
  isNaN a = false -> isNaN b = false ->
  (Math_min a b = a /\ (a <=? b)%float = true) \/
  (Math_min a b = b /\ (b <=? a)%float = true).
Proof.
  intros Ha Hb. unfold Math_min. rewrite Ha, Hb. cbn [orb].
  destruct (a <? b)%float eqn:E1; [left; split; [reflexivity | apply ltb_leb, E1] |].
  destruct (b <? a)%float eqn:E2; [right; split; [reflexivity | apply ltb_leb, E2] |].
  destruct (isNegZero a).
  - left. split; [reflexivity | apply not_ltb_leb; assumption].
  - right. split; [reflexivity | apply not_ltb_leb; assumption].
Qed.

Lemma Math_max_cases a b :
  isNaN a = false -> isNaN b = false ->
  (Math_max a b = a /\ (b <=? a)%float = true) \/
  (Math_max a b = b /\ (a <=? b)%float = true).
Proof.
  intros Ha Hb. unfold Math_max. rewrite Ha, Hb. cbn [orb].
  destruct (b <? a)%float eqn:E1; [left; split; [reflexivity | apply ltb_leb, E1] |].
  destruct (a <? b)%float eqn:E2; [right; split; [reflexivity | apply ltb_leb, E2] |].
  destruct (isPosZero a).
  - left. split; [reflexivity | apply not_ltb_leb; assumption].
  - right. split; [reflexivity | apply not_ltb_leb; assumption].
Qed.

Lemma Math_min_nan_r a x : isNaN x = true -> Math_min a x = nan.
Proof. intros H. unfold Math_min. rewrite H, orb_true_r. reflexivity. Qed.

Lemma Math_max_nan_r a x : isNaN x = true -> Math_max a x = nan.
Proof. intros H. unfold Math_max. rewrite H, orb_true_r. reflexivity. Qed.

Lemma Math_max_nan_l a x : isNaN x = true -> Math_max x a = nan.
Proof. intros H. unfold Math_max. rewrite H. reflexivity. Qed.

(** [Math.max(lo, Math.min(hi, x))] *)
Lemma clamp_bounds64 lo hi x :
  isNaN lo = false -> isNaN hi = false -> (lo <=? hi)%float = true ->
  isNaN x = false ->
  let r := Math_max lo (Math_min hi x) in
  (lo <=? r)%float = true /\ (r <=? hi)%float = true /\ isNaN r = false.
Proof.
  intros Hlo Hhi Hle Hx. cbv zeta.
  destruct (Math_min_cases hi x Hhi Hx) as [[Em Hm] | [Em Hm]]; rewrite Em.
  - destruct (Math_max_cases lo hi Hlo Hhi) as [[Er Hr] | [Er Hr]]; rewrite Er.
    + auto using leb_refl.
    + auto using leb_refl.
  - destruct (Math_max_cases lo x Hlo Hx) as [[Er Hr] | [Er Hr]]; rewrite Er.
    + auto using leb_refl.
    + auto.
Qed.

(** The result of rounding is a number: no operation on numbers other
    than the invalid ones gives NaN. *)
Lemma shr_1_nonneg mrs : (0 <= shr_m mrs)%Z -> (0 <= shr_m (shr_1 mrs))%Z.
Proof.
  destruct mrs as [m r s]. cbn [shr_m]. intros H.
  destruct m as [| [p | p |] | p]; cbn; lia.
Qed.

Lemma iter_shr_1_nonneg p : forall mrs,
  (0 <= shr_m mrs)%Z -> (0 <= shr_m (SpecFloat.iter_pos shr_1 p mrs))%Z.
Proof.
  induction p as [p IH | p IH |]; intros mrs H; cbn [SpecFloat.iter_pos].
  - apply IH, IH, shr_1_nonneg, H.
  - apply IH, IH, H.
  - apply shr_1_nonneg, H.
Qed.

Lemma shr_fexp_nonneg prec emax m e l :
  (0 <= m)%Z -> (0 <= shr_m (fst (shr_fexp prec emax m e l)))%Z.
Proof.
  intros H. unfold shr_fexp, shr.
  assert (H0 : (0 <= shr_m (shr_record_of_loc m l))%Z)
    by (destruct l as [| []]; exact H).
  destruct (_ - e)%Z; cbn [fst]; [exact H0 | | exact H0].
  apply iter_shr_1_nonneg, H0.
Qed.

Lemma round_nearest_even_nonneg m l :
  (0 <= m)%Z -> (0 <= round_nearest_even m l)%Z.
Proof.
  intros H. destruct l as [| []]; cbn; [exact H | | exact H | lia].
  destruct (Z.even m); lia.
Qed.

Lemma binary_round_aux_number prec emax sx mx ex lx :
  (0 <= mx)%Z -> binary_round_aux prec emax sx mx ex lx <> S754_nan.
Proof.
  intros H. unfold binary_round_aux.
  pose proof (shr_fexp_nonneg prec emax mx ex lx H) as H1.
  destruct (shr_fexp prec emax mx ex lx) as [mrs' e']. cbn [fst] in H1.
  pose proof (shr_fexp_nonneg prec emax _ e' loc_Exact
                (round_nearest_even_nonneg _ (loc_of_shr_record mrs') H1)) as H2.
  destruct (shr_fexp prec emax _ e' loc_Exact) as [mrs'' e'']. cbn [fst] in H2.
  destruct (shr_m mrs'') as [| m | m]; [discriminate | | lia].
  destruct (Z.leb _ _); discriminate.
Qed.

Lemma SFmul_number prec emax x s m e :
  x <> S754_nan -> SFmul prec emax x (S754_finite s m e) <> S754_nan.
Proof.
  destruct x as [sx | sx | | sx mx ex]; cbn; try congruence; intros _.
  apply binary_round_aux_number. lia.
Qed.

Lemma SFdiv_number prec emax x s m e :
  x <> S754_nan -> SFdiv prec emax x (S754_finite s m e) <> S754_nan.
Proof.
  destruct x as [sx | sx | | sx mx ex]; cbn [SFdiv]; try congruence; intros _.
  unfold SFdiv_core_binary. cbv zeta.
  set (m' := match _ with Z0 => _ | Zpos _ => _ | Zneg _ => _ end).
  assert (Hm' : (0 <= m')%Z).
  { subst m'. destruct (_ - _ - _)%Z; [lia | | lia].
    apply Z.shiftl_nonneg. lia. }
  pose proof (Z.div_pos m' (Zpos m) Hm' eq_refl) as Hq.
  unfold Z.div in Hq. destruct (Z.div_eucl m' (Zpos m)) as [q r].
  apply binary_round_aux_number, Hq.
Qed.

Lemma mul_number x c :
  isNaN x = false -> isFinite c = true -> (c =? 0)%float = false ->
  isNaN (x * c)%float = false.
Proof.
  rewrite !isNaN_false, FloatAxioms.mul_spec. unfold isFinite.
  rewrite FloatAxioms.eqb_spec. intros Hx Hc Hz.
  destruct (Prim2SF c) as [s | s | | s m e] eqn:E; try discriminate Hc.
  - exfalso. clear -Hz. unfold SFeqb in Hz.
    destruct (Prim2SF 0) eqn:E0; vm_compute in E0; try discriminate E0.
    cbn in Hz. discriminate Hz.
  - apply SFmul_number, Hx.
Qed.

Lemma div_number x c :
  isNaN x = false -> isFinite c = true -> (c =? 0)%float = false ->
  isNaN (x / c)%float = false.
Proof.
  rewrite !isNaN_false, FloatAxioms.div_spec. unfold isFinite.
  rewrite FloatAxioms.eqb_spec. intros Hx Hc Hz.
  destruct (Prim2SF c) as [s | s | | s m e] eqn:E; try discriminate Hc.
  - exfalso. clear -Hz. unfold SFeqb in Hz.
    destruct (Prim2SF 0) eqn:E0; vm_compute in E0; try discriminate E0.
    cbn in Hz. discriminate Hz.
  - apply SFdiv_number, Hx.
Qed.

Lemma mul_nan x c : isNaN x = true -> isNaN (x * c)%float = true.
Proof.
  rewrite !isNaN_true, FloatAxioms.mul_spec. intros ->. reflexivity.
Qed.

Lemma div_nan x c : isNaN x = true -> isNaN (x / c)%float = true.
Proof.
  rewrite !isNaN_true, FloatAxioms.div_spec. intros ->. reflexivity.
Qed.

End JSNumberFacts.

Section Viewer64Facts.
Import JSNumber Viewer64.
#[local] Set Warnings "-inexact-float".

Lemma Qabs_near x y : Qabs x <= Qabs y + Qabs (x - y).
Proof.
  assert (E : x == y + (x - y)) by ring.
  rewrite E at 1. apply Qabs_triangle.
Qed.

Lemma Qabs_div_pos x s : 0 < s -> Qabs (x / s) == Qabs x / s.
Proof.
  intros Hs. unfold Qdiv. rewrite Qabs_Qmult.
  rewrite (Qabs_pos (/ s)); [reflexivity |].
  apply Qlt_le_weak, Qinv_lt_0_compat, Hs.
Qed.

(** Four roundings in a row: a quotient, a product by [s'] undone by
    the division by [s'], and a difference from [p]. *)
Lemma rounding_chain (B a M c after p' : Q) :
  Qabs (a - B) <= u * Qabs B ->
  Qabs (M - a) <= u * Qabs a ->
  Qabs (c - M) <= u * Qabs M ->
  Qabs (after - c) <= u * Qabs (p' - c) ->
  Qabs (after - B) <= 5 * u * Qabs B + u * Qabs p'.
Proof.
  intros H1 H2 H3 H4.
  pose proof (Qabs_near a B) as Ta.
  pose proof (Qabs_near M a) as TM.
  pose proof (Qabs_near c M) as Tc.
  pose proof (Qabs_triangle p' (- c)) as Tp.
  rewrite Qabs_opp in Tp.
  assert (E : after - B == (after - c) + ((c - M) + ((M - a) + (a - B))))
    by ring.
  rewrite E.
  pose proof (Qabs_triangle (after - c) ((c - M) + ((M - a) + (a - B)))) as T1.
  pose proof (Qabs_triangle (c - M) ((M - a) + (a - B))) as T2.
  pose proof (Qabs_triangle (M - a) (a - B)) as T3.
  pose proof (Qabs_nonneg B) as NB.
  pose proof (Qabs_nonneg p') as Np.
  change (p' + - c) with (p' - c) in Tp.
  unfold u in *.
  set (x1 := Qabs (a - B)) in *. set (x2 := Qabs (M - a)) in *.
  set (x3 := Qabs (c - M)) in *. set (x4 := Qabs (after - c)) in *.
  set (b := Qabs B) in *. set (qa := Qabs a) in *. set (qm := Qabs M) in *.
  set (qc := Qabs c) in *. set (qp := Qabs p') in *.
  set (qpc := Qabs (p' - c)) in *.
  clearbody x1 x2 x3 x4 b qa qm qc qp qpc.
  lra.
Qed.

Lemma value_finite (s : bool) (m : positive) (e : Z) :
  0 < (if s then - inject_Z (Zpos m) else inject_Z (Zpos m)) * Qpower 2 e ->
  s = false.
Proof.
  destruct s; [| reflexivity]. intros H. exfalso.
  assert (Hp : 0 < Qpower 2 e) by (apply Qpower_0_lt; reflexivity).
  assert (Hm : 0 < inject_Z (Zpos m)) by reflexivity.
  nra.
Qed.

Lemma value_pos x :
  0 < value x -> exists m e, Prim2SF x = S754_finite false m e.
Proof.
  unfold value. destruct (Prim2SF x) as [s | s | | s m e];
    try (intros H; exfalso; revert H; apply Qlt_irrefl).
  intros H. rewrite (value_finite _ _ _ H). eauto.
Qed.

Lemma value_pos_number x : 0 < value x -> isNaN x = false.
Proof.
  intros H. destruct (value_pos x H) as (m & e & E).
  apply isNaN_false. rewrite E. discriminate.
Qed.

(** A float between a positive number and a number is a positive
    number. *)
Lemma between_pos lo hi x :
  0 < value lo -> isFinite hi = true ->
  (lo <=? x)%float = true -> (x <=? hi)%float = true ->
  isFinite x = true /\ 0 < value x.
Proof.
  intros Hlo Hhi. destruct (value_pos lo Hlo) as (ml & el & El).
  rewrite !FloatAxioms.leb_spec, El. unfold isFinite, value in *.
  destruct (Prim2SF x) as [s | s | | s m e]; cbn.
  - discriminate.
  - destruct s; [discriminate |]. intros _.
    destruct (Prim2SF hi) as [sh | sh | | sh mh eh]; cbn;
      discriminate.
  - discriminate.
  - destruct s; [discriminate |]. intros _ _. split; [reflexivity |].
    assert (Hp : 0 < Qpower 2 e) by (apply Qpower_0_lt; reflexivity).
    assert (Hm : 0 < inject_Z (Zpos m)) by reflexivity.
    nra.
Qed.

Lemma axis_anchored p t s s' :
  0 < value s -> 0 < value s' -> roundedAxis p t s s' ->
  Qabs (under p (p - (p - t) / s * s')%float s' - under p t s) <=
  5 * u * Qabs (under p t s) + u * Qabs (value p) / value s'.
Proof.
  intros Hs Hs' ((_ & H1) & (_ & H2) & (_ & H3) & (_ & H4)). unfold under.
  set (P := value p) in *. set (T := value t) in *.
  set (S := value s) in *. set (S' := value s') in *.
  set (D1 := value (p - t)%float) in *.
  set (M := value ((p - t) / s)%float) in *.
  set (Qq := value ((p - t) / s * s')%float) in *.
  set (T' := value (p - (p - t) / s * s')%float) in *.
  clearbody P T S S' D1 M Qq T'.
  assert (HS : ~ S == 0) by lra. assert (HS' : ~ S' == 0) by lra.
  assert (HiS : 0 <= / S) by (apply Qlt_le_weak, Qinv_lt_0_compat, Hs).
  assert (HiS' : 0 <= / S') by (apply Qlt_le_weak, Qinv_lt_0_compat, Hs').
  assert (Eu : u * Qabs P / S' == u * Qabs (P / S')).
  { rewrite Qabs_div_pos by exact Hs'. field. exact HS'. }
  rewrite Eu.
  apply (rounding_chain ((P - T) / S) (D1 / S) M (Qq / S')).
  - assert (E : D1 / S - (P - T) / S == (D1 - (P - T)) / S)
      by (field; exact HS).
    rewrite E, !Qabs_div_pos by exact Hs.
    unfold Qdiv. rewrite Qmult_assoc. apply Qmult_le_compat_r; assumption.
  - exact H2.
  - assert (E : Qq / S' - M == (Qq - M * S') / S') by (field; exact HS').
    rewrite E, Qabs_div_pos by exact Hs'.
    assert (E2 : u * Qabs M == u * Qabs (M * S') * / S').
    { rewrite Qabs_Qmult, (Qabs_pos S') by lra. field. exact HS'. }
    rewrite E2. apply Qmult_le_compat_r; assumption.
  - assert (E : (P - T') / S' - Qq / S' == - ((T' - (P - Qq)) / S'))
      by (field; exact HS').
    assert (E2 : P / S' - Qq / S' == (P - Qq) / S') by (field; exact HS').
    rewrite E, E2, Qabs_opp, !Qabs_div_pos by exact Hs'.
    unfold Qdiv. rewrite Qmult_assoc. apply Qmult_le_compat_r; assumption.
Qed.

Lemma handleWheel_scale e upd :
  handleWheel e = Some upd ->
  (isNaN (stage_scaleX e) = false ->
   (0.1 <=? scale upd)%float = true /\ (scale upd <=? 5)%float = true) /\
  (isNaN (stage_scaleX e) = true -> isNaN (scale upd) = true).
Proof.
  unfold handleWheel. destruct (pointer e) as [[px py] |]; [| discriminate].
  cbv zeta. intros [= <-]. cbn [scale]. split.
  - intros Hs.
    assert (Hn : isNaN (if (0 <? deltaY e)%float
                        then (stage_scaleX e / 1.1)%float
                        else (stage_scaleX e * 1.1)%float) = false).
    { destruct (0 <? deltaY e)%float;
        [apply div_number | apply mul_number]; auto. }
    destruct (clamp_bounds64 0.1 5 _ eq_refl eq_refl eq_refl Hn) as (H1 & H2 & _).
    auto.
  - intros Hs. apply isNaN_true.
    assert (Hn : isNaN (if (0 <? deltaY e)%float
                        then (stage_scaleX e / 1.1)%float
                        else (stage_scaleX e * 1.1)%float) = true).
    { destruct (0 <? deltaY e)%float; [apply div_nan | apply mul_nan]; exact Hs. }
    rewrite (Math_min_nan_r _ _ Hn). reflexivity.
Qed.


Lemma handleZoom_scale cur size delta centerX centerY :
  let upd := handleZoom cur size delta centerX centerY in
  (isNaN (scale cur) = false ->
   (0.05 <=? scale upd)%float = true /\ (scale upd <=? 10)%float = true) /\
  (isNaN (scale cur) = true -> isNaN (scale upd) = true).
Proof.
  cbv zeta. unfold handleZoom. cbn [scale]. split.
  - intros Hs.
    assert (Hn : isNaN (scale cur * (if (0 <? delta)%float then 1.25 else 0.8))%float
                 = false)
      by (destruct (0 <? delta)%float; apply mul_number; auto).
    destruct (clamp_bounds64 0.05 10 _ eq_refl eq_refl eq_refl Hn)
      as (H1 & H2 & _).
    auto.
  - intros Hs. apply isNaN_true.
    rewrite (Math_min_nan_r _ _ (mul_nan _ _ Hs)). reflexivity.
Qed.

(** C4 as the specification words it fails: at a scale that is NaN the
    wheel handler produces the scale NaN, which is in no interval. *)
Lemma wheel_scale_of_NaN_is_NaN :
  ~ (forall e upd,
        handleWheel e = Some upd ->
        (0.1 <=? scale upd)%float = true /\ (scale upd <=? 5)%float = true).
Proof.
  intros Hall.
  destruct (Hall (mkWheel 100 nan 0 0 (Some (0, 0)%float)) _ eq_refl)
    as [H _].
  vm_compute in H. discriminate H.
Qed.

(** C4, amended.  Both zoom operations clamp the scale: for every prior
    scale other than NaN and every input event, the scale produced by
    the wheel handler lies in [0.1, 5] and the scale produced by the
    zoom-button handler (factor 1.25 for zoom-in, 0.8 for zoom-out) lies
    in [0.05, 10].  From a prior scale that is NaN both produce NaN. *)
Theorem zoom_scale_clamped_unless_NaN :
  (forall e upd,
      handleWheel e = Some upd ->
      (isNaN (stage_scaleX e) = false ->
       (0.1 <=? scale upd)%float = true /\ (scale upd <=? 5)%float = true) /\
      (isNaN (stage_scaleX e) = true -> isNaN (scale upd) = true)) /\
  (forall cur size delta centerX centerY,
      let upd := handleZoom cur size delta centerX centerY in
      (isNaN (scale cur) = false ->
       (0.05 <=? scale upd)%float = true /\ (scale upd <=? 10)%float = true) /\
      (isNaN (scale cur) = true -> isNaN (scale upd) = true)).
Proof.
  split; [exact handleWheel_scale | exact handleZoom_scale].
Qed.

Lemma zoom_scale_clamped_unless_NaN_witness :
  isNaN (stage_scaleX sample_wheel) = false /\
  option_map scale (handleWheel sample_wheel) = Some 0.55000000000000004%float /\
  (forall upd, handleWheel sample_wheel = Some upd ->
               (0.1 <=? scale upd)%float = true /\
               (scale upd <=? 5)%float = true).
Proof.
  split; [reflexivity |]. split; [reflexivity |].
  intros upd H.
  exact (proj1 (proj1 zoom_scale_clamped_unless_NaN sample_wheel upd H) eq_refl).
Defined.

(** C3 as the specification words it fails: the new stage position is
    rounded, so the drawing point under the cursor moves (here from
    60.2 by about 7e-15). *)
Lemma wheel_zoom_moves_cursor_point :
  ~ (forall e px py upd,
        pointer e = Some (px, py) -> handleWheel e = Some upd ->
        0 < value (stage_scaleX e) ->
        under px (translateX upd) (scale upd) ==
        under px (stage_x e) (stage_scaleX e)).
Proof.
  intros Hall.
  assert (Hs : 0 < value (stage_scaleX sample_wheel)) by reflexivity.
  pose proof (Hall sample_wheel _ _ _ eq_refl eq_refl Hs) as H.
  vm_compute in H. discriminate H.
Qed.

(** C3, amended.  Wheel zoom keeps the drawing point under the cursor
    fixed up to rounding: for a pointer position p, an old scale s > 0
    and an old stage position t, when the four operations that compute
    the new stage position on an axis are correctly rounded, the clamped
    new scale s' lies in [0.1, 5] and the point under the cursor moves
    by at most 5u |(p - t)/s| + u |p| / s' on that axis, u = 2^-53. *)
Theorem wheel_zoom_fixes_cursor_point_up_to_rounding e px py upd :
  pointer e = Some (px, py) -> handleWheel e = Some upd ->
  0 < value (stage_scaleX e) ->
  (0.1 <=? scale upd)%float = true /\ (scale upd <=? 5)%float = true /\
  0 < value (scale upd) /\
  (roundedAxis px (stage_x e) (stage_scaleX e) (scale upd) ->
   Qabs (under px (translateX upd) (scale upd) -
         under px (stage_x e) (stage_scaleX e)) <=
   5 * u * Qabs (under px (stage_x e) (stage_scaleX e)) +
   u * Qabs (value px) / value (scale upd)) /\
  (roundedAxis py (stage_y e) (stage_scaleX e) (scale upd) ->
   Qabs (under py (translateY upd) (scale upd) -
         under py (stage_y e) (stage_scaleX e)) <=
   5 * u * Qabs (under py (stage_y e) (stage_scaleX e)) +
   u * Qabs (value py) / value (scale upd)).
Proof.
  intros Hp Hw Hs.
  destruct (proj1 (handleWheel_scale e upd Hw) (value_pos_number _ Hs))
    as [Hlo Hhi].
  assert (Hpos : 0 < value (scale upd)).
  { apply (between_pos 0.1 5); [reflexivity | reflexivity | exact Hlo | exact Hhi]. }
  split; [exact Hlo |]. split; [exact Hhi |]. split; [exact Hpos |].
  unfold handleWheel in Hw. rewrite Hp in Hw. cbv zeta in Hw.
  injection Hw as <-. cbn [scale translateX translateY] in *.
  split; intros Hr; apply axis_anchored; assumption.
Qed.

Lemma wheel_zoom_fixes_cursor_point_up_to_rounding_witness :
  0 < value (stage_scaleX sample_wheel) /\
  roundedAxis 0.1 (stage_x sample_wheel) (stage_scaleX sample_wheel)
              0.55000000000000004 /\
  Qabs (under 0.1 (-33.010000000000005) 0.55000000000000004 -
        under 0.1 (-30) 0.5) <=
  5 * u * Qabs (under 0.1 (-30) 0.5) + u * Qabs (value 0.1) / value 0.55000000000000004.
Proof.
  assert (Hs : 0 < value (stage_scaleX sample_wheel)) by reflexivity.
  assert (Hr : roundedAxis 0.1 (stage_x sample_wheel) (stage_scaleX sample_wheel)
                           0.55000000000000004).
  { repeat split; vm_compute; discriminate. }
  split; [exact Hs |]. split; [exact Hr |].
  exact (proj1 (proj2 (proj2 (proj2
           (wheel_zoom_fixes_cursor_point_up_to_rounding sample_wheel
              0.1 300 _ eq_refl eq_refl Hs)))) Hr).
Defined.

End Viewer64Facts.

Local Close Scope Q_scope.
Local Open Scope string_scope.

(** ** The upload dialog *)

Section UploadFacts.
Import ProjectsDashboard.

(** C1 as the specification words it (PDF and SVG both accepted) fails:
    an SVG file picked in the dialog is rejected with the PDF-only
    message. *)
Lemma upload_rejects_svg :
  ~ (forall st f,
        file_type f = "application/pdf" \/ file_type f = "image/svg+xml" ->
        (selectedFile (handleFileSelect (Some [f]) st) = Some f /\
         uploadError (handleFileSelect (Some [f]) st) <> Some rejection) /\
        (selectedFile (handleDrop [f] st) = Some f /\
         uploadError (handleDrop [f] st) <> Some rejection)).
Proof.
  intros Hall.
  destruct (Hall sample_state sample_svg (or_intror eq_refl)) as [[Hsel _] _].
  discriminate Hsel.
Qed.

Lemma acceptFile_pdf st f :
  file_type f = "application/pdf" ->
  acceptFile (Some f) st =
  setUploadError None (setUploadSuccess false (setSelectedFile (Some f) st)).
Proof.
  intros Ht. unfold acceptFile. rewrite Ht. reflexivity.
Qed.

Lemma acceptFile_other st f :
  file_type f <> "application/pdf" ->
  acceptFile (Some f) st =
  setSelectedFile None (setUploadError (Some rejection) st).
Proof.
  intros Ht. unfold acceptFile.
  destruct (String.eqb_spec (file_type f) "application/pdf") as [E | _];
    [contradiction | reflexivity].
Qed.

(** C1, amended.  The dialog accepts PDF only: through the file picker
    and through drag-and-drop alike, a first file of type
    [application/pdf] becomes the selected upload with no error, and a
    first file of any other type (SVG included) is rejected with
    'Please select a PDF file only' and clears the selection. *)
Theorem upload_accepts_pdf_only st f rest :
  (file_type f = "application/pdf" ->
   forall st', st' = handleFileSelect (Some (f :: rest)) st \/
               st' = handleDrop (f :: rest) st ->
     selectedFile st' = Some f /\ uploadError st' = None /\
     uploadSuccess st' = false) /\
  (file_type f <> "application/pdf" ->
   forall st', st' = handleFileSelect (Some (f :: rest)) st \/
               st' = handleDrop (f :: rest) st ->
     selectedFile st' = None /\ uploadError st' = Some rejection /\
     uploadSuccess st' = uploadSuccess st).
Proof.
  split; intros Ht st' [-> | ->];
    unfold handleFileSelect, handleDrop; cbn [head];
    (rewrite acceptFile_pdf by exact Ht) || (rewrite acceptFile_other by exact Ht);
    repeat split.
Qed.

Lemma upload_accepts_pdf_only_witness :
  (selectedFile (handleDrop [sample_pdf] sample_state) = Some sample_pdf /\
   uploadError (handleDrop [sample_pdf] sample_state) = None /\
   uploadSuccess (handleDrop [sample_pdf] sample_state) = false) /\
  (selectedFile (handleFileSelect (Some [sample_svg]) sample_state) = None /\
   uploadError (handleFileSelect (Some [sample_svg]) sample_state)
     = Some rejection /\
   uploadSuccess (handleFileSelect (Some [sample_svg]) sample_state) = false).
Proof.
  split.
  - apply (proj1 (upload_accepts_pdf_only sample_state sample_pdf [])).
    + reflexivity.
    + right. reflexivity.
  - apply (proj2 (upload_accepts_pdf_only sample_state sample_svg [])).
    + discriminate.
    + left. reflexivity.
Defined.

End UploadFacts.

(** ** The OAuth callback page *)

Section CallbackFacts.
Import ProcoreCallback.

(** C7 as the specification words it: error exactly on an [error]
    parameter, a missing [code], or a non-ok or throwing exchange, and
    success exactly on an ok response.  It fails when the response is ok
    and reading its body as JSON throws: the page ends in 'error'. *)
Lemma callback_ok_response_can_end_in_error :
  ~ (forall ps first second,
        (status (handleCallback ps first second) = error <->
         get "error" ps <> None \/ get "code" ps = None \/
         (throws second = true \/
          exists r, second = FetchResolves r /\ ok r = false)) /\
        (status (handleCallback ps first second) = success <->
         exists r, second = FetchResolves r /\ ok r = true)).
Proof.
  intros Hall.
  pose (r := mkResponse true (BodyThrows (ThrownError "Unexpected end of JSON input"))).
  destruct (Hall [("code", "abc")] (FetchResolves r) (FetchResolves r))
    as [_ [_ Hsucc]].
  assert (Hs : status (handleCallback [("code", "abc")] (FetchResolves r)
                         (FetchResolves r)) = success).
  { apply Hsucc. exists r. split; reflexivity. }
  discriminate Hs.
Qed.

(** Two more inputs on which the wording of the specification and the
    page differ: an empty [error] parameter is ignored, and an empty
    [code] parameter counts as missing. *)
Example callback_empty_error_parameter :
  let r := mkResponse true (BodyValue None) in
  status (handleCallback [("error", ""); ("code", "abc")]
            (FetchResolves r) (FetchResolves r)) = success.
Proof. reflexivity. Qed.

Example callback_empty_code_parameter :
  let r := mkResponse true (BodyValue None) in
  handleCallback [("code", "")] (FetchResolves r) (FetchResolves r) =
  mkState error "No authorization code received".
Proof. reflexivity. Qed.

(** C7, amended.  The page never stays in 'loading'.  It ends in 'error'
    exactly when the [error] parameter is present and non-empty, or the
    [code] parameter is absent or empty, or one of the two backend
    requests throws, or the token-exchange response is non-ok, or
    reading its JSON body throws.  It ends in 'success', with the message
    that RFIs can now be exported, exactly when none of these holds. *)
Theorem callback_status_characterised ps first second :
  let st := handleCallback ps first second in
  (status st = error <->
   truthy (get "error" ps) = true \/
   truthy (get "code" ps) = false \/
   throws first = true \/
   throws second = true \/
   exists r, second = FetchResolves r /\
             (ok r = false \/ body_throws (json r) = true)) /\
  (status st = success <->
   truthy (get "error" ps) = false /\
   truthy (get "code" ps) = true /\
   throws first = false /\
   exists r, second = FetchResolves r /\ ok r = true /\
             body_throws (json r) = false) /\
  (status st = success ->
   message st =
   "Successfully authenticated with Procore! You can now export RFIs.") /\
  status st <> loading.
Proof.
  cbv zeta. unfold handleCallback.
  destruct (truthy (get "error" ps)) eqn:He; cbn [negb].
  { cbn [status message]. repeat split; try discriminate; intros; auto.
    destruct H as [H _]; discriminate H. }
  destruct (truthy (get "code" ps)) eqn:Hc; cbn [negb].
  2:{ cbn [status message]. repeat split; try discriminate; intros; auto.
      destruct H as (_ & H & _); discriminate H. }
  destruct first as [e1 | r1].
  { destruct e1; cbn [onCatch status message throws];
      repeat split; try discriminate; intros; auto;
      destruct H as (_ & _ & H & _); discriminate H. }
  destruct second as [e2 | r2].
  { destruct e2; cbn [onCatch status message throws];
      repeat split; try discriminate; intros; auto;
      destruct H as (_ & _ & _ & r & H & _); discriminate H. }
  destruct r2 as [k b]. cbn [ok json throws].
  destruct k, b as [e | m | d]; try destruct e;
    cbn [onCatch status message];
    repeat split; try discriminate; intros; auto.
  all: try (right; right; right; right; eexists; split;
            [reflexivity | cbn; auto]; fail).
  all: try (eexists; split; [reflexivity | cbn; auto]; fail).
  all: try (destruct H as [H | [H | [H | [H | (r & Hr & H)]]]];
            try discriminate H; injection Hr as <-;
            cbn in H; destruct H; discriminate).
  all: try (destruct H as (_ & _ & _ & r & Hr & H1 & H2);
            injection Hr as <-; cbn in *; discriminate).
Qed.

End CallbackFacts.

(** ** The RFI modal *)

Section RFIModalFacts.
Import RFIModal.

Lemma fetchRFIs_requests p res st : snd (fetchRFIs p res st) = [rfisUrl p].
Proof. reflexivity. Qed.

Lemma fetchRFIs_failed p res st :
  failed res = true ->
  fst (fetchRFIs p res st) =
  mkState (rfis st) false (Some "Failed to load RFIs") (isOverlayMode st)
          (activeTab st).
Proof.
  unfold failed, fetchRFIs.
  destruct res as [| [k b]]; cbn [ok json fst]; [reflexivity |].
  destruct k, b; cbn; intros H; try discriminate H; reflexivity.
Qed.

Lemma fetchRFIs_error_cleared p res st :
  error (fst (fetchRFIs p res st)) = None -> failed res = false.
Proof.
  destruct (failed res) eqn:F; [| reflexivity].
  rewrite (fetchRFIs_failed _ _ _ F). discriminate.
Qed.

Lemma fetchRFIs_ok p res st :
  failed res = false -> error (fst (fetchRFIs p res st)) = None.
Proof.
  unfold failed, fetchRFIs.
  destruct res as [| [k b]]; cbn [ok json fst]; [discriminate |].
  destruct k, b; cbn; intros H; try discriminate H; reflexivity.
Qed.

(** C6 as the specification words it fails: after a failed fetch the
    click on 'Try Again' is not the only way back.  A render with
    another [projectId] (or one that reopens the modal) runs the effect,
    which fetches again and clears the error. *)
Lemma effect_refetch_recovers_without_click :
  ~ (forall c res ev res2,
        failed res = true ->
        let c' := mkInstance (props c)
                             (fst (fetchRFIs (props c) res (state c))) in
        error (state (fst (step ev res2 c'))) = None ->
        ev = ClickTryAgain).
Proof.
  intros Hall.
  pose proof (Hall sample_instance FetchThrows
                (NewProps (mkProps true "13"))
                (FetchResolves (mkResponse true (BodyValue (Some []))))
                eq_refl eq_refl) as H.
  discriminate H.
Qed.

(** The events after which the component fetches: the click on 'Try
    Again', and a render whose [isOpen] or [projectId] differs from the
    last one, with the modal open on a project. *)
Lemma step_requests ev res c :
  snd (step ev res c) <> [] ->
  (ev = ClickTryAgain /\ snd (step ev res c) = [rfisUrl (props c)]) \/
  (exists p, ev = NewProps p /\ props_eqb p (props c) = false /\
             isOpen p = true /\ projectId p <> "" /\
             snd (step ev res c) = [rfisUrl p]).
Proof.
  destruct ev as [| | | v | p]; cbn [step];
    try (intros H; exfalso; apply H; reflexivity).
  - intros _. left. split; [reflexivity |].
    destruct (fetchRFIs (props c) res (state c)) eqn:E.
    cbn [snd]. change l with (snd (s, l)). rewrite <- E. reflexivity.
  - destruct (props_eqb p (props c)) eqn:Ep;
      [intros H; exfalso; apply H; reflexivity |].
    destruct (isOpen p) eqn:Eo; cbn [andb];
      [| intros H; exfalso; apply H; reflexivity].
    destruct (String.eqb_spec (projectId p) "") as [Ee | Hne]; cbn [negb];
      [intros H; exfalso; apply H; reflexivity |].
    intros _. right. exists p. repeat (split; [first [reflexivity | assumption] |]).
    destruct (fetchRFIs p res (state c)) eqn:E.
    cbn [snd]. change l with (snd (s, l)). rewrite <- E. reflexivity.
Qed.

Lemma step_error_kept ev res c :
  snd (step ev res c) = [] ->
  error (state (fst (step ev res c))) = error (state c).
Proof.
  destruct ev as [| | | v | p]; cbn [step]; try reflexivity.
  - destruct (fetchRFIs (props c) res (state c)) eqn:E.
    cbn [snd]. intros ->.
    pose proof (fetchRFIs_requests (props c) res (state c)) as H.
    rewrite E in H. discriminate H.
  - destruct (props_eqb p (props c)); [reflexivity |].
    destruct (isOpen p && negb (String.eqb (projectId p) "")); [| reflexivity].
    destruct (fetchRFIs p res (state c)) eqn:E.
    cbn [snd]. intros ->.
    pose proof (fetchRFIs_requests p res (state c)) as H.
    rewrite E in H. discriminate H.
Qed.

Lemma step_error_after_fetch ev res c :
  snd (step ev res c) <> [] ->
  error (state (fst (step ev res c))) =
  if failed res then Some "Failed to load RFIs" else None.
Proof.
  intros Hreq.
  assert (Hf : forall p, error (fst (fetchRFIs p res (state c))) =
                         if failed res then Some "Failed to load RFIs" else None).
  { intros p. destruct (failed res) eqn:F.
    - rewrite (fetchRFIs_failed _ _ _ F). reflexivity.
    - apply fetchRFIs_ok, F. }
  destruct ev as [| | | v | p]; cbn [step] in *;
    try (exfalso; apply Hreq; reflexivity).
  - rewrite (surjective_pairing (fetchRFIs _ _ _)). cbn [fst state]. apply Hf.
  - destruct (props_eqb p (props c)); [exfalso; apply Hreq; reflexivity |].
    destruct (isOpen p && negb (String.eqb (projectId p) ""));
      [| exfalso; apply Hreq; reflexivity].
    rewrite (surjective_pairing (fetchRFIs _ _ _)). cbn [fst state]. apply Hf.
Qed.

(** C6, amended.  A failed fetch of the RFI list (a non-ok response or a
    thrown exception) sets the inline error 'Failed to load RFIs', keeps
    the list loaded before, clears the loading flag and issues the one
    request only (no retry).  The error block then offers the single
    button 'Try Again', which runs the same fetch.  Afterwards the error
    goes away exactly when the same fetch runs again and succeeds, and
    that fetch runs, by one request, on a click on 'Try Again' or when
    the effect re-runs because the modal is rendered with another
    [isOpen] or [projectId] (open, on a project); no other event sends a
    request or touches the error. *)
Theorem fetchRFIs_failure_and_recovery c res :
  failed res = true ->
  let st' := fst (fetchRFIs (props c) res (state c)) in
  let c' := mkInstance (props c) st' in
  error st' = Some "Failed to load RFIs" /\
  rfis st' = rfis (state c) /\
  loading st' = false /\
  snd (fetchRFIs (props c) res (state c)) = [rfisUrl (props c)] /\
  content st' =
    ErrorBlock "Failed to load RFIs" [("Try Again", ClickTryAgain)] /\
  (forall res2,
      step ClickTryAgain res2 c' =
      (mkInstance (props c) (fst (fetchRFIs (props c) res2 st')),
       [rfisUrl (props c)])) /\
  (forall ev res2,
      let refetches :=
        (ev = ClickTryAgain /\ snd (step ev res2 c') = [rfisUrl (props c)]) \/
        (exists p, ev = NewProps p /\ props_eqb p (props c) = false /\
                   isOpen p = true /\ projectId p <> "" /\
                   snd (step ev res2 c') = [rfisUrl p]) in
      (snd (step ev res2 c') <> [] <-> refetches) /\
      (error (state (fst (step ev res2 c'))) = None <->
       refetches /\ failed res2 = false)).
Proof.
  intros F. cbv zeta. rewrite (fetchRFIs_failed _ _ _ F).
  split; [reflexivity |]. split; [reflexivity |]. split; [reflexivity |].
  split; [reflexivity |]. split; [reflexivity |]. split; [reflexivity |].
  intros ev res2.
  set (c' := mkInstance (props c) _).
  assert (Hreq : snd (step ev res2 c') <> [] <->
                 (ev = ClickTryAgain /\
                  snd (step ev res2 c') = [rfisUrl (props c)]) \/
                 (exists p, ev = NewProps p /\ props_eqb p (props c) = false /\
                            isOpen p = true /\ projectId p <> "" /\
                            snd (step ev res2 c') = [rfisUrl p])).
  { split; [apply (step_requests ev res2 c') |].
    intros [[_ E] | (p & _ & _ & _ & _ & E)]; rewrite E; discriminate. }
  split; [exact Hreq |]. split.
  - intros Hnone.
    assert (Hcases : snd (step ev res2 c') = [] \/ snd (step ev res2 c') <> [])
      by (destruct (snd (step ev res2 c'));
          [left; reflexivity | right; discriminate]).
    destruct Hcases as [E | Hne].
    + rewrite (step_error_kept _ _ _ E) in Hnone. discriminate Hnone.
    + rewrite (step_error_after_fetch _ _ _ Hne) in Hnone.
      split; [apply Hreq, Hne |].
      destruct (failed res2); [discriminate Hnone | reflexivity].
  - intros [Href F2]. apply Hreq in Href.
    rewrite (step_error_after_fetch _ _ _ Href), F2. reflexivity.
Qed.

Lemma fetchRFIs_failure_and_recovery_witness :
  let res := FetchResolves (mkResponse false BodyNull) in
  let st' := fst (fetchRFIs (props sample_instance) res (state sample_instance)) in
  failed res = true /\
  error st' = Some "Failed to load RFIs" /\
  rfis st' = [sample_rfi] /\
  loading st' = false.
Proof.
  cbv zeta. split; [reflexivity |].
  pose proof (fetchRFIs_failure_and_recovery sample_instance
                (FetchResolves (mkResponse false BodyNull)) eq_refl) as H.
  cbv zeta in H. destruct H as (H1 & H2 & H3 & _).
  split; [exact H1 |]. split; [exact H2 | exact H3].
Defined.

End RFIModalFacts.

(** ** Bounding boxes of checks *)

Section CheckDisplayFacts.
Import CheckDisplay.

(** C10.  [parseBoundingBox] is total: for every input string it returns
    (it never throws), and what it returns is the value [JSON.parse]
    produced or, when [JSON.parse] threw, the default box
    [{ x: 0, y: 0, width: 100, height: 100 }]. *)
Theorem parseBoundingBox_total (JSON_parse : Parser) (bbox : string) :
  exists v,
    parseBoundingBox JSON_parse bbox = Return v /\
    (JSON_parse bbox = inl v \/
     (exists msg, JSON_parse bbox = inr msg) /\ v = defaultBox).
Proof.
  unfold parseBoundingBox.
  destruct (JSON_parse bbox) as [v | msg] eqn:E.
  - exists v. split; [reflexivity | left; reflexivity].
  - exists defaultBox. split; [reflexivity |].
    right. split; [exists msg; reflexivity | reflexivity].
Qed.

End CheckDisplayFacts.

(** ** JavaScript string operations *)

Section JSStringFacts.
Import JSString.
Local Open Scope list_scope.

Lemma startsWith_skipn p s :
  startsWith p s = true -> s = p ++ skipn (List.length p) s.
Proof.
  revert s. induction p as [| a p IH]; intros s H; [reflexivity |].
  destruct s as [| b s]; [discriminate H |].
  cbn in H. apply andb_true_iff in H as [Hab Hp].
  apply N.eqb_eq in Hab. subst b. cbn. f_equal. apply IH, Hp.
Qed.

Lemma startsWith_app p a b :
  startsWith p a = true -> startsWith p (a ++ b) = true.
Proof.
  revert a. induction p as [| x p IH]; intros a H; [reflexivity |].
  destruct a as [| y a]; [discriminate H |].
  cbn in *. apply andb_true_iff in H as [Hxy Hp].
  rewrite Hxy. cbn. apply IH, Hp.
Qed.

Lemma breakAt_spec sep s u v :
  breakAt sep s = Some (u, v) -> s = u ++ sep ++ v.
Proof.
  revert u v. induction s as [| c s IH]; intros u v.
  - cbn. destruct (startsWith sep []) eqn:E; [| discriminate].
    intros [= <- <-]. apply (startsWith_skipn _ _ E).
  - cbn. destruct (startsWith sep (c :: s)) eqn:E.
    + intros [= <- <-]. apply (startsWith_skipn _ _ E).
    + destruct (breakAt sep s) as [[u' v'] |]; [| discriminate].
      intros [= <- <-]. cbn. f_equal. apply IH. reflexivity.
Qed.

Lemma breakAt_clean_prefix c0 sep' s u v :
  breakAt (c0 :: sep') s = Some (u, v) -> includes (c0 :: sep') u = false.
Proof.
  revert u v. induction s as [| c s IH]; intros u v.
  - cbn. discriminate.
  - cbn [breakAt]. destruct (startsWith (c0 :: sep') (c :: s)) eqn:E.
    + intros [= <- <-]. reflexivity.
    + destruct (breakAt (c0 :: sep') s) as [[u' v'] |] eqn:Eb; [| discriminate].
      intros [= <- <-]. cbn [includes].
      rewrite (IH _ _ eq_refl). rewrite orb_false_r.
      destruct (startsWith (c0 :: sep') (c :: u')) eqn:Ep; [| reflexivity].
      rewrite (breakAt_spec _ _ _ _ Eb) in E.
      change (c :: u' ++ (c0 :: sep') ++ v')
        with ((c :: u') ++ (c0 :: sep') ++ v') in E.
      rewrite (startsWith_app _ _ _ Ep) in E. discriminate E.
Qed.

Lemma breakAt_None sep s : breakAt sep s = None -> includes sep s = false.
Proof.
  induction s as [| c s IH]; cbn.
  - destruct (startsWith sep []); [discriminate | reflexivity].
  - destruct (startsWith sep (c :: s)); [discriminate |].
    destruct (breakAt sep s) as [[u v] |]; [discriminate |].
    intros _. apply IH. reflexivity.
Qed.

Lemma split_nonempty_step c0 sep' s :
  split_nonempty c0 sep' s =
  match breakAt (c0 :: sep') s with
  | None => [s]
  | Some (u, v) => u :: split_nonempty c0 sep' v
  end.
Proof.
  funelim (split_nonempty c0 sep' s);
    match goal with Hb : breakAt _ _ = _ |- _ => rewrite Hb end; reflexivity.
Qed.

Lemma split_nonempty_not_nil c0 sep' s : split_nonempty c0 sep' s <> [].
Proof.
  rewrite split_nonempty_step.
  destruct (breakAt (c0 :: sep') s) as [[u v] |]; discriminate.
Qed.

Lemma join_cons sep x rest :
  rest <> [] -> join sep (x :: rest) = x ++ sep ++ join sep rest.
Proof. destruct rest; [congruence | reflexivity]. Qed.

(** Joining the pieces of a split with the separator gives the string
    back. *)
Lemma join_split_nonempty c0 sep' s :
  join (c0 :: sep') (split_nonempty c0 sep' s) = s.
Proof.
  funelim (split_nonempty c0 sep' s).
  - rewrite join_cons by apply split_nonempty_not_nil.
    match goal with IH : join _ _ = _ |- _ => rewrite IH end.
    symmetry. apply breakAt_spec. assumption.
  - reflexivity.
Qed.

Lemma trim_whitespace_cons c s : isWhiteSpace c = true -> trim (c :: s) = trim s.
Proof. intros H. unfold trim. cbn [trimStart]. rewrite H. reflexivity. Qed.

End JSStringFacts.

(** ** Editing an RFI description *)

Section RFIPageFacts.
Import JSString RFIPage.
Local Open Scope list_scope.

(** Where the first blank line of [t + '\n\n' + d] is, when [t] has
    none: right after [t], or one code unit earlier when [t] ends with a
    line feed. *)
Lemma breakAt_cons sep c s :
  breakAt sep (c :: s) =
  if startsWith sep (c :: s) then Some ([], skipn (List.length sep) (c :: s))
  else match breakAt sep s with
       | Some (u, v) => Some (c :: u, v)
       | None => None
       end.
Proof. reflexivity. Qed.

Lemma startsWith_blankLine c rest :
  startsWith blankLine (c :: LF :: rest) = (LF =? c)%N.
Proof.
  unfold blankLine. cbn [startsWith]. rewrite N.eqb_refl.
  rewrite !andb_true_r. reflexivity.
Qed.

Lemma breakAt_title t d :
  includes blankLine t = false ->
  breakAt blankLine (t ++ blankLine ++ d) = Some (t, d) \/
  exists t', t = t' ++ [LF] /\
             breakAt blankLine (t ++ blankLine ++ d) = Some (t', LF :: d).
Proof.
  induction t as [| c t IH]; intros Hinc.
  - left. reflexivity.
  - cbn [includes] in Hinc. apply orb_false_iff in Hinc as [Hsw Hinc].
    specialize (IH Hinc).
    destruct t as [| c' t].
    + change ([c] ++ blankLine ++ d) with (c :: LF :: LF :: d).
      rewrite breakAt_cons, startsWith_blankLine.
      destruct (N.eqb_spec LF c) as [<- | Hne].
      * right. exists []. split; reflexivity.
      * left. reflexivity.
    + assert (Hsw' : startsWith blankLine
                       ((c :: c' :: t) ++ blankLine ++ d) = false).
      { cbn in Hsw |- *. rewrite andb_true_r in *. exact Hsw. }
      change ((c :: c' :: t) ++ blankLine ++ d)
        with (c :: ((c' :: t) ++ blankLine ++ d)) in *.
      cbn [breakAt]. rewrite Hsw'.
      destruct IH as [-> | (t' & Ht & ->)].
      * left. reflexivity.
      * right. exists (c :: t'). rewrite Ht. split; reflexivity.
Qed.

Lemma split_blankLine s u v :
  breakAt blankLine s = Some (u, v) ->
  split blankLine s = u :: split blankLine v.
Proof.
  intros Hb. unfold split, blankLine in *.
  rewrite split_nonempty_step, Hb. reflexivity.
Qed.

Lemma cleanRfiDescription_blankLine s u v :
  breakAt blankLine s = Some (u, v) -> cleanRfiDescription s = trim v.
Proof.
  intros Hb. unfold cleanRfiDescription.
  destruct s as [| c s]; [discriminate Hb |].
  cbv zeta. rewrite (split_blankLine _ _ _ Hb). cbn [tl List.length].
  assert (Hj : join blankLine (split blankLine v) = v)
    by apply join_split_nonempty.
  destruct (split blankLine v) as [| p ps] eqn:Es.
  - exfalso. exact (split_nonempty_not_nil _ _ _ Es).
  - cbn [List.length Nat.ltb Nat.leb]. rewrite Hj. reflexivity.
Qed.

Lemma cleanRfiDescription_prefixed t d :
  includes blankLine t = false ->
  cleanRfiDescription (t ++ blankLine ++ d) = trim d.
Proof.
  intros Hinc.
  destruct (breakAt_title t d Hinc) as [Hb | (t' & _ & Hb)];
    rewrite (cleanRfiDescription_blankLine _ _ _ Hb); [reflexivity |].
  apply trim_whitespace_cons. reflexivity.
Qed.

Lemma titlePart_unfold s :
  titlePart s = match breakAt blankLine s with
                | Some (u, _) => u
                | None => s
                end.
Proof.
  unfold titlePart, split, blankLine. rewrite split_nonempty_step.
  destruct (breakAt [LF; LF] s) as [[u v] |]; reflexivity.
Qed.

(** The title part never holds a blank line. *)
Lemma titlePart_clean s : includes blankLine (titlePart s) = false.
Proof.
  rewrite titlePart_unfold.
  destruct (breakAt blankLine s) as [[u v] |] eqn:E.
  - exact (breakAt_clean_prefix _ _ _ _ _ E).
  - exact (breakAt_None _ _ E).
Qed.

Lemma titlePart_prefixed t d :
  includes blankLine t = false -> last t <> Some LF ->
  titlePart (t ++ blankLine ++ d) = t.
Proof.
  intros Hinc Hlast. rewrite titlePart_unfold.
  destruct (breakAt_title t d Hinc) as [-> | (t' & -> & _)]; [reflexivity |].
  exfalso. apply Hlast. apply last_snoc.
Qed.

Lemma findRfi_map rfiId f l rfi :
  (forall r, rfi_id (f r) = rfi_id r) ->
  findRfi rfiId l = Some rfi ->
  findRfi rfiId (map f l) = Some (f rfi).
Proof.
  intros Hid. unfold findRfi.
  induction l as [| r l IH]; cbn; [discriminate |].
  rewrite Hid. destruct (rfi_id r =? rfiId)%Z.
  - intros [= ->]. reflexivity.
  - exact IH.
Qed.

Lemma findRfi_id rfiId l rfi :
  findRfi rfiId l = Some rfi -> (rfi_id rfi =? rfiId)%Z = true.
Proof.
  unfold findRfi. intros H. apply find_some in H. apply H.
Qed.

Lemma handleSaveRfiDescription_ok st rfiId rfi :
  isSavingRfi st = false ->
  findRfi rfiId (rfis st) = Some rfi ->
  let full :=
    titlePart (description rfi) ++ blankLine ++ editedRfiDescription st in
  handleSaveRfiDescription rfiId (FetchResolves true) st =
  (mkState (map (fun r => if (rfi_id r =? rfiId)%Z
                          then withDescription full r else r) (rfis st))
           (loading st) (error st) (activeTab st) None
           (editedRfiDescription st) false,
   [Patch rfiId full]).
Proof.
  intros Hs Hf. cbv zeta. unfold handleSaveRfiDescription.
  rewrite Hs. cbn [setIsSavingRfi rfis]. rewrite Hf. reflexivity.
Qed.

Example split_at_blank_lines :
  split blankLine
    (lit "ab" ++ blankLine ++ lit "cd" ++ blankLine ++ [LF] ++ lit "e") =
  [lit "ab"; lit "cd"; LF :: lit "e"].
Proof. reflexivity. Qed.

Example trim_both_ends : trim ([LF; 32%N] ++ lit "a b" ++ [9%N; 160%N]) = lit "a b".
Proof. reflexivity. Qed.

(** A title that ends with a line feed: the first blank line starts at
    that line feed, so the text shown is still the text entered, and the
    title part read back has lost the line feed. *)
Example clean_after_title_ending_in_line_feed :
  cleanRfiDescription ((lit "Title" ++ [LF]) ++ blankLine ++ lit "x") = lit "x" /\
  titlePart ((lit "Title" ++ [LF]) ++ blankLine ++ lit "x") = lit "Title".
Proof. split; reflexivity. Qed.

(** Without a blank line the title is looked for on the first line. *)
Example clean_single_newline_title :
  cleanRfiDescription (lit "Page 3 - Level 2" ++ [LF] ++ lit "Move wall") =
  lit "Move wall" /\
  cleanRfiDescription (lit "Move wall" ++ [LF] ++ lit "by 2 in") =
  lit "Move wall" ++ [LF] ++ lit "by 2 in".
Proof. split; reflexivity. Qed.

(** C8 as the specification words it fails: a title that holds no
    blank line but ends with a line feed is not the title part of the
    stored text, which has lost the line feed. *)
Lemma title_ending_in_line_feed_not_preserved :
  ~ (forall t d,
        includes blankLine t = false ->
        cleanRfiDescription (t ++ blankLine ++ d) = trim d /\
        titlePart (t ++ blankLine ++ d) = t).
Proof.
  intros Hall.
  destruct (Hall (lit "Title" ++ [LF]) (lit "x") eq_refl) as [_ H].
  discriminate H.
Qed.

(** C8, amended.  Editing an RFI description round-trips through the
    title prefix.  For every title [t] without a blank line and every
    edited text [d], [cleanRfiDescription (t + '\n\n' + d)] is
    [d.trim()], and the title part of [t + '\n\n' + d] is [t] again when
    [t] does not end with a line feed.  A successful save of [d] on an
    RFI whose title part is [t] sends [t + '\n\n' + d] and stores it as
    the description of that RFI, whose other fields stay; that [t] never
    holds a blank line, so the text shown afterwards is the trimmed text
    entered. *)
Theorem rfi_description_roundtrip :
  (forall t d,
      includes blankLine t = false ->
      cleanRfiDescription (t ++ blankLine ++ d) = trim d /\
      (last t <> Some LF -> titlePart (t ++ blankLine ++ d) = t)) /\
  (forall st rfiId rfi,
      isSavingRfi st = false ->
      findRfi rfiId (rfis st) = Some rfi ->
      let t := titlePart (description rfi) in
      let d := editedRfiDescription st in
      let out := handleSaveRfiDescription rfiId (FetchResolves true) st in
      includes blankLine t = false /\
      snd out = [Patch rfiId (t ++ blankLine ++ d)] /\
      exists rfi',
        findRfi rfiId (rfis (fst out)) = Some rfi' /\
        description rfi' = t ++ blankLine ++ d /\
        rfi_id rfi' = rfi_id rfi /\ rfi_type rfi' = rfi_type rfi /\
        imagePath rfi' = imagePath rfi /\ createdAt rfi' = createdAt rfi /\
        checks rfi' = checks rfi /\
        cleanRfiDescription (description rfi') = trim d /\
        (last t <> Some LF -> titlePart (description rfi') = t)).
Proof.
  split.
  { intros t d Ht. split; [apply cleanRfiDescription_prefixed, Ht |].
    intros Hl. apply titlePart_prefixed; assumption. }
  intros st rfiId rfi Hs Hf. cbv zeta.
  rewrite (handleSaveRfiDescription_ok _ _ _ Hs Hf). cbn [fst snd rfis].
  pose proof (titlePart_clean (description rfi)) as Ht.
  split; [exact Ht |]. split; [reflexivity |].
  exists (withDescription
            (titlePart (description rfi) ++ blankLine ++ editedRfiDescription st)
            rfi).
  split.
  - rewrite (findRfi_map rfiId _ _ rfi).
    + rewrite (findRfi_id _ _ _ Hf). reflexivity.
    + intros r. destruct (rfi_id r =? rfiId)%Z; reflexivity.
    + exact Hf.
  - cbn [withDescription description rfi_id rfi_type imagePath createdAt checks].
    repeat (split; [reflexivity |]).
    split; [apply cleanRfiDescription_prefixed, Ht |].
    apply titlePart_prefixed, Ht.
Qed.

Lemma rfi_description_roundtrip_witness :
  includes blankLine (lit "RFI #42 - Level 2") = false /\
  cleanRfiDescription
    (lit "RFI #42 - Level 2" ++ blankLine ++ lit "  Moved 2 in. ")
  = lit "Moved 2 in." /\
  map description
      (rfis (fst (handleSaveRfiDescription 42 (FetchResolves true)
                    sample_state))) =
  [lit "RFI #42 - Level 2" ++ blankLine ++ lit "  Column C4 is offset by 2 in. "].
Proof.
  split; [reflexivity |]. split; [| reflexivity].
  rewrite (proj1 (proj1 rfi_description_roundtrip (lit "RFI #42 - Level 2")
                    (lit "  Moved 2 in. ") eq_refl)).
  reflexivity.
Defined.

End RFIPageFacts.

(** ** Lists of RFIs *)

Section RfiListFacts.
Local Open Scope list_scope.




End RfiListFacts.

(** ** Version comparisons *)

Section VersionControlFacts.
Import VersionControl.
Local Open Scope list_scope.

Lemma lookup_pushOwn k s o k' :
  lookup k' (pushOwn k s o) =
  if String.eqb k k' then Some (default [] (lookup k o) ++ [s])
  else lookup k' o.
Proof.
  induction o as [| [k0 l] o IH]; cbn [pushOwn lookup].
  - destruct (String.eqb k k'); reflexivity.
  - destruct (String.eqb_spec k0 k) as [-> | Hne]; cbn [lookup].
    + destruct (String.eqb k k'); reflexivity.
    + rewrite IH. destruct (String.eqb_spec k k') as [E | Hne'].
      * subst k'. destruct (String.eqb_spec k0 k); [contradiction | reflexivity].
      * reflexivity.
Qed.

Lemma keys_pushOwn k s o k' :
  In k' (map fst (pushOwn k s o)) <-> k' = k \/ In k' (map fst o).
Proof.
  induction o as [| [k0 l] o IH]; cbn [pushOwn map fst In].
  - intuition congruence.
  - destruct (String.eqb_spec k0 k) as [-> | Hne]; cbn [map fst In].
    + intuition congruence.
    + rewrite IH. intuition congruence.
Qed.

Lemma NoDup_keys_pushOwn k s o :
  List.NoDup (map fst o) -> List.NoDup (map fst (pushOwn k s o)).
Proof.
  induction o as [| [k0 l] o IH]; cbn [pushOwn map fst]; intros Hnd.
  - constructor; [apply in_nil | constructor].
  - inversion Hnd as [| ? ? Hnotin Hnd']; subst.
    destruct (String.eqb_spec k0 k) as [-> | Hne]; cbn [map fst].
    + constructor; assumption.
    + constructor; [| apply IH, Hnd'].
      rewrite keys_pushOwn. intros [-> | Hin]; [congruence | contradiction].
Qed.

Lemma In_lookup k l o :
  List.NoDup (map fst o) -> (In (k, l) o <-> lookup k o = Some l).
Proof.
  induction o as [| [k0 l0] o IH]; cbn [map fst lookup In]; intros Hnd.
  - split; [intros [] | discriminate].
  - inversion Hnd as [| ? ? Hnotin Hnd']; subst.
    destruct (String.eqb_spec k0 k) as [-> | Hne].
    + split.
      * intros [[= ->] | Hin]; [reflexivity |].
        exfalso. apply Hnotin. apply (in_map fst) in Hin. exact Hin.
      * intros [= ->]. left. reflexivity.
    + rewrite <- (IH Hnd'). split.
      * intros [[= -> ->] | Hin]; [contradiction | exact Hin].
      * intros Hin. right. exact Hin.
Qed.

Lemma grouped_snoc sheets s k :
  grouped (sheets ++ [s]) k =
  if String.eqb (code s) k then Some (default [] (grouped sheets k) ++ [s])
  else grouped sheets k.
Proof.
  unfold grouped, group_of. rewrite List.filter_app. cbn [List.filter].
  destruct (String.eqb (code s) k).
  - destruct (List.filter _ sheets) as [| x l]; reflexivity.
  - rewrite app_nil_r. reflexivity.
Qed.

Lemma ownGroups_fold rest : forall o pre,
  List.NoDup (map fst o) ->
  (forall k, lookup k o = grouped pre k) ->
  let o' := fold_left (fun o sheet => pushOwn (code sheet) sheet o) rest o in
  List.NoDup (map fst o') /\ forall k, lookup k o' = grouped (pre ++ rest) k.
Proof.
  induction rest as [| s rest IH]; intros o pre Hnd Hlook; cbn [fold_left].
  - rewrite app_nil_r. split; assumption.
  - replace (pre ++ s :: rest) with ((pre ++ [s]) ++ rest)
      by (rewrite <- app_assoc; reflexivity).
    apply IH.
    + apply NoDup_keys_pushOwn, Hnd.
    + intros k. rewrite lookup_pushOwn, grouped_snoc, !Hlook.
      destruct (String.eqb_spec (code s) k) as [E | _]; [subst k |]; reflexivity.
Qed.

Lemma ownGroups_spec sheets :
  List.NoDup (map fst (ownGroups sheets)) /\
  forall k, lookup k (ownGroups sheets) = grouped sheets k.
Proof.
  apply (ownGroups_fold sheets [] []); [constructor | reflexivity].
Qed.

Lemma lookup_keys k o : lookup k o <> None -> In k (map fst o).
Proof.
  induction o as [| [k0 l] o IH]; cbn [lookup map fst In]; [congruence |].
  destruct (String.eqb_spec k0 k) as [-> | _]; [left; reflexivity |].
  intros H. right. apply IH, H.
Qed.

Lemma push_thrown rest :
  fold_left (fun acc sheet =>
               match acc with
               | Some o => push (code sheet) sheet o
               | None => None
               end) rest None = None.
Proof. induction rest as [| s rest IH]; [reflexivity | exact IH]. Qed.

(** The grouping throws exactly when a sheet code is an inherited name;
    otherwise it builds the object of the own properties. *)
Lemma groupByCode_fold rest : forall o,
  (forall k, In k (map fst o) -> inherited k = false) ->
  fold_left (fun acc sheet =>
               match acc with
               | Some o => push (code sheet) sheet o
               | None => None
               end) rest (Some o) =
  if existsb inheritedCode rest then None
  else Some (fold_left (fun o sheet => pushOwn (code sheet) sheet o) rest o).
Proof.
  induction rest as [| s rest IH]; intros o Hown; cbn [fold_left existsb];
    [reflexivity |].
  unfold inheritedCode at 1. unfold push.
  destruct (inherited (code s)) eqn:Ei; cbn [orb].
  - destruct (lookup (code s) o) eqn:El.
    + assert (Hin : In (code s) (map fst o))
        by (apply lookup_keys; rewrite El; discriminate).
      rewrite (Hown _ Hin) in Ei. discriminate Ei.
    + apply push_thrown.
  - assert (E : match lookup (code s) o with
                | Some _ => Some (pushOwn (code s) s o)
                | None => Some (pushOwn (code s) s o)
                end = Some (pushOwn (code s) s o))
      by (destruct (lookup (code s) o); reflexivity).
    rewrite E. apply IH. intros k Hk. apply keys_pushOwn in Hk as [-> | Hk];
      [exact Ei | apply Hown, Hk].
Qed.

Lemma groupByCode_cases sheets :
  groupByCode sheets =
  if existsb inheritedCode sheets then None else Some (ownGroups sheets).
Proof. apply groupByCode_fold. intros k []. Qed.

Lemma insertByIndex_perm {A} (x : N * A) l :
  Permutation (insertByIndex x l) (x :: l).
Proof.
  induction l as [| y l IH]; cbn [insertByIndex]; [reflexivity |].
  destruct (fst x <=? fst y)%N; [reflexivity |].
  rewrite IH. apply perm_swap.
Qed.

Lemma sortByIndex_perm {A} (l : list (N * A)) : Permutation (sortByIndex l) l.
Proof.
  induction l as [| x l IH]; cbn; [reflexivity |].
  rewrite insertByIndex_perm, IH. reflexivity.
Qed.

(** [Object.entries] enumerates every own property once. *)
Lemma entries_perm o : Permutation (entries o) o.
Proof.
  unfold entries. rewrite sortByIndex_perm.
  induction o as [| kv o IH]; cbn [indexed List.filter]; [reflexivity |].
  unfold isNamed at 1. destruct (arrayIndex (fst kv)); cbn [map snd app].
  - apply perm_skip, IH.
  - rewrite <- Permutation_middle. apply perm_skip, IH.
Qed.

Lemma ids_inb_In x l : inb x l = true <-> In x l.
Proof.
  unfold inb. rewrite existsb_exists. split.
  - intros (y & Hy & E). apply Z.eqb_eq in E. subst y. exact Hy.
  - intros H. exists x. split; [exact H | apply Z.eqb_refl].
Qed.

Lemma uniqueValues_fold ids : forall seen,
  List.NoDup seen ->
  let out := fold_left (fun seen x => if inb x seen then seen else seen ++ [x])
                       ids seen in
  List.NoDup out /\ forall x, In x out <-> In x seen \/ In x ids.
Proof.
  induction ids as [| y ids IH]; intros seen Hnd; cbn [fold_left].
  - split; [exact Hnd |]. intros x. cbn. tauto.
  - destruct (inb y seen) eqn:E.
    + destruct (IH seen Hnd) as [Hnd' Hin]. split; [exact Hnd' |].
      intros x. rewrite Hin. apply ids_inb_In in E. cbn.
      intuition (subst; auto).
    + assert (Hnotin : ~ In y seen).
      { intros H. apply ids_inb_In in H. congruence. }
      assert (Hnd1 : List.NoDup (seen ++ [y])).
      { apply List.NoDup_app; [exact Hnd | constructor; [apply in_nil | constructor] |].
        intros a Ha [<- | []]. contradiction. }
      destruct (IH (seen ++ [y]) Hnd1) as [Hnd' Hin]. split; [exact Hnd' |].
      intros x. rewrite Hin, in_app_iff. cbn. tauto.
Qed.

(** [[...new Set(ids)]] holds each value of [ids] once. *)
Lemma uniqueValues_spec ids :
  List.NoDup (uniqueValues ids) /\
  forall x, In x (uniqueValues ids) <-> In x ids.
Proof.
  destruct (uniqueValues_fold ids [] (List.NoDup_nil _)) as [Hnd Hin].
  split; [exact Hnd |]. intros x. rewrite (Hin x). cbn. tauto.
Qed.

Lemma two_distinct_long {A} (l : list A) x y :
  In x l -> In y l -> x <> y -> (1 <? List.length l)%nat = true.
Proof.
  intros Hx Hy Hne. destruct l as [| a [| b l]]; [destruct Hx | | reflexivity].
  destruct Hx as [<- | []]. destruct Hy as [<- | []]. contradiction.
Qed.

Lemma long_NoDup_two_distinct {A} (l : list A) :
  List.NoDup l -> (1 <? List.length l)%nat = true ->
  exists x y, In x l /\ In y l /\ x <> y.
Proof.
  intros Hnd Hlen. destruct l as [| a [| b l]]; try discriminate Hlen.
  exists a, b. split; [left; reflexivity |].
  split; [right; left; reflexivity |].
  inversion Hnd as [| ? ? Hnotin _]; subst.
  intros ->. apply Hnotin. left. reflexivity.
Qed.

Lemma analyzeSheetComparisons_unfold allSheets allDocuments :
  analyzeSheetComparisons allSheets allDocuments =
  if existsb inheritedCode allSheets then None
  else Some (flat_map
               (fun kv => if qualifies (snd kv)
                          then [mkComparison (fst kv)
                                             (entriesOf allDocuments (snd kv))]
                          else [])
               (entries (ownGroups allSheets))).
Proof.
  unfold analyzeSheetComparisons. rewrite groupByCode_cases.
  destruct (existsb inheritedCode allSheets); [reflexivity |]. f_equal.
  apply flat_map_ext. intros [k l]. cbn [fst snd]. unfold qualifies, entriesOf.
  destruct (1 <? List.length l)%nat; [| reflexivity].
  destruct (1 <? List.length (uniqueValues (map documentId l)))%nat; reflexivity.
Qed.

Lemma qualifies_iff l :
  qualifies l = true <->
  exists s1 s2, In s1 l /\ In s2 l /\ documentId s1 <> documentId s2.
Proof.
  unfold qualifies. destruct (uniqueValues_spec (map documentId l)) as [Hnd Hin].
  rewrite andb_true_iff. split.
  - intros [_ Hlen].
    destruct (long_NoDup_two_distinct _ Hnd Hlen) as (x & y & Hx & Hy & Hne).
    apply Hin, in_map_iff in Hx as (s1 & <- & Hs1).
    apply Hin, in_map_iff in Hy as (s2 & <- & Hs2).
    exists s1, s2. auto.
  - intros (s1 & s2 & Hs1 & Hs2 & Hne). split.
    + apply (two_distinct_long l s1 s2 Hs1 Hs2). congruence.
    + apply (two_distinct_long _ (documentId s1) (documentId s2));
        [apply Hin, in_map, Hs1 | apply Hin, in_map, Hs2 | exact Hne].
Qed.

Lemma In_entries allSheets k l :
  In (k, l) (entries (ownGroups allSheets)) <->
  l = group_of k allSheets /\ l <> [].
Proof.
  destruct (ownGroups_spec allSheets) as [Hnd Hlook].
  assert (Hperm := entries_perm (ownGroups allSheets)).
  transitivity (In (k, l) (ownGroups allSheets)).
  { split; apply Permutation_in; [exact Hperm | symmetry; exact Hperm]. }
  rewrite (In_lookup _ _ _ Hnd), Hlook. unfold grouped.
  destruct (group_of k allSheets) as [| x g].
  - split; [discriminate | intros [-> H]; congruence].
  - split; [intros [= <-]; split; [reflexivity | discriminate]
           | intros [-> _]; reflexivity].
Qed.

Lemma NoDup_keys_entries allSheets :
  List.NoDup (map fst (entries (ownGroups allSheets))).
Proof.
  destruct (ownGroups_spec allSheets) as [Hnd _].
  apply (Permutation_NoDup (l := map fst (ownGroups allSheets))); [| exact Hnd].
  apply Permutation_map. symmetry. apply entries_perm.
Qed.

Section Selection.
Context {A B : Type} (p : string * A -> bool) (g : string * A -> B)
        (label : B -> string) (Hlabel : forall kv, label (g kv) = fst kv).

Lemma selected_labels es :
  map label (flat_map (fun kv => if p kv then [g kv] else []) es) =
  map fst (List.filter p es).
Proof.
  induction es as [| kv es IH]; [reflexivity |].
  cbn [flat_map List.filter].
  destruct (p kv); cbn [app map]; rewrite ?Hlabel, IH; reflexivity.
Qed.

Lemma In_selected es b :
  In b (flat_map (fun kv => if p kv then [g kv] else []) es) <->
  exists kv, In kv es /\ p kv = true /\ b = g kv.
Proof.
  rewrite in_flat_map. split.
  - intros (kv & Hin & Hb). exists kv. destruct (p kv); [| destruct Hb].
    destruct Hb as [<- | []]. auto.
  - intros (kv & Hin & Hp & ->). exists kv. rewrite Hp.
    split; [exact Hin | left; reflexivity].
Qed.

End Selection.

Lemma NoDup_keys_filter {A} (p : string * A -> bool) es :
  List.NoDup (map fst es) -> List.NoDup (map fst (List.filter p es)).
Proof.
  induction es as [| kv es IH]; cbn [map List.filter]; intros Hnd;
    [constructor |].
  inversion Hnd as [| ? ? Hnotin Hnd']; subst.
  destruct (p kv); [| apply IH, Hnd'].
  cbn [map]. constructor; [| apply IH, Hnd'].
  intros Hin. apply Hnotin. apply in_map_iff in Hin as (kv' & E & Hin).
  apply List.filter_In in Hin as [Hin _]. rewrite <- E. apply in_map, Hin.
Qed.

Lemma In_group_of s k allSheets :
  In s (group_of k allSheets) <-> In s allSheets /\ code s = k.
Proof.
  unfold group_of. rewrite List.filter_In, String.eqb_eq. reflexivity.
Qed.

Lemma entriesOf_ids allDocuments l :
  map entry_documentId (entriesOf allDocuments l) =
  uniqueValues (map documentId l).
Proof.
  unfold entriesOf. rewrite map_map. cbn [entry_documentId]. apply map_id.
Qed.

Lemma analyzeSheetComparisons_returns allSheets allDocuments result :
  analyzeSheetComparisons allSheets allDocuments = Some result ->
  existsb inheritedCode allSheets = false /\
  result =
  flat_map (fun kv => if qualifies (snd kv)
                      then [mkComparison (fst kv)
                                         (entriesOf allDocuments (snd kv))]
                      else [])
           (entries (ownGroups allSheets)).
Proof.
  rewrite analyzeSheetComparisons_unfold.
  destruct (existsb inheritedCode allSheets); [discriminate |].
  intros [= <-]. split; reflexivity.
Qed.

(** When it returns, [analyzeSheetComparisons] yields exactly one
    comparison per sheet code that occurs on sheets of at least two
    distinct documentIds, and no comparison for any other code; the
    documents of a comparison hold exactly one entry per distinct
    documentId that carries the code, each with a sheet of that code and
    document.  It returns when no sheet code is an inherited name. *)
Lemma analyzeSheetComparisons_characterised allSheets allDocuments :
  existsb inheritedCode allSheets = false ->
  exists result,
  analyzeSheetComparisons allSheets allDocuments = Some result /\
  List.NoDup (map sheetCode result) /\
  (forall c,
      In c (map sheetCode result) <->
      exists s1 s2,
        In s1 allSheets /\ In s2 allSheets /\ code s1 = c /\ code s2 = c /\
        documentId s1 <> documentId s2) /\
  (forall cmp,
      In cmp result ->
      List.NoDup (map entry_documentId (documents cmp)) /\
      (forall d,
          In d (map entry_documentId (documents cmp)) <->
          exists s, In s allSheets /\ code s = sheetCode cmp /\
                    documentId s = d) /\
      (forall e,
          In e (documents cmp) ->
          exists s, entry_sheet e = Some s /\ In s allSheets /\
                    code s = sheetCode cmp /\
                    documentId s = entry_documentId e)).
Proof.
  intros Hown. rewrite analyzeSheetComparisons_unfold, Hown.
  eexists. split; [reflexivity |].
  set (es := entries (ownGroups allSheets)).
  set (p := fun kv : string * list Sheet => qualifies (snd kv)).
  set (g := fun kv : string * list Sheet =>
              mkComparison (fst kv) (entriesOf allDocuments (snd kv))).
  assert (Hlabel : forall kv, sheetCode (g kv) = fst kv) by reflexivity.
  rewrite (selected_labels p g sheetCode Hlabel).
  split; [apply NoDup_keys_filter, NoDup_keys_entries |].
  split.
  - intros c. rewrite in_map_iff. split.
    + intros ([k l] & <- & Hin). apply List.filter_In in Hin as [Hin Hq].
      apply In_entries in Hin as [-> _]. cbn [fst].
      apply qualifies_iff in Hq as (s1 & s2 & H1 & H2 & Hne).
      apply In_group_of in H1 as [H1 E1]. apply In_group_of in H2 as [H2 E2].
      exists s1, s2. auto.
    + intros (s1 & s2 & H1 & H2 & E1 & E2 & Hne).
      exists (c, group_of c allSheets). split; [reflexivity |].
      assert (G1 : In s1 (group_of c allSheets)) by (apply In_group_of; auto).
      assert (G2 : In s2 (group_of c allSheets)) by (apply In_group_of; auto).
      apply List.filter_In. split.
      * apply In_entries. split; [reflexivity |].
        intros E. rewrite E in G1. destruct G1.
      * apply qualifies_iff. exists s1, s2. auto.
  - intros cmp Hcmp.
    apply (In_selected p g) in Hcmp as ([k l] & Hin & _ & ->).
    apply In_entries in Hin as [-> _].
    cbn [g fst snd documents sheetCode]. rewrite entriesOf_ids.
    destruct (uniqueValues_spec (map documentId (group_of k allSheets)))
      as [Hnd Hids].
    split; [exact Hnd |]. split.
    + intros d. rewrite Hids, in_map_iff. split.
      * intros (s & <- & Hs). apply In_group_of in Hs as [Hs E].
        exists s. auto.
      * intros (s & Hs & E & <-). exists s. split; [reflexivity |].
        apply In_group_of. auto.
    + intros e He. unfold entriesOf in He.
      apply in_map_iff in He as (d & <- & Hd). cbn [entry_sheet entry_documentId].
      apply Hids, in_map_iff in Hd as (s0 & E0 & Hs0).
      destruct (List.find (fun s => (documentId s =? d)%Z)
                          (group_of k allSheets)) as [s |] eqn:Ef.
      * apply find_some in Ef as [Hs Ed]. apply Z.eqb_eq in Ed.
        apply In_group_of in Hs as [Hs E]. exists s. auto.
      * exfalso. apply (find_none _ _ Ef) in Hs0. cbn in Hs0.
        apply Z.eqb_neq in Hs0. contradiction.
Qed.

(** On the sample: code ["7"] is enumerated first (an array index),
    ["S-1.1"] occurs twice but in one document, ["A-102"] occurs once. *)
Example analyzeSheetComparisons_sample :
  option_map
    (map (fun cmp => (sheetCode cmp, map entry_documentId (documents cmp))))
    (analyzeSheetComparisons sample_sheets sample_documents) =
  Some [("7", [11; 12]); ("A-101", [10; 11])]%Z /\
  option_map (map (fun cmp => map documentTitle (documents cmp)))
             (analyzeSheetComparisons sample_sheets sample_documents) =
  Some [["Document 11"; "Document 12"]; ["90% CD"; "Document 11"]].
Proof. split; reflexivity. Qed.

(** C9.  The claim holds of the grouping by own properties, but the
    code reads [sheetsByCode[sheet.code]] on a plain object: on the
    sheets of two documents that both hold the codes [A-101] and
    [constructor], two codes occur in two documents each, and
    [analyzeSheetComparisons] throws at the first sheet coded
    [constructor], so that no comparison is set, not even the one of
    [A-101]. *)
Theorem analyzeSheetComparisons_throws_on_inherited_code :
  analyzeSheetComparisons constructor_sheets sample_documents = None /\
  (forall c,
      In c ["A-101"; "constructor"] ->
      exists s1 s2,
        In s1 constructor_sheets /\ In s2 constructor_sheets /\
        code s1 = c /\ code s2 = c /\ documentId s1 <> documentId s2) /\
  forall allSheets allDocuments,
    existsb inheritedCode allSheets = true ->
    analyzeSheetComparisons allSheets allDocuments = None.
Proof.
  split; [reflexivity |]. split.
  - intros c [<- | [<- | []]].
    + exists (sheet 1 "A-101" 10), (sheet 3 "A-101" 11). cbn.
      repeat split; auto; discriminate.
    + exists (sheet 2 "constructor" 10), (sheet 4 "constructor" 11). cbn.
      repeat split; auto 6; discriminate.
  - intros allSheets allDocuments H.
    rewrite analyzeSheetComparisons_unfold, H. reflexivity.
Qed.

End VersionControlFacts.

(** * Further properties *)

(** ** The viewer: isolation of tabs, fit, view states *)

Section ViewerMoreFacts.
Import Viewer.
Local Open Scope Q_scope.

Lemma updateViewState_frame st u :
  sheets (updateViewState st u) = sheets st /\
  activeTab (updateViewState st u) = activeTab st /\
  svgImages (updateViewState st u) = svgImages st /\
  stageSize (updateViewState st u) = stageSize st /\
  svgDimensions (updateViewState st u) = svgDimensions st.
Proof.
  unfold updateViewState. destruct (currentSheet st); repeat split.
Qed.

Lemma updateViewState_other st u j :
  (forall sh, currentSheet st = Some sh -> sheet_id sh <> j) ->
  viewStates (updateViewState st u) !! j = viewStates st !! j.
Proof.
  intros Hj. unfold updateViewState.
  destruct (currentSheet st) as [sh |] eqn:E; [| reflexivity].
  cbn [setViewStates viewStates]. apply lookup_insert_ne. exact (Hj sh eq_refl).
Qed.

Lemma run_is_update h st :
  run h st = st \/ exists u, run h st = updateViewState st u.
Proof.
  destruct h as [e | delta cx cy | | | x y]; cbn [run].
  - unfold handleWheel. destruct (pointer e) as [[px py] |]; eauto.
  - unfold handleZoom. destruct (currentSheet st); eauto.
  - unfold fitToContainer. destruct (currentSheet st); [| eauto].
    destruct (svgImages st !! _); [| eauto].
    destruct (_ || _)%bool; [eauto |].
    destruct (svgDimensions st !! _); eauto.
  - right. eexists. reflexivity.
  - right. eexists. reflexivity.
Qed.

Lemma viewport_frame h st : stageSize (run h st) = stageSize st.
Proof.
  destruct (run_is_update h st) as [-> | (u & ->)]; [reflexivity |].
  apply updateViewState_frame.
Qed.

(** X1.  The viewport handlers (wheel, zoom buttons, fit, reset, drag
    end) write the view state of the current sheet only: the sheets, the
    active tab, the images, the stage size and the drawing dimensions
    are kept, and so is the view state of every other sheet. *)
Theorem viewport_handlers_touch_current_sheet_only h st j :
  (forall sh, currentSheet st = Some sh -> sheet_id sh <> j) ->
  viewStates (run h st) !! j = viewStates st !! j /\
  sheets (run h st) = sheets st /\
  activeTab (run h st) = activeTab st /\
  svgImages (run h st) = svgImages st /\
  stageSize (run h st) = stageSize st /\
  svgDimensions (run h st) = svgDimensions st /\
  currentSheet (run h st) = currentSheet st.
Proof.
  intros Hj. destruct (run_is_update h st) as [-> | (u & ->)].
  - repeat split.
  - destruct (updateViewState_frame st u) as (H1 & H2 & H3 & H4 & H5).
    split; [apply updateViewState_other, Hj |].
    repeat (split; [assumption |]).
    unfold currentSheet, safeActiveTab. rewrite H1, H2. reflexivity.
Qed.

Lemma viewport_handlers_touch_current_sheet_only_witness :
  viewStates (run (Wheel sample_wheel) sample_state2) !! 9%Z =
  Some (mkViewState 3 5 6) /\
  viewStates (run Fit sample_state2) !! 9%Z = Some (mkViewState 3 5 6).
Proof.
  split.
  - rewrite (proj1 (viewport_handlers_touch_current_sheet_only
                      (Wheel sample_wheel) sample_state2 9%Z
                      ltac:(intros sh [= <-]; discriminate))).
    reflexivity.
  - rewrite (proj1 (viewport_handlers_touch_current_sheet_only
                      Fit sample_state2 9%Z
                      ltac:(intros sh [= <-]; discriminate))).
    reflexivity.
Defined.

Lemma spread_total v a b c :
  spread v (mkPartial (Some a) (Some b) (Some c)) = mkViewState a b c.
Proof. reflexivity. Qed.

Lemma updateViewState_total_twice st u a b c :
  updateViewState (updateViewState st u) (mkPartial (Some a) (Some b) (Some c)) =
  updateViewState st (mkPartial (Some a) (Some b) (Some c)).
Proof.
  unfold updateViewState at 2.
  destruct (currentSheet st) as [sh |] eqn:E; [| reflexivity].
  unfold updateViewState. rewrite currentSheet_setViewStates, E.
  rewrite !spread_total. unfold setViewStates. cbn.
  rewrite insert_insert_eq. reflexivity.
Qed.

Lemma fitToContainer_cases st :
  fitToContainer st = st \/
  exists sh img d,
    currentSheet st = Some sh /\
    svgImages st !! sheet_id sh = Some img /\
    svgDimensions st !! sheet_id sh = Some d /\
    Qeqb (width (stageSize st)) 0 = false /\
    Qeqb (height (stageSize st)) 0 = false /\
    fitToContainer st = updateViewState st (fitUpdate (stageSize st) d).
Proof.
  unfold fitToContainer. destruct (currentSheet st) as [sh |] eqn:E; [| auto].
  destruct (svgImages st !! sheet_id sh) as [img |] eqn:Ei; [| auto].
  destruct (Qeqb (width (stageSize st)) 0) eqn:EW; [auto |].
  destruct (Qeqb (height (stageSize st)) 0) eqn:EH; [auto |].
  destruct (svgDimensions st !! sheet_id sh) as [d |] eqn:Ed; [| auto].
  right. exists sh, img, d. cbn [orb]. auto 10.
Qed.

Lemma fitToContainer_guarded st sh img d :
  currentSheet st = Some sh ->
  svgImages st !! sheet_id sh = Some img ->
  svgDimensions st !! sheet_id sh = Some d ->
  Qeqb (width (stageSize st)) 0 = false ->
  Qeqb (height (stageSize st)) 0 = false ->
  fitToContainer st = updateViewState st (fitUpdate (stageSize st) d).
Proof.
  intros Hc Hi Hd HW HH. unfold fitToContainer.
  rewrite Hc, Hi, Hd, HW, HH. reflexivity.
Qed.

(** X3.  Fit-to-screen forgets the previous view: once the current
    sheet has its image and dimensions and the stage is not empty, the
    state after 'Fit' is the same whether or not a wheel zoom, a button
    zoom, a drag, a reset or an earlier fit came before it.  Fitting
    twice is fitting once, in every state. *)
Theorem fitToContainer_forgets_view :
  (forall st, fitToContainer (fitToContainer st) = fitToContainer st) /\
  (forall h st sh img d,
      currentSheet st = Some sh ->
      svgImages st !! sheet_id sh = Some img ->
      svgDimensions st !! sheet_id sh = Some d ->
      Qeqb (width (stageSize st)) 0 = false ->
      Qeqb (height (stageSize st)) 0 = false ->
      fitToContainer (run h st) = fitToContainer st).
Proof.
  assert (Hguarded : forall st u sh img d,
             currentSheet st = Some sh ->
             svgImages st !! sheet_id sh = Some img ->
             svgDimensions st !! sheet_id sh = Some d ->
             Qeqb (width (stageSize st)) 0 = false ->
             Qeqb (height (stageSize st)) 0 = false ->
             fitToContainer (updateViewState st u) = fitToContainer st).
  { intros st u sh img d Hc Hi Hd HW HH.
    destruct (updateViewState_frame st u) as (H1 & H2 & H3 & H4 & H5).
    assert (Hc' : currentSheet (updateViewState st u) = Some sh).
    { unfold currentSheet, safeActiveTab. rewrite H1, H2. exact Hc. }
    rewrite (fitToContainer_guarded _ sh img d Hc'); rewrite ?H3, ?H4, ?H5;
      try assumption.
    rewrite (fitToContainer_guarded st sh img d) by assumption.
    apply updateViewState_total_twice. }
  split.
  - intros st.
    destruct (fitToContainer_cases st)
      as [E | (sh & img & d & Hc & Hi & Hd & HW & HH & E)].
    + rewrite !E. reflexivity.
    + rewrite E at 1. rewrite (Hguarded st _ sh img d) by assumption.
      reflexivity.
  - intros h st sh img d Hc Hi Hd HW HH.
    destruct (run_is_update h st) as [-> | (u & ->)]; [reflexivity |].
    apply (Hguarded st u sh img d); assumption.
Qed.

Lemma fitToContainer_forgets_view_witness :
  fitToContainer (run (Wheel sample_wheel) sample_state2) =
  fitToContainer sample_state2.
Proof.
  apply (proj2 fitToContainer_forgets_view (Wheel sample_wheel) sample_state2
               sample_sheet tt (mkSize 3024 2160)); reflexivity.
Defined.

Lemma initViewStates_fold l : forall (m : gmap Z ViewState) j,
  fold_left
    (fun newStates sheet =>
       match newStates !! sheet_id sheet with
       | Some _ => newStates
       | None => <[sheet_id sheet := defaultViewState]> newStates
       end) l m !! j =
  match m !! j with
  | Some v => Some v
  | None => if existsb (fun sh => Z.eqb (sheet_id sh) j) l
            then Some defaultViewState else None
  end.
Proof.
  induction l as [| sh l IH]; intros m j; cbn [fold_left existsb].
  - destruct (m !! j); reflexivity.
  - rewrite IH. destruct (m !! sheet_id sh) as [w |] eqn:Em.
    + destruct (m !! j) as [v |] eqn:Ej; [reflexivity |].
      destruct (Z.eqb_spec (sheet_id sh) j) as [E | _]; [| reflexivity].
      congruence.
    + destruct (Z.eqb_spec (sheet_id sh) j) as [E | Hne].
      * subst j. rewrite lookup_insert_eq, Em. reflexivity.
      * rewrite lookup_insert_ne by exact Hne. reflexivity.
Qed.

Lemma initViewStates_lookup st j :
  viewStates (initViewStates st) !! j =
  match viewStates st !! j with
  | Some v => Some v
  | None => if existsb (fun sh => Z.eqb (sheet_id sh) j) (sheets st)
            then Some defaultViewState else None
  end.
Proof. exact (initViewStates_fold (sheets st) (viewStates st) j). Qed.

(** X7.  The effect that initialises view states gives every sheet a
    view state, keeps every view state that exists, and adds the default
    one only; so the view of every sheet, with the default standing in
    for a missing one, is the same before and after. *)
Theorem initViewStates_adds_defaults_only st :
  (forall sh, In sh (sheets st) ->
              is_Some (viewStates (initViewStates st) !! sheet_id sh)) /\
  (forall j v, viewStates st !! j = Some v ->
               viewStates (initViewStates st) !! j = Some v) /\
  (forall j, default defaultViewState (viewStates (initViewStates st) !! j) =
             default defaultViewState (viewStates st !! j)) /\
  currentViewState (initViewStates st) = currentViewState st.
Proof.
  split; [| split; [| split]].
  - intros sh Hin. rewrite initViewStates_lookup.
    destruct (viewStates st !! sheet_id sh); [eauto |].
    assert (He : existsb (fun sh' => (sheet_id sh' =? sheet_id sh)%Z)
                         (sheets st) = true).
    { apply existsb_exists. exists sh. split; [exact Hin | apply Z.eqb_refl]. }
    rewrite He. eauto.
  - intros j v Hv. rewrite initViewStates_lookup, Hv. reflexivity.
  - intros j. rewrite initViewStates_lookup.
    destruct (viewStates st !! j); [reflexivity |].
    destruct (existsb _ _); reflexivity.
  - unfold currentViewState.
    change (currentSheet (initViewStates st)) with (currentSheet st).
    destruct (currentSheet st) as [sh |]; [| reflexivity].
    rewrite initViewStates_lookup.
    destruct (viewStates st !! sheet_id sh); [reflexivity |].
    destruct (existsb _ _); reflexivity.
Qed.

Lemma initViewStates_adds_defaults_only_witness :
  is_Some (viewStates (initViewStates sample_state) !! 7%Z) /\
  viewStates (initViewStates sample_state2) !! 9%Z = Some (mkViewState 3 5 6).
Proof.
  split.
  - apply (proj1 (initViewStates_adds_defaults_only sample_state) sample_sheet).
    left. reflexivity.
  - apply (proj1 (proj2 (initViewStates_adds_defaults_only sample_state2))).
    reflexivity.
Defined.

Lemma Qeqb_true_iff x y : Qeqb x y = true <-> x == y.
Proof. apply Qeq_bool_iff. Qed.

Lemma Qgtb_true_iff x y : Qgtb x y = true <-> y < x.
Proof.
  unfold Qgtb. rewrite negb_true_iff. split.
  - intros H. apply Qnot_le_lt. intros Hle. apply Qle_bool_iff in Hle. congruence.
  - intros H. destruct (Qle_bool x y) eqn:E; [| reflexivity].
    apply Qle_bool_iff in E. lra.
Qed.

(** X8.  The one-time auto-fit never overrides a view the user has
    changed: a view state of the current sheet that differs from the
    default (scale 1 at the origin) is left alone.  On a stage larger
    than 100 x 100 and a view state that is missing or the default, it
    does what the 'Fit' button does. *)
Theorem autoFit_respects_custom_view st sh :
  currentSheet st = Some sh ->
  (forall v,
      viewStates st !! sheet_id sh = Some v ->
      ~ (scale v == 1 /\ translateX v == 0 /\ translateY v == 0) ->
      autoFit st = st) /\
  (forall img,
      svgImages st !! sheet_id sh = Some img ->
      100 < width (stageSize st) -> 100 < height (stageSize st) ->
      (viewStates st !! sheet_id sh = None \/
       exists v, viewStates st !! sheet_id sh = Some v /\
                 scale v == 1 /\ translateX v == 0 /\ translateY v == 0) ->
      autoFit st = fitToContainer st).
Proof.
  intros Hcur. split.
  - intros v Hv Hcustom. unfold autoFit. rewrite Hcur, Hv.
    destruct (svgImages st !! sheet_id sh); [| reflexivity].
    destruct (_ && _)%bool; [| reflexivity].
    destruct (Qeqb (scale v) 1) eqn:E1; [| reflexivity].
    destruct (Qeqb (translateX v) 0) eqn:E2; [| reflexivity].
    destruct (Qeqb (translateY v) 0) eqn:E3; [| reflexivity].
    exfalso. apply Hcustom.
    apply Qeqb_true_iff in E1, E2, E3. auto.
  - intros img Hi HW HH Hview. unfold autoFit, fitToContainer.
    rewrite Hcur, Hi.
    assert (HW' : Qgtb (width (stageSize st)) 100 = true)
      by (apply Qgtb_true_iff; exact HW).
    assert (HH' : Qgtb (height (stageSize st)) 100 = true)
      by (apply Qgtb_true_iff; exact HH).
    rewrite HW', HH'.
    rewrite (Qeqb_pos_false (width (stageSize st))) by lra.
    rewrite (Qeqb_pos_false (height (stageSize st))) by lra.
    cbn [andb orb].
    assert (Hnc : match viewStates st !! sheet_id sh with
                  | Some v => negb (Qeqb (scale v) 1) ||
                              negb (Qeqb (translateX v) 0) ||
                              negb (Qeqb (translateY v) 0)
                  | None => false
                  end = false).
    { destruct Hview as [-> | (v & -> & E1 & E2 & E3)]; [reflexivity |].
      apply Qeqb_true_iff in E1, E2, E3. rewrite E1, E2, E3. reflexivity. }
    rewrite Hnc.
    destruct (svgDimensions st !! sheet_id sh) as [d |]; [| reflexivity].
    unfold updateViewState. rewrite Hcur. reflexivity.
Qed.

Lemma autoFit_respects_custom_view_witness :
  autoFit sample_state2 = sample_state2 /\
  autoFit sample_state = fitToContainer sample_state.
Proof.
  split.
  - apply (proj1 (autoFit_respects_custom_view sample_state2 sample_sheet
                    eq_refl) (mkViewState 2 40 (-30))).
    + reflexivity.
    + intros (H & _ & _). discriminate H.
  - apply (proj2 (autoFit_respects_custom_view sample_state sample_sheet
                    eq_refl) tt).
    + reflexivity.
    + reflexivity.
    + reflexivity.
    + left. reflexivity.
Defined.

Lemma nth_error_last {A} (l : list A) :
  nth_error l (Nat.pred (List.length l)) = last l.
Proof.
  induction l as [| x [| y l] IH]; [reflexivity | reflexivity |].
  exact IH.
Qed.

(** X9.  With at least one sheet and a nonnegative active tab there is
    a current sheet, the last one when the active tab is past the end.
    The effect that pulls the active tab back within bounds leaves the
    current sheet as it is, and afterwards the active tab is an index
    of the list. *)
Theorem current_sheet_in_bounds st :
  currentSheet (clampActiveTab st) = currentSheet st /\
  (sheets st <> [] -> (0 <= activeTab st)%Z ->
   (exists sh, currentSheet st = Some sh /\ In sh (sheets st)) /\
   (Z.of_nat (List.length (sheets st)) <= activeTab st ->
    currentSheet st = last (sheets st))%Z /\
   (0 <= activeTab (clampActiveTab st)
       < Z.of_nat (List.length (sheets st)))%Z).
Proof.
  split.
  - unfold clampActiveTab. cbv zeta.
    destruct (Z.leb_spec (Z.of_nat (List.length (sheets st))) (activeTab st));
      [| reflexivity].
    destruct (Z.ltb_spec 0 (Z.of_nat (List.length (sheets st))));
      [| reflexivity].
    cbn [andb]. unfold currentSheet, safeActiveTab.
    cbn [setActiveTab sheets activeTab].
    rewrite !Z.min_r by lia. reflexivity.
  - intros Hne Hpos.
    assert (Hlen : (0 < List.length (sheets st))%nat).
    { destruct (sheets st); [congruence | cbn; lia]. }
    split; [| split].
    + unfold currentSheet, safeActiveTab.
      destruct (Z.ltb_spec (Z.min (activeTab st)
                              (Z.of_nat (List.length (sheets st)) - 1)) 0);
        [lia |].
      destruct (nth_error (sheets st) _) as [sh |] eqn:E.
      * exists sh. split; [reflexivity | apply (nth_error_In _ _ E)].
      * apply nth_error_None in E. lia.
    + intros Hpast. unfold currentSheet, safeActiveTab.
      rewrite Z.min_r by lia.
      destruct (Z.ltb_spec (Z.of_nat (List.length (sheets st)) - 1) 0); [lia |].
      replace (Z.to_nat (Z.of_nat (List.length (sheets st)) - 1))
        with (Nat.pred (List.length (sheets st))) by lia.
      apply nth_error_last.
    + unfold clampActiveTab. cbv zeta.
      destruct (Z.leb_spec (Z.of_nat (List.length (sheets st))) (activeTab st));
        destruct (Z.ltb_spec 0 (Z.of_nat (List.length (sheets st))));
        cbn [andb setActiveTab activeTab]; lia.
Qed.

Lemma current_sheet_in_bounds_witness :
  currentSheet (setActiveTab sample_state2 5) =
  Some (mkSheet 9 "S-201" "Framing" None) /\
  activeTab (clampActiveTab (setActiveTab sample_state2 5)) = 1%Z.
Proof.
  split; [| reflexivity].
  rewrite (proj1 (proj2 (proj2 (current_sheet_in_bounds
                                  (setActiveTab sample_state2 5))
                                ltac:(discriminate) ltac:(discriminate)))
             ltac:(discriminate)).
  reflexivity.
Defined.

End ViewerMoreFacts.

(** ** The RFI page: tab counts, order, editing *)

Section RFIPageMoreFacts.
Import JSString RFIPage.
Local Open Scope list_scope.

Lemma insertById_length x l :
  List.length (insertById x l) = S (List.length l).
Proof.
  induction l as [| y l IH]; cbn [insertById]; [reflexivity |].
  destruct (rfi_id x <=? rfi_id y)%Z; cbn; [reflexivity | rewrite IH; reflexivity].
Qed.

Lemma sortById_length l : List.length (sortById l) = List.length l.
Proof.
  induction l as [| x l IH]; [reflexivity |].
  change (sortById (x :: l)) with (insertById x (sortById l)).
  rewrite insertById_length, IH. reflexivity.
Qed.

(** X14.  The number on a tab trigger is the number of RFIs listed when
    that tab is active, for every tab value. *)
Theorem getRfiCount_counts_listed tab st :
  getRfiCount tab st = List.length (getFilteredRfis (setActiveTab tab st)).
Proof.
  unfold getRfiCount, getFilteredRfis. cbv zeta.
  cbn [setActiveTab activeTab rfis]. rewrite sortById_length.
  destruct (String.eqb tab "all"); [reflexivity |].
  destruct (String.eqb tab "columns"); reflexivity.
Qed.

Lemma insertById_sorted x l : Sorted byId l -> Sorted byId (insertById x l).
Proof.
  induction l as [| y l IH]; intros Hs; cbn [insertById].
  - repeat constructor.
  - destruct (Z.leb_spec (rfi_id x) (rfi_id y)) as [Hle | Hgt].
    + constructor; [exact Hs | constructor; exact Hle].
    + inversion Hs as [| ? ? Hs' Hhd]; subst.
      constructor; [apply IH, Hs' |].
      destruct l as [| z l]; cbn [insertById].
      * constructor. unfold byId. lia.
      * destruct (Z.leb_spec (rfi_id x) (rfi_id z)).
        -- constructor. unfold byId. lia.
        -- inversion Hhd; subst. constructor. assumption.
Qed.

Lemma insertById_perm x l : Permutation (insertById x l) (x :: l).
Proof.
  induction l as [| y l IH]; cbn [insertById]; [reflexivity |].
  destruct (rfi_id x <=? rfi_id y)%Z; [reflexivity |].
  rewrite IH. apply perm_swap.
Qed.

Lemma insertById_withId x l k :
  Sorted byId l ->
  withId k (insertById x l) = withId k (x :: l).
Proof.
  unfold withId. induction l as [| y l IH]; intros Hs; cbn [insertById];
    [reflexivity |].
  destruct (Z.leb_spec (rfi_id x) (rfi_id y)) as [Hle | Hgt]; [reflexivity |].
  inversion Hs as [| ? ? Hs' _]; subst.
  cbn [List.filter] in *. rewrite (IH Hs').
  destruct (Z.eqb_spec (rfi_id x) k) as [Ex | Nx];
    destruct (Z.eqb_spec (rfi_id y) k) as [Ey | Ny];
    try reflexivity.
  lia.
Qed.

Lemma sortById_sorted l : Sorted byId (sortById l).
Proof.
  induction l as [| x l IH]; [constructor |].
  change (sortById (x :: l)) with (insertById x (sortById l)).
  apply insertById_sorted, IH.
Qed.

(** X15.  The RFIs of a tab are listed in ascending order of id.  The
    list is a rearrangement of the RFIs that the tab selects, and RFIs
    with the same id keep their order (the sort is stable). *)
Theorem getFilteredRfis_sorted_by_id st :
  let selected :=
    if String.eqb (activeTab st) "all" then rfis st
    else if String.eqb (activeTab st) "columns"
         then List.filter isColumnType (rfis st)
         else List.filter (hasType (activeTab st)) (rfis st) in
  Sorted byId (getFilteredRfis st) /\
  Permutation (getFilteredRfis st) selected /\
  forall k, withId k (getFilteredRfis st) = withId k selected.
Proof.
  cbv zeta. unfold getFilteredRfis. cbv zeta.
  change (fun rfi : RFI =>
            hasType "unmatched_column" rfi ||
            hasType "unmatched_overlay_column_architectural" rfi ||
            hasType "unmatched_overlay_column_structural" rfi)
    with isColumnType.
  set (sel := if String.eqb (activeTab st) "all" then _ else _).
  clearbody sel. split; [apply sortById_sorted |]. split.
  - induction sel as [| x l IH]; [reflexivity |].
    change (sortById (x :: l)) with (insertById x (sortById l)).
    rewrite insertById_perm, IH. reflexivity.
  - intros k. induction sel as [| x l IH]; [reflexivity |].
    change (sortById (x :: l)) with (insertById x (sortById l)).
    rewrite insertById_withId by apply sortById_sorted.
    unfold withId in *. cbn [List.filter]. rewrite IH. reflexivity.
Qed.

Lemma trimStart_snoc l c :
  isWhiteSpace c = false -> trimStart (l ++ [c]) = trimStart l ++ [c].
Proof.
  intros Hc. induction l as [| x l IH]; cbn [app trimStart].
  - rewrite Hc. reflexivity.
  - destruct (isWhiteSpace x); [exact IH | reflexivity].
Qed.

Lemma trimStart_head s :
  match trimStart s with
  | [] => True
  | c :: _ => isWhiteSpace c = false
  end.
Proof.
  induction s as [| x s IH]; cbn [trimStart]; [exact I |].
  destruct (isWhiteSpace x) eqn:E; [exact IH | exact E].
Qed.

Lemma trimStart_fixed c s :
  isWhiteSpace c = false -> trimStart (c :: s) = c :: s.
Proof. intros H. cbn [trimStart]. rewrite H. reflexivity. Qed.

Lemma trimEnd_cons c s :
  isWhiteSpace c = false -> trimEnd (c :: s) = c :: trimEnd s.
Proof.
  intros Hc. unfold trimEnd. cbn [rev].
  rewrite (trimStart_snoc _ _ Hc), rev_app_distr. reflexivity.
Qed.

Lemma trimStart_idem s : trimStart (trimStart s) = trimStart s.
Proof.
  pose proof (trimStart_head s) as H.
  destruct (trimStart s) as [| c r]; [reflexivity |].
  apply trimStart_fixed, H.
Qed.

Lemma trimEnd_idem s : trimEnd (trimEnd s) = trimEnd s.
Proof.
  unfold trimEnd. rewrite rev_involutive, trimStart_idem. reflexivity.
Qed.

Lemma trim_idem s : trim (trim s) = trim s.
Proof.
  unfold trim. pose proof (trimStart_head s) as H.
  destruct (trimStart s) as [| c r]; [reflexivity |].
  rewrite (trimEnd_cons _ _ H), (trimStart_fixed _ _ H).
  rewrite (trimEnd_cons _ _ H), trimEnd_idem. reflexivity.
Qed.

Lemma cleanRfiDescription_trimmed s :
  trim (cleanRfiDescription s) = cleanRfiDescription s.
Proof.
  unfold cleanRfiDescription. destruct s as [| c s]; [reflexivity |].
  cbv zeta.
  destruct (1 <? List.length (split blankLine (c :: s)))%nat;
    [apply trim_idem |].
  destruct (1 <? List.length (split newline (c :: s)))%nat;
    [| apply trim_idem].
  destruct (_ || _)%bool; apply trim_idem.
Qed.

(** X16.  What [cleanRfiDescription] returns has no white space at
    either end ([trim] leaves it as it is).  So opening the editor on an
    RFI and saving the text unchanged leaves the description shown as it
    was. *)
Theorem edit_and_save_unchanged_keeps_shown_text :
  (forall s, trim (cleanRfiDescription s) = cleanRfiDescription s) /\
  (forall st rfi,
      isSavingRfi st = false ->
      findRfi (rfi_id rfi) (rfis st) = Some rfi ->
      let st1 := handleEditRfiDescription rfi st in
      let st2 := fst (handleSaveRfiDescription (rfi_id rfi)
                        (FetchResolves true) st1) in
      exists rfi', findRfi (rfi_id rfi) (rfis st2) = Some rfi' /\
                   cleanRfiDescription (description rfi') =
                   cleanRfiDescription (description rfi) /\
                   editingRfiId st2 = None).
Proof.
  split; [exact cleanRfiDescription_trimmed |].
  intros st rfi Hs Hf. cbv zeta.
  assert (Hs1 : isSavingRfi (handleEditRfiDescription rfi st) = false)
    by exact Hs.
  assert (Hf1 : findRfi (rfi_id rfi) (rfis (handleEditRfiDescription rfi st))
                = Some rfi) by exact Hf.
  rewrite (handleSaveRfiDescription_ok _ _ _ Hs1 Hf1). cbn [fst rfis editingRfiId].
  eexists. split.
  - rewrite (findRfi_map (rfi_id rfi) _ _ rfi).
    + rewrite Z.eqb_refl. reflexivity.
    + intros r. destruct (rfi_id r =? rfi_id rfi)%Z; reflexivity.
    + exact Hf.
  - split; [| reflexivity].
    cbn [description withDescription handleEditRfiDescription
         editedRfiDescription setEditedRfiDescription].
    rewrite cleanRfiDescription_prefixed by apply titlePart_clean.
    apply cleanRfiDescription_trimmed.
Qed.

Lemma edit_and_save_unchanged_keeps_shown_text_witness :
  exists rfi',
    findRfi 42 (rfis (fst (handleSaveRfiDescription 42 (FetchResolves true)
                             (handleEditRfiDescription sample_rfi sample_state))))
    = Some rfi' /\
    cleanRfiDescription (description rfi') = lit "Column C4 is offset.".
Proof.
  destruct (proj2 edit_and_save_unchanged_keeps_shown_text sample_state
              sample_rfi eq_refl eq_refl) as (rfi' & Hf & Hc & _).
  exists rfi'. split; [exact Hf |]. rewrite Hc. reflexivity.
Defined.

(** X17.  A save that does not go through loses nothing.  While a save
    is in flight a second one does nothing and sends nothing; for an id
    that is not in the list nothing is sent.  When the request throws or
    the response is not ok, the RFIs are as before, the editor stays
    open with the text entered, one alert is shown, and the saving flag
    is cleared. *)
Theorem failed_save_keeps_everything st rfiId res :
  (isSavingRfi st = true ->
   handleSaveRfiDescription rfiId res st = (st, [])) /\
  (isSavingRfi st = false ->
   findRfi rfiId (rfis st) = None ->
   handleSaveRfiDescription rfiId res st = (st, [])) /\
  (isSavingRfi st = false ->
   res <> FetchResolves true ->
   forall rfi, findRfi rfiId (rfis st) = Some rfi ->
   fst (handleSaveRfiDescription rfiId res st) = st /\
   exists text,
     snd (handleSaveRfiDescription rfiId res st) =
     [Patch rfiId (titlePart (description rfi) ++ blankLine ++
                   editedRfiDescription st);
      Alert text]).
Proof.
  unfold handleSaveRfiDescription. split; [| split].
  - intros ->. reflexivity.
  - intros Hs Hf. rewrite Hs. cbn [setIsSavingRfi rfis]. rewrite Hf.
    destruct st. cbn in *. subst. reflexivity.
  - intros Hs Hres rfi Hf. rewrite Hs. cbn [setIsSavingRfi rfis]. rewrite Hf.
    destruct res as [| [|]]; [| congruence |];
      (split; [destruct st; cbn in *; subst; reflexivity
              | eexists; reflexivity]).
Qed.

Lemma failed_save_keeps_everything_witness :
  fst (handleSaveRfiDescription 42 FetchThrows sample_state) = sample_state /\
  handleSaveRfiDescription 5 (FetchResolves true) sample_state = (sample_state, []).
Proof.
  split.
  - apply (proj2 (proj2 (failed_save_keeps_everything sample_state 42 FetchThrows))
             eq_refl ltac:(discriminate) sample_rfi eq_refl).
  - apply (proj1 (proj2 (failed_save_keeps_everything sample_state 5
                           (FetchResolves true))) eq_refl eq_refl).
Defined.

Lemma includes_false_breakAt sep s :
  includes sep s = false -> breakAt sep s = None.
Proof.
  induction s as [| c s IH]; cbn [includes breakAt]; intros H;
    apply orb_false_iff in H as [Hsw Hrest]; rewrite Hsw; [reflexivity |].
  rewrite (IH Hrest). reflexivity.
Qed.

(** X18.  A description without a blank line is kept whole as the
    title: saving an edit of such an RFI stores the old description, a
    blank line and the text entered. *)
Theorem save_without_blank_line_keeps_description st rfiId rfi :
  isSavingRfi st = false ->
  findRfi rfiId (rfis st) = Some rfi ->
  includes blankLine (description rfi) = false ->
  titlePart (description rfi) = description rfi /\
  findRfi rfiId
    (rfis (fst (handleSaveRfiDescription rfiId (FetchResolves true) st))) =
  Some (withDescription
          (description rfi ++ blankLine ++ editedRfiDescription st) rfi).
Proof.
  intros Hs Hf Hinc.
  assert (Ht : titlePart (description rfi) = description rfi).
  { rewrite titlePart_unfold, (includes_false_breakAt _ _ Hinc). reflexivity. }
  split; [exact Ht |].
  rewrite (handleSaveRfiDescription_ok _ _ _ Hs Hf). cbn [fst rfis].
  rewrite (findRfi_map rfiId _ _ rfi).
  - rewrite (findRfi_id _ _ _ Hf), Ht. reflexivity.
  - intros r. destruct (rfi_id r =? rfiId)%Z; reflexivity.
  - exact Hf.
Qed.

Lemma save_without_blank_line_keeps_description_witness :
  findRfi 7
    (rfis (fst (handleSaveRfiDescription 7 (FetchResolves true) sample_state3))) =
  Some (mkRFI 7 (lit "Page 3" ++ [LF] ++ lit "Wall moved" ++ blankLine ++
                 lit "Wall moved 2 in") None "" "" []).
Proof.
  apply (proj2 (save_without_blank_line_keeps_description sample_state3 7
                  (mkRFI 7 (lit "Page 3" ++ [LF] ++ lit "Wall moved") None "" "" [])
                  eq_refl eq_refl eq_refl)).
Defined.

End RFIPageMoreFacts.

(** ** The version-control page: diff requests and loading *)

Section VersionControlMoreFacts.
Import VersionControl.
Local Open Scope list_scope.

Lemma pairs_length {A} (l : list A) :
  (2 * List.length (pairs l) = List.length l * (List.length l - 1))%nat.
Proof.
  induction l as [| x l IH]; [reflexivity |].
  cbn [pairs List.length]. rewrite length_app, length_map.
  replace (S (List.length l) - 1)%nat with (List.length l) by lia.
  destruct (List.length l) as [| n] eqn:E; [cbn in *; lia |].
  replace (S n - 1)%nat with n in IH by lia. nia.
Qed.

Lemma In_pairs {A} (l : list A) a b :
  In (a, b) (pairs l) <->
  exists l1 l2 l3, l = l1 ++ a :: l2 ++ b :: l3.
Proof.
  induction l as [| x l IH]; cbn [pairs].
  - split; [intros [] |].
    intros (l1 & l2 & l3 & E). destruct l1; discriminate E.
  - rewrite in_app_iff, in_map_iff, IH. split.
    + intros [(y & [= <- <-] & Hy) | (l1 & l2 & l3 & ->)].
      * apply in_split in Hy as (l2 & l3 & ->). exists [], l2, l3. reflexivity.
      * exists (x :: l1), l2, l3. reflexivity.
    + intros (l1 & l2 & l3 & E). destruct l1 as [| z l1]; cbn in E.
      * injection E as -> ->. left. exists b. split; [reflexivity |].
        apply in_or_app. right. left. reflexivity.
      * injection E as -> ->. right. exists l1, l2, l3. reflexivity.
Qed.

Lemma pairs_distinct (l : list Z) a b :
  List.NoDup l -> In (a, b) (pairs l) -> a <> b.
Proof.
  intros Hnd Hin. apply In_pairs in Hin as (l1 & l2 & l3 & ->).
  apply NoDup_remove_2 in Hnd. intros ->. apply Hnd.
  apply in_or_app. right. apply in_or_app. right. left. reflexivity.
Qed.

Lemma runJobs_calm projectId respond todo :
  (forall r, calm (respond r) = true) ->
  forallb hasSheets todo = true ->
  exists results,
    runJobs projectId respond todo =
      (Some results, snd (runJobs projectId respond todo)) /\
    map resultKey results = map jobKey todo /\
    map requestKey (snd (runJobs projectId respond todo)) = map jobKey todo /\
    Forall2 (fun res req =>
               processed res =
               match respond req with DiffData _ _ _ _ => true | _ => false end)
            results (snd (runJobs projectId respond todo)).
Proof.
  intros Hcalm. induction todo as [| [[code doc1] doc2] rest IH];
    cbn [forallb runJobs]; intros Hs.
  - exists []. repeat split. constructor.
  - apply andb_true_iff in Hs as [Hs1 Hs2]. cbn [hasSheets] in Hs1.
    destruct (entry_sheet doc1) as [s1 |]; [| discriminate].
    destruct (entry_sheet doc2) as [s2 |]; [| discriminate].
    destruct (IH Hs2) as (results & E & Hres & Hreq & Hproc).
    set (req := mkDiffRequest projectId code (sheet_id s1) (sheet_id s2)
                              (entry_documentId doc1) (entry_documentId doc2)).
    specialize (Hcalm req) as Hc.
    destruct (respond req) as [| | | adds deletes moves path] eqn:Er;
      try discriminate Hc;
      rewrite E; cbn [option_map fst snd];
      eexists; (split; [reflexivity |]);
      cbn [map resultKey requestKey jobKey res_sheetCode res_document1
           res_document2 fst req_sheetCode document1Id document2Id];
      rewrite Hres, Hreq; (split; [reflexivity |]); (split; [reflexivity |]);
      constructor; [cbn [processed]; fold req; rewrite Er; reflexivity
                   | exact Hproc
                   | cbn [processed]; fold req; rewrite Er; reflexivity
                   | exact Hproc].
Qed.

Lemma jobs_length comparisons :
  List.length (jobs comparisons) =
  list_sum (map (fun c => List.length (pairs (documents c))) comparisons).
Proof.
  unfold jobs. induction comparisons as [| c l IH]; [reflexivity |].
  cbn [flat_map map list_sum]. rewrite length_app, length_map, IH. reflexivity.
Qed.

Lemma processDifferences_calm projectId respond st :
  sheetComparisons st <> [] ->
  (forall r, calm (respond r) = true) ->
  forallb hasSheets (jobs (sheetComparisons st)) = true ->
  let out := processDifferences projectId respond st in
  map resultKey (diffResults (fst out)) = map jobKey (jobs (sheetComparisons st)) /\
  map requestKey (snd out) = map jobKey (jobs (sheetComparisons st)) /\
  Forall2 (fun res req =>
             processed res =
             match respond req with DiffData _ _ _ _ => true | _ => false end)
          (diffResults (fst out)) (snd out) /\
  error (fst out) = error st /\
  processingDiffs (fst out) = false.
Proof.
  intros Hne Hcalm Hs. cbv zeta. unfold processDifferences.
  destruct (sheetComparisons st) as [| c l] eqn:Ec; [congruence |].
  destruct (runJobs_calm projectId respond _ Hcalm Hs)
    as (results & E & Hres & Hreq & Hproc).
  rewrite E. cbn [fst snd diffResults error processingDiffs]. auto.
Qed.

(** X19.  'Analyze Differences' sends one request per unordered pair of
    documents of each comparison, in the order of the loops: a
    comparison with [n] documents gives [n (n - 1) / 2] requests, each
    for an earlier and a later document of its list.  When every sheet
    is present and no request throws, there is one result per request,
    for the same sheet code and documents, marked processed exactly when
    the response was ok; the error is untouched and the processing flag
    is cleared. *)
Theorem processDifferences_one_request_per_pair projectId respond st :
  sheetComparisons st <> [] ->
  (forall r, calm (respond r) = true) ->
  forallb hasSheets (jobs (sheetComparisons st)) = true ->
  let out := processDifferences projectId respond st in
  map requestKey (snd out) = map jobKey (jobs (sheetComparisons st)) /\
  map resultKey (diffResults (fst out)) = map requestKey (snd out) /\
  Forall2 (fun res req =>
             processed res =
             match respond req with DiffData _ _ _ _ => true | _ => false end)
          (diffResults (fst out)) (snd out) /\
  (2 * List.length (snd out) =
   list_sum (map (fun c => List.length (documents c) *
                           (List.length (documents c) - 1))
                 (sheetComparisons st)))%nat /\
  (forall code d1 d2,
      In (code, d1, d2) (jobs (sheetComparisons st)) <->
      exists c l1 l2 l3,
        In c (sheetComparisons st) /\ sheetCode c = code /\
        documents c = l1 ++ d1 :: l2 ++ d2 :: l3) /\
  error (fst out) = error st /\
  processingDiffs (fst out) = false.
Proof.
  intros Hne Hcalm Hs.
  destruct (processDifferences_calm projectId respond st Hne Hcalm Hs)
    as (Hres & Hreq & Hproc & Herr & Hflag).
  cbv zeta in *. split; [exact Hreq |]. split; [congruence |].
  split; [exact Hproc |]. split; [| split; [| auto]].
  - assert (Hlen : List.length (snd (processDifferences projectId respond st))
                   = List.length (jobs (sheetComparisons st))).
    { rewrite <- (length_map requestKey), Hreq, length_map. reflexivity. }
    rewrite Hlen, jobs_length. clear.
    induction (sheetComparisons st) as [| c l IH]; [reflexivity |].
    unfold list_sum in *. cbn [map fold_right]. rewrite Nat.mul_add_distr_l, IH, pairs_length. reflexivity.
  - intros code d1 d2. unfold jobs. rewrite in_flat_map. split.
    + intros (c & Hc & Hin). apply in_map_iff in Hin as ([a b] & [= <- <- <-] & Hp).
      apply In_pairs in Hp as (l1 & l2 & l3 & E).
      exists c, l1, l2, l3. auto.
    + intros (c & l1 & l2 & l3 & Hc & <- & E). exists c. split; [exact Hc |].
      apply in_map_iff. exists (d1, d2). split; [reflexivity |].
      apply In_pairs. eauto.
Qed.

Lemma In_analyze cmp allSheets allDocuments result :
  analyzeSheetComparisons allSheets allDocuments = Some result ->
  In cmp result ->
  List.NoDup (map entry_documentId (documents cmp)) /\
  forall e, In e (documents cmp) ->
    exists s, entry_sheet e = Some s /\ In s allSheets /\
              code s = sheetCode cmp /\ documentId s = entry_documentId e.
Proof.
  intros Hres. apply analyzeSheetComparisons_returns in Hres as [_ ->].
  intros Hcmp.
  apply (In_selected (fun kv : string * list Sheet => qualifies (snd kv))
           (fun kv : string * list Sheet =>
              mkComparison (fst kv) (entriesOf allDocuments (snd kv))))
    in Hcmp as ([k l] & Hin & _ & ->).
  apply In_entries in Hin as [-> _].
  cbn [fst snd documents sheetCode]. rewrite entriesOf_ids.
  destruct (uniqueValues_spec (map documentId (group_of k allSheets)))
    as [Hnd Hids].
  split; [exact Hnd |].
  intros e He. unfold entriesOf in He.
  apply in_map_iff in He as (d & <- & Hd). cbn [entry_sheet entry_documentId].
  apply Hids, in_map_iff in Hd as (s0 & E0 & Hs0).
  destruct (List.find (fun s => (documentId s =? d)%Z)
                      (group_of k allSheets)) as [s |] eqn:Ef.
  - apply find_some in Ef as [Hs Ed]. apply Z.eqb_eq in Ed.
    apply In_group_of in Hs as [Hs E]. exists s. auto.
  - exfalso. apply (find_none _ _ Ef) in Hs0. cbn in Hs0.
    apply Z.eqb_neq in Hs0. contradiction.
Qed.

Lemma runJobs_requests_In projectId respond todo r :
  In r (snd (runJobs projectId respond todo)) ->
  exists job, In job todo /\ requestOf projectId job = Some r.
Proof.
  induction todo as [| [[code d1] d2] rest IH]; cbn [runJobs snd];
    [intros [] |].
  assert (Hcont : forall res req,
             In r (snd (let '(results, requests) :=
                          runJobs projectId respond rest in
                        (option_map (cons res) results, req :: requests))) ->
             req = r \/ In r (snd (runJobs projectId respond rest))).
  { intros res req. destruct (runJobs projectId respond rest). cbn. tauto. }
  destruct (entry_sheet d1) as [s1 |] eqn:E1;
    [destruct (entry_sheet d2) as [s2 |] eqn:E2 |]; cbn [snd];
    try (intros []).
  cbv zeta. intros Hin.
  assert (Hr : mkDiffRequest projectId code (sheet_id s1) (sheet_id s2)
                 (entry_documentId d1) (entry_documentId d2) = r \/
               In r (snd (runJobs projectId respond rest))).
  { destruct (respond _); cbn [snd In] in Hin;
      first [apply Hcont in Hin; exact Hin | tauto]. }
  destruct Hr as [<- | Hr].
  - exists (code, d1, d2). split; [left; reflexivity |].
    cbn [requestOf]. rewrite E1, E2. reflexivity.
  - destruct (IH Hr) as (job & Hjob & E). exists job.
    split; [right; exact Hjob | exact E].
Qed.


(** X20.  When the comparisons are those [analyzeSheetComparisons]
    computed, reading a sheet never throws in 'Analyze Differences', and
    every request sent, whatever the server answers, is for two sheets
    of the request's sheet code taken from two different documents. *)
Theorem diff_requests_compare_distinct_documents
    projectId respond allSheets allDocuments st :
  analyzeSheetComparisons allSheets allDocuments = Some (sheetComparisons st) ->
  forallb hasSheets (jobs (sheetComparisons st)) = true /\
  forall r,
    In r (snd (processDifferences projectId respond st)) ->
    req_projectId r = projectId /\
    document1Id r <> document2Id r /\
    exists s1 s2,
      In s1 allSheets /\ In s2 allSheets /\
      sheet_id s1 = sheet1Id r /\ sheet_id s2 = sheet2Id r /\
      code s1 = req_sheetCode r /\ code s2 = req_sheetCode r /\
      documentId s1 = document1Id r /\ documentId s2 = document2Id r.
Proof.
  intros Hst.
  assert (Hjob : forall k d1 d2,
             In (k, d1, d2) (jobs (sheetComparisons st)) ->
             entry_documentId d1 <> entry_documentId d2 /\
             exists s1 s2,
               entry_sheet d1 = Some s1 /\ entry_sheet d2 = Some s2 /\
               In s1 allSheets /\ In s2 allSheets /\
               code s1 = k /\ code s2 = k /\
               documentId s1 = entry_documentId d1 /\
               documentId s2 = entry_documentId d2).
  { intros k d1 d2 Hin. unfold jobs in Hin.
    apply in_flat_map in Hin as (c & Hc & Hin).
    apply in_map_iff in Hin as ([a b] & [= <- <- <-] & Hp).
    destruct (In_analyze _ _ _ _ Hst Hc) as [Hnd He].
    apply In_pairs in Hp as (l1 & l2 & l3 & E).
    assert (Ha : In a (documents c))
      by (rewrite E, in_app_iff; right; left; reflexivity).
    assert (Hb : In b (documents c)).
    { rewrite E, in_app_iff. right. right. rewrite in_app_iff. right. left.
      reflexivity. }
    destruct (He a Ha) as (s1 & E1 & H1 & C1 & D1).
    destruct (He b Hb) as (s2 & E2 & H2 & C2 & D2).
    split; [| exists s1, s2; auto 10].
    rewrite E, map_app in Hnd. apply List.NoDup_app_remove_l in Hnd.
    cbn [map] in Hnd. inversion Hnd as [| ? ? Hnotin _]; subst.
    intros Eab. apply Hnotin. rewrite Eab, map_app, in_app_iff. right. left.
    reflexivity. }
  split.
  - apply forallb_forall. intros [[k d1] d2] Hin.
    destruct (Hjob k d1 d2 Hin) as (_ & s1 & s2 & E1 & E2 & _).
    cbn [hasSheets]. rewrite E1, E2. reflexivity.
  - intros r Hr. unfold processDifferences in Hr.
    destruct (sheetComparisons st) as [| c0 l0] eqn:Ec; [destruct Hr |].
    rewrite <- Ec in Hr.
    destruct (runJobs projectId respond (jobs (sheetComparisons st)))
      as [results requests] eqn:Erun.
    cbn [snd] in Hr.
    assert (Hr' : In r (snd (runJobs projectId respond
                               (jobs (sheetComparisons st)))))
      by (rewrite Erun; exact Hr).
    apply runJobs_requests_In in Hr' as ([[k d1] d2] & Hin & Ereq).
    rewrite Ec in Hin.
    destruct (Hjob k d1 d2 Hin)
      as (Hne & s1 & s2 & E1 & E2 & H1 & H2 & C1 & C2 & D1 & D2).
    cbn [requestOf] in Ereq. rewrite E1, E2 in Ereq.
    injection Ereq as <-.
    cbn [req_projectId document1Id document2Id sheet1Id sheet2Id
         req_sheetCode].
    split; [reflexivity |]. split; [exact Hne |].
    exists s1, s2. auto 10.
Qed.



Lemma diff_requests_compare_distinct_documents_witness :
  analyzeSheetComparisons sample_sheets sample_documents =
    Some (sheetComparisons sample_state) /\
  map requestKey (snd (processDifferences "1" sample_respond sample_state)) =
    [("7"%string, 11, 12); ("A-101"%string, 10, 11)]%Z /\
  forall r,
    In r (snd (processDifferences "1" sample_respond sample_state)) ->
    document1Id r <> document2Id r.
Proof.
  split; [reflexivity |]. split; [reflexivity |].
  intros r Hr.
  exact (proj1 (proj2 (proj2 (diff_requests_compare_distinct_documents
                                "1" sample_respond sample_sheets
                                sample_documents sample_state eq_refl)
                         r Hr))).
Defined.


Lemma processDifferences_one_request_per_pair_witness :
  sheetComparisons sample_state <> [] /\
  map resultKey
      (diffResults (fst (processDifferences "1" sample_respond_ok
                                            sample_state))) =
  [("7"%string, 11, 12); ("A-101"%string, 10, 11)]%Z.
Proof.
  assert (Hne : sheetComparisons sample_state <> []) by discriminate.
  split; [exact Hne |].
  assert (Hcalm : forall r, calm (sample_respond_ok r) = true).
  { intros r. unfold sample_respond_ok.
    destruct (document1Id r =? 10)%Z; reflexivity. }
  destruct (processDifferences_one_request_per_pair "1" sample_respond_ok
              sample_state Hne Hcalm eq_refl) as (H1 & H2 & _).
  rewrite H2, H1. reflexivity.
Defined.

End VersionControlMoreFacts.

Section DashboardFacts.
Import ProjectsDashboard.
Local Open Scope list_scope.

Lemma acceptFile_pdfOrNone file st :
  pdfOrNone (selectedFile st) = true ->
  pdfOrNone (selectedFile (acceptFile file st)) = true.
Proof.
  intros Hst. unfold acceptFile. destruct file as [f |]; [| exact Hst].
  destruct (String.eqb (file_type f) "application/pdf") eqn:E;
    cbn [setUploadError setUploadSuccess setSelectedFile selectedFile pdfOrNone];
    [exact E | reflexivity].
Qed.

Lemma uploadFile_request outcome d r :
  snd (uploadFile outcome d) = Some r ->
  selectedFile (upload d) = Some (form_file r) /\
  (exists target, projectToUpload (upload d) = Some target /\
                  form_projectId r = project_id target) /\
  form_type r = "document"%string.
Proof.
  unfold uploadFile.
  destruct (selectedFile (upload d)) as [file |]; [| discriminate].
  destruct (projectToUpload (upload d)) as [target |]; [| discriminate].
  cbv zeta. intros H.
  assert (E : r = mkUploadRequest file (project_id target) "document").
  { destruct outcome as [[m |] | |]; cbn [snd] in H; congruence. }
  subst r. cbn. eauto.
Qed.

Lemma step_pdfOrNone e d :
  pdfOrNone (selectedFile (upload d)) = true ->
  pdfOrNone (selectedFile (upload (fst (step e d)))) = true.
Proof.
  intros Hd. destruct e as [o | p | o | b | p | b | files | files | o |];
    cbn [step fst]; try exact Hd; try reflexivity.
  - destruct o; exact Hd.
  - unfold confirmDeleteProject. destruct (projectToDelete d); [| exact Hd].
    destruct o; exact Hd.
  - cbn [setUpload upload]. apply acceptFile_pdfOrNone, Hd.
  - cbn [setUpload upload]. apply acceptFile_pdfOrNone, Hd.
  - unfold uploadFile.
    destruct (selectedFile (upload d)) as [file |] eqn:Ef;
      [| cbn [fst]; rewrite Ef; reflexivity].
    destruct (projectToUpload (upload d)) as [target |];
      [| cbn [fst]; rewrite Ef; exact Hd].
    cbv zeta. destruct o as [[m |] | |]; cbn; try exact Hd; reflexivity.
Qed.

Lemma map_bump_length id (ps : list Project) :
  map project_id
      (map (fun p => if (project_id p =? id)%Z
                     then mkProject (project_id p) (project_name p)
                                    (project_date p) (project_documents p + 1)
                     else p) ps) =
  map project_id ps.
Proof.
  rewrite map_map. apply map_ext. intros p.
  destruct (project_id p =? id)%Z; reflexivity.
Qed.

Lemma documentsOf_bump id target (ps : list Project) :
  documentsOf id
      (map (fun p => if (project_id p =? target)%Z
                     then mkProject (project_id p) (project_name p)
                                    (project_date p) (project_documents p + 1)
                     else p) ps) =
  map (fun n => if (id =? target)%Z then (n + 1)%Z else n) (documentsOf id ps).
Proof.
  unfold documentsOf. induction ps as [| p ps IH]; [reflexivity |].
  cbn [map List.filter].
  destruct (project_id p =? target)%Z eqn:Et; cbn [project_id].
  - destruct (project_id p =? id)%Z eqn:Ei; [| exact IH].
    cbn [map project_documents]. rewrite IH.
    apply Z.eqb_eq in Et, Ei.
    replace (id =? target)%Z with true by (symmetry; apply Z.eqb_eq; lia).
    reflexivity.
  - destruct (project_id p =? id)%Z eqn:Ei; [| exact IH].
    cbn [map]. rewrite IH. apply Z.eqb_eq in Ei. apply Z.eqb_neq in Et.
    replace (id =? target)%Z with false by (symmetry; apply Z.eqb_neq; lia).
    reflexivity.
Qed.

Lemma totalDocuments_bump target (ps : list Project) :
  totalDocuments
      (map (fun p => if (project_id p =? target)%Z
                     then mkProject (project_id p) (project_name p)
                                    (project_date p) (project_documents p + 1)
                     else p) ps) =
  (totalDocuments ps + Z.of_nat (List.length (documentsOf target ps)))%Z.
Proof.
  unfold totalDocuments, documentsOf. induction ps as [| p ps IH]; [reflexivity |].
  cbn [map fold_right List.filter]. rewrite IH.
  destruct (project_id p =? target)%Z; cbn [project_documents map List.length];
    lia.
Qed.

Lemma bump_absent target (ps : list Project) :
  ~ In target (map project_id ps) ->
  map (fun p => if (project_id p =? target)%Z
                then mkProject (project_id p) (project_name p)
                               (project_date p) (project_documents p + 1)
                else p) ps = ps.
Proof.
  intros Hnot. rewrite <- (map_id ps) at 2. apply map_ext_in. intros p Hp.
  destruct (Z.eqb_spec (project_id p) target) as [E | _]; [| reflexivity].
  exfalso. apply Hnot. rewrite <- E. apply in_map, Hp.
Qed.

Lemma filter_one_out id (ps : list Project) :
  List.NoDup (map project_id ps) -> In id (map project_id ps) ->
  S (List.length (List.filter (fun p => negb (project_id p =? id)%Z) ps)) =
  List.length ps.
Proof.
  induction ps as [| p ps IH]; cbn [map List.filter List.length];
    intros Hnd Hin; [destruct Hin |].
  inversion Hnd as [| ? ? Hnotin Hnd']; subst.
  destruct (Z.eqb_spec (project_id p) id) as [E | Hne]; cbn [negb].
  - f_equal. rewrite <- E in *. clear IH Hin Hnd Hnd'.
    induction ps as [| q ps IH]; [reflexivity |].
    cbn [List.filter map] in *.
    destruct (Z.eqb_spec (project_id q) (project_id p)) as [E' | _].
    + exfalso. apply Hnotin. left. exact E'.
    + cbn [negb List.length]. f_equal. apply IH. intros H. apply Hnotin.
      right. exact H.
  - cbn [List.length]. f_equal. apply IH; [exact Hnd' |].
    destruct Hin as [E | Hin]; [contradiction | exact Hin].
Qed.

(** X23.  Whatever is done on the dashboard, in whatever order, the
    selected file is none or one whose type is [application/pdf], and
    every form posted to [/api/documents] carries such a file, with
    type ['document']. *)
Theorem every_posted_file_is_pdf es d :
  pdfOrNone (selectedFile (upload d)) = true ->
  pdfOrNone (selectedFile (upload (fst (steps es d)))) = true /\
  Forall (fun r => file_type (form_file r) = "application/pdf"%string /\
                   form_type r = "document"%string)
         (snd (steps es d)).
Proof.
  revert d. induction es as [| e es IH]; intros d Hd.
  - split; [exact Hd | constructor].
  - cbn [steps]. pose proof (step_pdfOrNone e d Hd) as H1.
    destruct (step e d) as [d1 r] eqn:Es. cbn [fst] in H1.
    destruct (IH d1 H1) as [H2 Hrs].
    destruct (steps es d1) as [d2 rs]. cbn [fst snd] in *.
    split; [exact H2 |].
    destruct r as [x |]; [| exact Hrs].
    constructor; [| exact Hrs].
    assert (Hx : snd (step e d) = Some x) by (rewrite Es; reflexivity).
    destruct e; cbn [step snd] in Hx; try discriminate Hx.
    destruct (uploadFile_request _ _ _ Hx) as (Hf & _ & Ht).
    rewrite Hf in Hd. cbn [pdfOrNone] in Hd. unfold isPdf in Hd.
    apply String.eqb_eq in Hd. auto.
Qed.

(** X24.  A successful upload posts the selected file for the chosen
    project and adds one to the document count of every listed project
    with that id, leaving the other counts, and the ids, names and order
    of the list, alone: the total grows by the number of listed projects
    with that id.  The selection is cleared, so that 'Upload' sends
    nothing more until a file is chosen again. *)
Theorem uploadFile_counts_the_document d file target :
  selectedFile (upload d) = Some file ->
  projectToUpload (upload d) = Some target ->
  let out := uploadFile Ok d in
  snd out = Some (mkUploadRequest file (project_id target) "document") /\
  map project_id (projects (fst out)) = map project_id (projects d) /\
  map project_name (projects (fst out)) = map project_name (projects d) /\
  (forall id,
      documentsOf id (projects (fst out)) =
      map (fun n => if (id =? project_id target)%Z then (n + 1)%Z else n)
          (documentsOf id (projects d))) /\
  totalDocuments (projects (fst out)) =
    (totalDocuments (projects d) +
     Z.of_nat (List.length (documentsOf (project_id target) (projects d))))%Z /\
  uploadSuccess (upload (fst out)) = true /\
  uploadError (upload (fst out)) = None /\
  forall outcome, uploadFile outcome (fst out) = (fst out, None).
Proof.
  intros Hf Ht. cbv zeta. unfold uploadFile at 1 2 3 4 5 6 7 8 9.
  rewrite Hf, Ht. cbv zeta. cbn [fst snd projects upload uploadSuccess uploadError].
  split; [reflexivity |]. split; [apply map_bump_length |].
  split.
  { rewrite map_map. apply map_ext. intros p.
    destruct (project_id p =? project_id target)%Z; reflexivity. }
  split; [intros id; apply documentsOf_bump |].
  split; [apply totalDocuments_bump |].
  split; [reflexivity |]. split; [reflexivity |].
  intros outcome. unfold uploadFile. rewrite Hf, Ht. cbv zeta.
  cbn [fst upload selectedFile]. reflexivity.
Qed.

(** X25.  A failed upload (the request fails or its response is not ok)
    changes nothing but the upload dialog's error, which is set, and the
    uploading flag: the projects and their counts, the selected file and
    the chosen project stay, and pressing 'Upload' again posts the same
    form. *)
Theorem uploadFile_failure_allows_retry outcome d r :
  outcome <> Ok ->
  snd (uploadFile outcome d) = Some r ->
  let d' := fst (uploadFile outcome d) in
  projects d' = projects d /\
  selectedFile (upload d') = selectedFile (upload d) /\
  projectToUpload (upload d') = projectToUpload (upload d) /\
  uploadDialogOpen (upload d') = uploadDialogOpen (upload d) /\
  uploadSuccess (upload d') = uploadSuccess (upload d) /\
  uploading (upload d') = false /\
  uploadError (upload d') =
    Some (match outcome with
          | Throws (Some message) => message
          | Throws None => "Upload failed"%string
          | _ => "Failed to upload file"%string
          end) /\
  forall again, snd (uploadFile again d') = Some r.
Proof.
  intros Hne Hr. cbv zeta.
  destruct (uploadFile_request _ _ _ Hr) as (Hf & (target & Ht & Hid) & Hty).
  assert (Er : r = mkUploadRequest (form_file r) (project_id target) "document").
  { destruct r as [f i t]. cbn in *. congruence. }
  assert (E : fst (uploadFile outcome d) =
              setUpload
                (mkState (uploadDialogOpen (upload d)) (Some target)
                         (Some (form_file r)) false (uploadSuccess (upload d))
                         (Some (match outcome with
                                | Throws (Some message) => message
                                | Throws None => "Upload failed"%string
                                | _ => "Failed to upload file"%string
                                end)))
                d).
  { unfold uploadFile. rewrite Hf, Ht. cbv zeta.
    destruct outcome as [[m |] | |]; try contradiction; reflexivity. }
  rewrite E.
  cbn [setUpload projects upload selectedFile projectToUpload
       uploadDialogOpen uploadSuccess uploading uploadError].
  rewrite Hf, Ht. repeat (split; [reflexivity |]).
  intros again. unfold uploadFile.
  cbn [setUpload upload selectedFile projectToUpload]. cbv zeta.
  destruct again as [[m' |] | |]; cbn [snd]; f_equal; symmetry; exact Er.
Qed.

(** X26.  Confirming a deletion asks the server to delete the chosen
    project; when the response is ok, the listed projects with that id
    go and the others stay, in their order (exactly one goes when ids
    are unique and the project is listed), the dialog closes and a
    second confirmation sends nothing; otherwise nothing changes, the
    dialog stays open and no error is shown. *)
Theorem confirmDeleteProject_removes_by_id outcome d target :
  projectToDelete d = Some target ->
  let out := confirmDeleteProject outcome d in
  snd out = Some (project_id target) /\
  (outcome = Ok ->
   (forall p, In p (projects (fst out)) <->
              In p (projects d) /\ project_id p <> project_id target) /\
   (exists removed,
       Permutation (removed ++ projects (fst out)) (projects d) /\
       Forall (fun p => project_id p = project_id target) removed) /\
   sublist (projects (fst out)) (projects d) /\
   (List.NoDup (map project_id (projects d)) ->
    In (project_id target) (map project_id (projects d)) ->
    S (List.length (projects (fst out))) = List.length (projects d)) /\
   deleteDialogOpen (fst out) = false /\
   upload (fst out) = upload d /\
   forall again, confirmDeleteProject again (fst out) = (fst out, None)) /\
  (outcome <> Ok -> fst out = d).
Proof.
  intros Ht. cbv zeta.
  split; [unfold confirmDeleteProject; rewrite Ht; destruct outcome; reflexivity |].
  split.
  - intros ->.
    assert (E : confirmDeleteProject Ok d =
                (mkDashboard
                   (List.filter
                      (fun p => negb (project_id p =? project_id target)%Z)
                      (projects d))
                   false None (upload d) (isLoading d) (error d),
                 Some (project_id target)))
      by (unfold confirmDeleteProject; rewrite Ht; reflexivity).
    rewrite E. clear E. cbn [fst projects deleteDialogOpen upload].
    split.
    { intros p. rewrite List.filter_In, negb_true_iff, Z.eqb_neq. reflexivity. }
    split.
    { exists (List.filter (fun p => (project_id p =? project_id target)%Z)
                          (projects d)).
      split.
      - induction (projects d) as [| p ps IH]; [constructor |].
        cbn [List.filter]. destruct (project_id p =? project_id target)%Z;
          cbn [negb app].
        + constructor. exact IH.
        + symmetry. apply Permutation_cons_app. symmetry. exact IH.
      - apply List.Forall_forall. intros p Hp. apply List.filter_In in Hp as [_ E].
        apply Z.eqb_eq, E. }
    split.
    { induction (projects d) as [| p ps IH]; [constructor |].
      cbn [List.filter]. destruct (negb (project_id p =? project_id target)%Z);
        [apply sublist_skip | apply sublist_cons]; exact IH. }
    split; [apply filter_one_out |].
    split; [reflexivity |]. split; [reflexivity |].
    intros again. reflexivity.
  - intros Hne. unfold confirmDeleteProject. rewrite Ht.
    destruct outcome; [reflexivity | reflexivity | contradiction].
Qed.

(** X27.  Deleting the project the upload dialog was opened on does not
    touch that dialog: an upload confirmed afterwards still posts the
    file for the deleted project and reports success, while no listed
    project counts the document. *)
Theorem upload_after_delete_counts_nothing d file target :
  selectedFile (upload d) = Some file ->
  projectToUpload (upload d) = Some target ->
  projectToDelete d = Some target ->
  let d1 := fst (confirmDeleteProject Ok d) in
  let out := uploadFile Ok d1 in
  ~ In (project_id target) (map project_id (projects d1)) /\
  snd out = Some (mkUploadRequest file (project_id target) "document") /\
  uploadSuccess (upload (fst out)) = true /\
  projects (fst out) = projects d1.
Proof.
  intros Hf Ht Hd. cbv zeta. unfold confirmDeleteProject. rewrite Hd.
  cbn [fst]. unfold uploadFile. cbn [upload]. rewrite Hf, Ht. cbv zeta.
  cbn [fst snd projects upload uploadSuccess].
  assert (Hnot : ~ In (project_id target)
                     (map project_id
                        (List.filter
                           (fun p => negb (project_id p =? project_id target)%Z)
                           (projects d)))).
  { intros Hin. apply in_map_iff in Hin as (p & E & Hp).
    apply List.filter_In in Hp as [_ Hp].
    apply negb_true_iff, Z.eqb_neq in Hp. contradiction. }
  split; [exact Hnot |]. split; [reflexivity |]. split; [reflexivity |].
  apply bump_absent, Hnot.
Qed.

Lemma every_posted_file_is_pdf_witness :
  pdfOrNone (selectedFile (upload sample_dashboard)) = true /\
  map form_file (snd (steps sample_session sample_dashboard)) =
    [sample_pdf; sample_pdf] /\
  Forall (fun r => file_type (form_file r) = "application/pdf"%string /\
                   form_type r = "document"%string)
         (snd (steps sample_session sample_dashboard)).
Proof.
  split; [reflexivity |]. split; [reflexivity |].
  exact (proj2 (every_posted_file_is_pdf sample_session sample_dashboard
                  eq_refl)).
Defined.

Lemma uploadFile_counts_the_document_witness :
  selectedFile (upload sample_ready) = Some sample_pdf /\
  projectToUpload (upload sample_ready) = Some sample_tower /\
  map project_documents (projects (fst (uploadFile Ok sample_ready))) =
    [3; 0]%Z /\
  totalDocuments (projects (fst (uploadFile Ok sample_ready))) =
    (totalDocuments (projects sample_ready) +
     Z.of_nat (List.length (documentsOf 1 (projects sample_ready))))%Z.
Proof.
  split; [reflexivity |]. split; [reflexivity |]. split; [reflexivity |].
  exact (proj1 (proj2 (proj2 (proj2 (proj2
           (uploadFile_counts_the_document sample_ready sample_pdf
              sample_tower eq_refl eq_refl)))))).
Defined.

Lemma uploadFile_failure_allows_retry_witness :
  snd (uploadFile NotOk sample_ready) =
    Some (mkUploadRequest sample_pdf 1 "document") /\
  projects (fst (uploadFile NotOk sample_ready)) = projects sample_ready /\
  uploadError (upload (fst (uploadFile NotOk sample_ready))) =
    Some "Failed to upload file"%string.
Proof.
  split; [reflexivity |].
  assert (Hne : NotOk <> Ok) by discriminate.
  destruct (uploadFile_failure_allows_retry NotOk sample_ready
              (mkUploadRequest sample_pdf 1 "document") Hne eq_refl)
    as (H1 & _ & _ & _ & _ & _ & H2 & _).
  split; [exact H1 | exact H2].
Defined.

Lemma confirmDeleteProject_removes_by_id_witness :
  projectToDelete sample_ready = Some sample_tower /\
  map project_name (projects (fst (confirmDeleteProject Ok sample_ready))) =
    ["Bridge"%string] /\
  snd (confirmDeleteProject Ok sample_ready) = Some 1%Z.
Proof.
  split; [reflexivity |]. split; [reflexivity |].
  exact (proj1 (confirmDeleteProject_removes_by_id Ok sample_ready
                  sample_tower eq_refl)).
Defined.

Lemma upload_after_delete_counts_nothing_witness :
  projectToDelete sample_ready = Some sample_tower /\
  snd (uploadFile Ok (fst (confirmDeleteProject Ok sample_ready))) =
    Some (mkUploadRequest sample_pdf 1 "document") /\
  projects (fst (uploadFile Ok (fst (confirmDeleteProject Ok sample_ready)))) =
    projects (fst (confirmDeleteProject Ok sample_ready)).
Proof.
  split; [reflexivity |].
  destruct (upload_after_delete_counts_nothing sample_ready sample_pdf
              sample_tower eq_refl eq_refl eq_refl) as (_ & H1 & _ & H2).
  split; [exact H1 | exact H2].
Defined.

End DashboardFacts.

(** ** Where the displayed records come from *)

Section DashboardProvenance.
Import ProjectsDashboard ProjectCreation.
Local Open Scope list_scope.





End DashboardProvenance.
Section ProjectPageProvenance.
Import VersionControl ProjectPage.
Local Open Scope list_scope.









End ProjectPageProvenance.
Section RfiPageProvenance.
Import JSString RFIPage.
Local Open Scope list_scope.











End RfiPageProvenance.
Section RfiModalProvenance.
Import RFIModal.
Local Open Scope list_scope.







End RfiModalProvenance.

Section ProcoreProvenance.
Import ProcorePage.
Local Open Scope list_scope.



End ProcoreProvenance.

Section ChatPageProvenance.
Import VersionControl ChatPage.
Local Open Scope list_scope.


End ChatPageProvenance.
Section VersionControlProvenance.
Import VersionControl.
Local Open Scope list_scope.






End VersionControlProvenance.
Section DisplayedRecords.
Local Open Scope list_scope.




End DisplayedRecords.
